(** * A Pod-manifest linter: shallow embedding of [main.go]

    The repository holds two complete validators for the same schema.

    - The _accumulate-all_ program ([Module Acc], first [package main]):
      a [Validator] with a mutable error counter; every violation is
      printed at once by [Validator.fail] and the traversal continues.
    - The _fail-fast_ program ([Module FF], second [package main]):
      every check returns an [error]; the first one ends the pass and
      [main] renders it.

    Both walk a [yaml.Node] tree.  Go strings are byte strings and are
    modelled by [string]; Go [int] values (line numbers, ports, the
    error counter) are modelled by [Z]: every number that the code
    computes with is either produced by [strconv.Atoi], which only
    succeeds inside the 64-bit range, or counts nodes of the document. *)

From Stdlib Require Import ZArith Ascii String List Bool Lia DecimalString.
From stdpp Require Import gmap strings list fin_maps.

Open Scope Z_scope.

(** ** The node tree ([gopkg.in/yaml.v3], the fields the code reads) *)

Inductive Kind :=
  | DocumentNode | SequenceNode | MappingNode | ScalarNode | AliasNode.

#[warnings="-register-all"]
Inductive Node := mkNode {
  NKind : Kind;
  Tag : string;
  Value : string;
  Content : list Node;
  Line : Z
}.

#[global] Instance Kind_eq_dec : EqDecision Kind.
Proof. solve_decision. Defined.

Definition isMapping (n : Node) : bool := bool_decide (NKind n = MappingNode).
Definition isSequence (n : Node) : bool := bool_decide (NKind n = SequenceNode).
Definition isScalar (n : Node) : bool := bool_decide (NKind n = ScalarNode).

(** The key/value pairs of a mapping's [Content], in order; a dangling
    last key (odd length) has no pair. *)
Fixpoint pairs (c : list Node) : list (Node * Node) :=
  match c with
  | k :: v :: rest => (k, v) :: pairs rest
  | _ => []
  end.

(** ** Outcomes of code that may index out of range

    [Content[i+1]] in the fail-fast loops is not guarded by the loop
    condition; Go panics there when a mapping has an odd number of
    children. *)

Inductive outcome (A : Type) :=
  | Ret (a : A)
  | Panic.
Arguments Ret {A} a.
Arguments Panic {A}.

Definition obind {A B} (m : outcome A) (f : A -> outcome B) : outcome B :=
  match m with
  | Ret a => f a
  | Panic => Panic
  end.

(** ** Strings and numbers from the Go standard library *)

Definition code (c : ascii) : N := N_of_ascii c.

Definition isDigit (c : ascii) : bool := (48 <=? code c)%N && (code c <=? 57)%N.
Definition isLower (c : ascii) : bool := (97 <=? code c)%N && (code c <=? 122)%N.

Definition len (s : string) : Z := Z.of_nat (String.length s).

(** [fmt]'s [%d] of an [int]. *)
Definition itoa (z : Z) : string := NilZero.string_of_int (Z.to_int z).

(** [strconv.Atoi] with a 64-bit [int]: an optional sign, then one or
    more decimal digits, the value inside the [int] range.  The first
    component is the returned number (0 on a syntax error, the nearest
    bound on a range error), the second is [err]. *)
Inductive NumError := ErrSyntax | ErrRange.

Fixpoint digitsVal (s : string) (acc : Z) : option Z :=
  match s with
  | EmptyString => Some acc
  | String c r =>
      if isDigit c then digitsVal r (acc * 10 + (Z.of_N (code c) - 48)) else None
  end.

Definition minInt : Z := - 2 ^ 63.
Definition maxInt : Z := 2 ^ 63 - 1.

Definition Atoi (s : string) : Z * option NumError :=
  let '(neg, body) :=
    match s with
    | String "-"%char r => (true, r)
    | String "+"%char r => (false, r)
    | _ => (false, s)
    end in
  match body with
  | EmptyString => (0, Some ErrSyntax)
  | _ =>
      match digitsVal body 0 with
      | None => (0, Some ErrSyntax)
      | Some n =>
          let v := if neg then - n else n in
          if v <? minInt then (minInt, Some ErrRange)
          else if maxInt <? v then (maxInt, Some ErrRange)
          else (v, None)
      end
  end.

Definition atoiOk (s : string) : bool :=
  match snd (Atoi s) with None => true | Some _ => false end.

(** [strings.HasPrefix]. *)
Definition HasPrefix (s p : string) : bool := String.prefix p s.

(** [strings.LastIndex] for a one-byte needle: the byte offset of its
    last occurrence, or -1. *)
Fixpoint lastIndexFrom (c : ascii) (s : string) (i found : Z) : Z :=
  match s with
  | EmptyString => found
  | String a r => lastIndexFrom c r (i + 1) (if Ascii.eqb a c then i else found)
  end.

Definition LastIndex (s : string) (c : ascii) : Z := lastIndexFrom c s 0 (-1).

(** [strings.TrimSpace(s) == ""]: every rune of [s] is white space in
    the sense of [unicode.IsSpace].  The runes are written by their
    UTF-8 bytes: the six ASCII ones, U+0085, U+00A0, U+1680,
    U+2000..U+200A, U+2028, U+2029, U+202F, U+205F and U+3000. *)
Definition isAsciiSpace (c : ascii) : bool :=
  ((9 <=? code c)%N && (code c <=? 13)%N) || (code c =? 32)%N.

Definition isSpace2 (a b : N) : bool :=
  ((a =? 194) && ((b =? 133) || (b =? 160)))%N.

Definition isSpace3 (a b c : N) : bool :=
  (((a =? 225) && (b =? 154) && (c =? 128))
   || ((a =? 226) && (b =? 128)
       && (((128 <=? c) && (c <=? 138)) || (c =? 168) || (c =? 169) || (c =? 175)))
   || ((a =? 226) && (b =? 129) && (c =? 159))
   || ((a =? 227) && (b =? 128) && (c =? 128)))%N.

Fixpoint trimsToEmpty (s : string) : bool :=
  match s with
  | EmptyString => true
  | String a r =>
      if isAsciiSpace a then trimsToEmpty r
      else
        match r with
        | String b r2 =>
            if isSpace2 (code a) (code b) then trimsToEmpty r2
            else
              match r2 with
              | String c r3 =>
                  if isSpace3 (code a) (code b) (code c) then trimsToEmpty r3
                  else false
              | EmptyString => false
              end
        | EmptyString => false
        end
  end.

(** ** Regular expressions ([regexp.MustCompile] / [MatchString])

    The four patterns of the program are anchored at the start; a
    pattern is kept as the expression between the anchors and matched
    by derivatives against the whole text ([reAbs], which has no [$],
    is closed by "any text").  All classes used are sets of ASCII
    bytes or complements of such sets, so matching bytes and matching
    runes agree. *)

Inductive regex :=
  | RNone
  | REps
  | RClass (p : ascii -> bool)
  | RCat (a b : regex)
  | RAlt (a b : regex)
  | RStar (a : regex).

Definition RChar (c : ascii) : regex := RClass (Ascii.eqb c).
Definition RPlus (a : regex) : regex := RCat a (RStar a).

Fixpoint RLit (s : string) : regex :=
  match s with
  | EmptyString => REps
  | String c r => RCat (RChar c) (RLit r)
  end.

Fixpoint nullable (r : regex) : bool :=
  match r with
  | RNone => false
  | REps => true
  | RClass _ => false
  | RCat a b => nullable a && nullable b
  | RAlt a b => nullable a || nullable b
  | RStar _ => true
  end.

Fixpoint deriv (c : ascii) (r : regex) : regex :=
  match r with
  | RNone => RNone
  | REps => RNone
  | RClass p => if p c then REps else RNone
  | RCat a b =>
      if nullable a then RAlt (RCat (deriv c a) b) (deriv c b)
      else RCat (deriv c a) b
  | RAlt a b => RAlt (deriv c a) (deriv c b)
  | RStar a => RCat (deriv c a) (RStar a)
  end.

Fixpoint MatchString (r : regex) (s : string) : bool :=
  match s with
  | EmptyString => nullable r
  | String c t => MatchString (deriv c r) t
  end.

Definition lowerOrDigit (c : ascii) : bool := isLower c || isDigit c.

(** [\s] of RE2 is [[\t\n\f\r ]]. *)
Definition reSpace (c : ascii) : bool :=
  ((code c =? 9) || (code c =? 10) || (code c =? 12) || (code c =? 13)
   || (code c =? 32))%N.

Definition notColonSpace (c : ascii) : bool :=
  negb (Ascii.eqb c ":"%char) && negb (reSpace c).

(** The range test that every port check applies to the parsed
    number: [port <= 0 || port >= 65536] (lines 315, 365, 730, 791). *)
Definition portOutOfRange (port : Z) : bool := (port <=? 0) || (port >=? 65536).

(** * The accumulate-all program (first [package main]) *)

Module Acc.

(** [Validator], with the standard output it prints to: one entry per
    printed line. *)
Record Validator := mkValidator { file : string; errs : Z }.

Record Run := mkRun { vd : Validator; stdout : list string }.

Definition action := Run -> Run.

Definition skip : action := fun s => s.

Definition seq (a b : action) : action := fun s => b (a s).

Notation "a >> b" := (seq a b) (at level 62, right associativity).

(** [Validator.fail]: lines 20-23; [msg] is the formatted message. *)
Definition fail (line : Z) (msg : string) : action := fun s =>
  {| vd := {| file := file (vd s); errs := errs (vd s) + 1 |};
     stdout := stdout s ++ [file (vd s) +:+ ":" +:+ itoa line +:+ " " +:+ msg] |}.

(** [mapify]: lines 36-49. *)
Fixpoint mapify_loop (c : list Node) (res : gmap string Node) : gmap string Node :=
  match c with
  | k :: v :: rest =>
      mapify_loop rest (if isScalar k then <[Value k := v]> res else res)
  | _ => res
  end.

Definition mapify (n : Node) : gmap string Node :=
  if negb (isMapping n) then ∅ else mapify_loop (Content n) ∅.

(** [Validator.requiredField]: lines 25-33. *)
Definition requiredField (node : Node) (field : string) (s : Run) : option Node * Run :=
  match mapify node !! field with
  | None => (None, fail (Line node) (field +:+ " is required") s)
  | Some val => (Some val, s)
  end.

(** [isInt], [isString]: lines 51-61. *)
Definition isInt (node : Node) : bool :=
  if negb (String.eqb (Tag node) "!!int") then false
  else atoiOk (Value node).

Definition isString (node : Node) : bool := String.eqb (Tag node) "!!str".

(** The package-level patterns and tables: lines 63-70. *)
Definition reSnake : regex :=
  RCat (RPlus (RClass lowerOrDigit))
       (RStar (RCat (RChar "_") (RPlus (RClass lowerOrDigit)))).

Definition reImage : regex :=
  RCat (RLit "registry.bigbrother.io/")
       (RCat (RPlus (RClass notColonSpace))
             (RCat (RChar ":") (RPlus (RClass notColonSpace)))).

Definition reMem : regex :=
  RCat (RPlus (RClass isDigit)) (RAlt (RLit "Gi") (RAlt (RLit "Mi") (RLit "Ki"))).

Definition reAbs : regex := RCat (RChar "/") (RStar (RClass (fun _ => true))).

Definition validOS : gmap string bool := <["linux" := true]> (<["windows" := true]> ∅).
Definition validPro : gmap string bool := <["TCP" := true]> (<["UDP" := true]> ∅).

(** Indexing a [map[string]bool]: the zero value for a missing key. *)
Definition index (m : gmap string bool) (k : string) : bool := default false (m !! k).

(** [for _, x := range xs { f(x) }]. *)
Fixpoint forEach (f : Node -> action) (xs : list Node) : action :=
  match xs with
  | [] => skip
  | x :: rest => f x >> forEach f rest
  end.

(** [validateMetadata]: lines 154-196. *)
Fixpoint labelsLoop (c : list Node) : action :=
  match c with
  | k :: val :: rest =>
      (if negb (String.eqb (Tag k) "!!str")
       then fail (Line k) "labels key must be string" else skip) >>
      (if negb (String.eqb (Tag val) "!!str")
       then fail (Line val) "labels value must be string" else skip) >>
      labelsLoop rest
  | _ => skip
  end.

Definition validateMetadata (node : Node) : action :=
  if negb (isMapping node) then fail (Line node) "metadata must be object"
  else
    let m := mapify node in
    (match m !! "name" with
     | None => fail (Line node) "name is required"
     | Some nm =>
         if negb (isString nm) then fail (Line nm) "name must be string"
         else if trimsToEmpty (Value nm) then fail (Line nm) "name is required"
         else skip
     end) >>
    (match m !! "namespace" with
     | Some ns =>
         if negb (isString ns) then fail (Line ns) "namespace must be string"
         else skip
     | None => skip
     end) >>
    (match m !! "labels" with
     | Some lbs =>
         if negb (isMapping lbs) then fail (Line lbs) "labels must be object"
         else labelsLoop (Content lbs)
     | None => skip
     end).

(** [validatePort]: lines 301-327; the [containerPort] block (308-318)
    and the [protocol] block (320-326) are named apart. *)
Definition validatePort_containerPort (node : Node) (m : gmap string Node) : action :=
  match m !! "containerPort" with
  | None => fail (Line node) "containerPort is required"
  | Some cp =>
      if negb (isInt cp) then fail (Line cp) "containerPort must be int"
      else
        let port := fst (Atoi (Value cp)) in
        if portOutOfRange port
        then fail (Line cp) "containerPort value out of range"
        else skip
  end.

Definition validatePort_protocol (m : gmap string Node) : action :=
  match m !! "protocol" with
  | Some proto =>
      if negb (isString proto) then fail (Line proto) "protocol must be string"
      else if negb (index validPro (Value proto))
      then fail (Line proto)
             ("protocol has unsupported value '" +:+ Value proto +:+ "'")
      else skip
  | None => skip
  end.

Definition validatePort (node : Node) : action :=
  if negb (isMapping node) then fail (Line node) "ports item must be object"
  else
    let m := mapify node in
    validatePort_containerPort node m >> validatePort_protocol m.

(** [validateProbe]: lines 330-369; the [path] block (349-356) and the
    [port] block (358-368) are named apart. *)
Definition validateProbe_path (hg : Node) (obj : gmap string Node) : action :=
  match obj !! "path" with
  | None => fail (Line hg) "path is required"
  | Some p =>
      if negb (isString p) then fail (Line p) "path must be string"
      else if negb (MatchString reAbs (Value p))
      then fail (Line p) ("path has invalid format '" +:+ Value p +:+ "'")
      else skip
  end.

Definition validateProbe_port (hg : Node) (obj : gmap string Node) : action :=
  match obj !! "port" with
  | None => fail (Line hg) "port is required"
  | Some prt =>
      if negb (isInt prt) then fail (Line prt) "port must be int"
      else
        let x := fst (Atoi (Value prt)) in
        if portOutOfRange x
        then fail (Line prt) "port value out of range"
        else skip
  end.

Definition validateProbe (node : Node) : action :=
  if negb (isMapping node) then fail (Line node) "readinessProbe must be object"
  else
    let m := mapify node in
    match m !! "httpGet" with
    | None => fail (Line node) "httpGet is required"
    | Some hg =>
        if negb (isMapping hg) then fail (Line hg) "httpGet must be object"
        else
          let obj := mapify hg in
          validateProbe_path hg obj >> validateProbe_port hg obj
    end.

(** [validateResKV], [validateResources]: lines 372-406. *)
Definition validateResKV (name : string) (node : Node) : action :=
  if negb (isMapping node) then fail (Line node) (name +:+ " must be object")
  else
    let m := mapify node in
    (match m !! "cpu" with
     | Some cpu => if negb (isInt cpu) then fail (Line cpu) "cpu must be int" else skip
     | None => skip
     end) >>
    (match m !! "memory" with
     | Some mem =>
         if negb (isString mem) then fail (Line mem) "memory must be string"
         else if negb (MatchString reMem (Value mem))
         then fail (Line mem) ("memory has invalid format '" +:+ Value mem +:+ "'")
         else skip
     | None => skip
     end).

Definition validateResources (node : Node) : action :=
  if negb (isMapping node) then fail (Line node) "resources must be object"
  else
    let m := mapify node in
    (match m !! "limits" with
     | Some lim => validateResKV "limits" lim
     | None => skip
     end) >>
    (match m !! "requests" with
     | Some req => validateResKV "requests" req
     | None => skip
     end).

(** [validateContainer]: lines 245-298. *)
Definition validateContainer (node : Node) : action :=
  if negb (isMapping node) then fail (Line node) "container must be object"
  else
    let m := mapify node in
    (match m !! "name" with
     | None => fail (Line node) "name is required"
     | Some nm =>
         if negb (isString nm) then fail (Line nm) "name must be string"
         else if negb (MatchString reSnake (Value nm))
         then fail (Line nm) ("name has invalid format '" +:+ Value nm +:+ "'")
         else skip
     end) >>
    (match m !! "image" with
     | None => fail (Line node) "image is required"
     | Some img =>
         if negb (isString img) then fail (Line img) "image must be string"
         else if negb (MatchString reImage (Value img))
         then fail (Line img) ("image has invalid format '" +:+ Value img +:+ "'")
         else skip
     end) >>
    (match m !! "ports" with
     | Some prt =>
         if negb (isSequence prt) then fail (Line prt) "ports must be array"
         else forEach validatePort (Content prt)
     | None => skip
     end) >>
    (match m !! "readinessProbe" with
     | Some rp => validateProbe rp
     | None => skip
     end) >>
    (match m !! "livenessProbe" with
     | Some lp => validateProbe lp
     | None => skip
     end) >>
    (match m !! "resources" with
     | None => fail (Line node) "resources is required"
     | Some res => validateResources res
     end).

(** [validateSpec]: lines 199-242.  The [os] block (207-226) and the
    [containers] block (229-241) are named apart. *)
Definition validateSpec_os (m : gmap string Node) : action :=
  match m !! "os" with
  | Some osn =>
      match NKind osn with
      | ScalarNode =>
          if negb (index validOS (Value osn))
          then fail (Line osn) ("os has unsupported value '" +:+ Value osn +:+ "'")
          else skip
      | MappingNode =>
          let obj := mapify osn in
          match obj !! "name" with
          | None => fail (Line osn) "name is required"
          | Some n =>
              if negb (isString n) then fail (Line n) "name must be string"
              else if negb (index validOS (Value n))
              then fail (Line n) ("name has unsupported value '" +:+ Value n +:+ "'")
              else skip
          end
      | _ => fail (Line osn) "os must be string or object"
      end
  | None => skip
  end.

Definition validateSpec_containers (node : Node) (m : gmap string Node) : action :=
  match m !! "containers" with
  | None => fail (Line node) "containers is required"
  | Some cn =>
      if negb (isSequence cn) then fail (Line cn) "containers must be array"
      else forEach validateContainer (Content cn)
  end.

Definition validateSpec (node : Node) : action :=
  if negb (isMapping node) then fail (Line node) "spec must be object"
  else
    let m := mapify node in
    validateSpec_os m >> validateSpec_containers node m.

(** [validateRoot]: lines 101-151. *)
Definition validateRoot (root : Node) : action :=
  let doc :=
    match NKind root, Content root with
    | DocumentNode, d :: _ => d
    | _, _ => root
    end in
  if negb (isMapping doc) then fail (Line doc) "top-level must be a mapping"
  else
    let m := mapify doc in
    (match m !! "apiVersion" with
     | None => fail (Line doc) "apiVersion is required"
     | Some api =>
         if negb (isString api) then fail (Line api) "apiVersion must be string"
         else if negb (String.eqb (Value api) "v1")
         then fail (Line api)
                ("apiVersion has unsupported value '" +:+ Value api +:+ "'")
         else skip
     end) >>
    (match m !! "kind" with
     | None => fail (Line doc) "kind is required"
     | Some kd =>
         if negb (isString kd) then fail (Line kd) "kind must be string"
         else if negb (String.eqb (Value kd) "Pod")
         then fail (Line kd) ("kind has unsupported value '" +:+ Value kd +:+ "'")
         else skip
     end) >>
    (match m !! "metadata" with
     | None => fail (Line doc) "metadata is required"
     | Some meta => validateMetadata meta
     end) >>
    (match m !! "spec" with
     | None => fail (Line doc) "spec is required"
     | Some spec => validateSpec spec
     end).

(** [main] from line 92 on, once the file is read and parsed into
    [root]: the printed lines and the exit status. *)
Definition main (base : string) (root : Node) : list string * Z :=
  let v := validateRoot root {| vd := {| file := base; errs := 0 |}; stdout := [] |} in
  (stdout v, if errs (vd v) >? 0 then 1 else 0).

End Acc.

(** * The fail-fast program (second [package main]) *)

Module FF.

(** [validationError]: lines 418-421; [line] is [None] for the nil
    pointer ("line unknown").  An [error] is [None] for [nil]. *)
Record validationError := mkError { line : option Z; msg : string }.

Definition error := option validationError.

Definition atLine (n : Node) (m : string) : outcome error :=
  Ret (Some {| line := Some (Line n); msg := m |}).

Definition noLine (m : string) : outcome error :=
  Ret (Some {| line := None; msg := m |}).

(** [if err := f(); err != nil { return err }] followed by [k]. *)
Definition andThen (m k : outcome error) : outcome error :=
  match m with
  | Ret None => k
  | Ret (Some e) => Ret (Some e)
  | Panic => Panic
  end.

Notation "a >> b" := (andThen a b) (at level 62, right associativity).
Notation "'let!' x ':=' m 'in' k" := (obind m (fun x => k))
  (at level 10, x name, m at level 100, k at level 200).

(** [getMapValue]: lines 863-875.  [None] is the [nil, false] return;
    [m.Content[i+1]] panics on a dangling last key. *)
Fixpoint getMapValue_loop (c : list Node) (key : string) : outcome (option Node) :=
  match c with
  | [] => Ret None
  | [k] => Panic
  | k :: v :: rest =>
      if String.eqb (Value k) key then Ret (Some v)
      else getMapValue_loop rest key
  end.

Definition getMapValue (m : Node) (key : string) : outcome (option Node) :=
  if negb (isMapping m) then Ret None else getMapValue_loop (Content m) key.

(** [ensureString], [ensureInt]: lines 877-901. *)
Definition ensureString (node : Node) (field : string) : error :=
  if negb (isScalar node) || negb (String.eqb (Tag node) "!!str")
  then Some {| line := Some (Line node); msg := field +:+ " must be string" |}
  else None.

Definition ensureInt (node : Node) (field : string) : error :=
  if negb (isScalar node) || negb (String.eqb (Tag node) "!!int")
  then Some {| line := Some (Line node); msg := field +:+ " must be int" |}
  else if negb (atoiOk (Value node))
  then Some {| line := Some (Line node); msg := field +:+ " must be int" |}
  else None.

(** [isSnakeCase]: lines 903-917.  [i] is the byte offset of the rune
    and [n] is [len(s)]; a byte outside ASCII falls to [default]. *)
Fixpoint isSnakeCase_loop (s : string) (i n : Z) : bool :=
  match s with
  | EmptyString => true
  | String r rest =>
      if isLower r then isSnakeCase_loop rest (i + 1) n
      else if isDigit r then isSnakeCase_loop rest (i + 1) n
      else if Ascii.eqb r "_" && negb (i =? 0) && negb (i =? n - 1)
      then isSnakeCase_loop rest (i + 1) n
      else false
  end.

Definition isSnakeCase (s : string) : bool :=
  if String.eqb s "" then false else isSnakeCase_loop s 0 (len s).

(** [validateImage]: lines 919-936. *)
Definition validateImage (node : Node) : outcome error :=
  let val := Value node in
  if negb (HasPrefix val "registry.bigbrother.io/")
  then atLine node ("image has invalid format '" +:+ val +:+ "'")
  else
    let slash := LastIndex val "/" in
    let colon := LastIndex val ":" in
    if (colon =? -1) || (colon <? slash + 1) || (colon =? len val - 1)
    then atLine node ("image has invalid format '" +:+ val +:+ "'")
    else Ret None.

(** [isValidMemory]: lines 938-953. *)
Definition isValidMemory (s : string) : bool :=
  if len s <? 3 then false
  else
    let unit := substring (String.length s - 2) 2 s in
    if negb (String.eqb unit "Gi") && negb (String.eqb unit "Mi")
       && negb (String.eqb unit "Ki")
    then false
    else
      let numPart := substring 0 (String.length s - 2) s in
      if String.eqb numPart "" then false
      else atoiOk numPart.

(** [validateResourceMap]: lines 833-859. *)
Fixpoint validateResourceMap_loop (c : list Node) : outcome error :=
  match c with
  | [] => Ret None
  | [k] => Panic
  | k :: v :: rest =>
      (if String.eqb (Value k) "cpu" then Ret (ensureInt v "cpu")
       else if String.eqb (Value k) "memory" then
         Ret (ensureString v "memory") >>
         (if negb (isValidMemory (Value v))
          then atLine v ("memory has invalid format '" +:+ Value v +:+ "'")
          else Ret None)
       else Ret None) >>
      validateResourceMap_loop rest
  end.

Definition validateResourceMap (node : Node) : outcome error :=
  validateResourceMap_loop (Content node).

(** [validateResources]: lines 803-831. *)
Definition validateResources (node : Node) : outcome error :=
  (let! r := getMapValue node "limits" in
   match r with
   | Some limitsNode =>
       if negb (isMapping limitsNode) then atLine limitsNode "limits must be object"
       else validateResourceMap limitsNode
   | None => Ret None
   end) >>
  (let! r := getMapValue node "requests" in
   match r with
   | Some reqNode =>
       if negb (isMapping reqNode) then atLine reqNode "requests must be object"
       else validateResourceMap reqNode
   | None => Ret None
   end).

(** [validateProbe]: lines 755-799; the [port] part (782-798) is
    named apart. *)
Definition validateProbe_port (httpNode : Node) : outcome error :=
  let! r := getMapValue httpNode "port" in
  match r with
  | None => noLine "port is required"
  | Some portNode =>
      Ret (ensureInt portNode "port") >>
      (let portVal := fst (Atoi (Value portNode)) in
       if portOutOfRange portVal
       then atLine portNode "port value out of range"
       else Ret None)
  end.

Definition validateProbe (node : Node) : outcome error :=
  let! r := getMapValue node "httpGet" in
  match r with
  | None => noLine "httpGet is required"
  | Some httpNode =>
      if negb (isMapping httpNode) then atLine httpNode "httpGet must be object"
      else
        let! r := getMapValue httpNode "path" in
        match r with
        | None => noLine "path is required"
        | Some pathNode =>
            Ret (ensureString pathNode "path") >>
            (if negb (HasPrefix (Value pathNode) "/")
             then atLine pathNode
                    ("path has invalid format '" +:+ Value pathNode +:+ "'")
             else validateProbe_port httpNode)
        end
  end.

(** [validateContainerPort]: lines 720-751; the [protocol] part
    (737-750) is named apart. *)
Definition validateContainerPort_protocol (node : Node) : outcome error :=
  let! r := getMapValue node "protocol" in
  match r with
  | Some protoNode =>
      Ret (ensureString protoNode "protocol") >>
      (if negb (String.eqb (Value protoNode) "TCP")
          && negb (String.eqb (Value protoNode) "UDP")
       then atLine protoNode
              ("protocol has unsupported value '" +:+ Value protoNode +:+ "'")
       else Ret None)
  | None => Ret None
  end.

Definition validateContainerPort (node : Node) : outcome error :=
  let! r := getMapValue node "containerPort" in
  match r with
  | None => noLine "containerPort is required"
  | Some cpNode =>
      Ret (ensureInt cpNode "containerPort") >>
      (let val := fst (Atoi (Value cpNode)) in
       if portOutOfRange val
       then atLine cpNode "containerPort value out of range"
       else validateContainerPort_protocol node)
  end.

(** [validateContainer]: lines 625-716. *)
Fixpoint portsLoop (ps : list Node) : outcome error :=
  match ps with
  | [] => Ret None
  | p :: rest =>
      if negb (isMapping p) then atLine p "ports must be object"
      else validateContainerPort p >> portsLoop rest
  end.

Definition validateContainer (node : Node) : outcome error :=
  let! r := getMapValue node "name" in
  match r with
  | None => noLine "name is required"
  | Some nameNode =>
      Ret (ensureString nameNode "name") >>
      (if negb (isSnakeCase (Value nameNode))
       then atLine nameNode ("name has invalid format '" +:+ Value nameNode +:+ "'")
       else
         let! r := getMapValue node "image" in
         match r with
         | None => noLine "image is required"
         | Some imageNode =>
             Ret (ensureString imageNode "image") >>
             validateImage imageNode >>
             (let! r := getMapValue node "ports" in
              match r with
              | Some portsNode =>
                  if negb (isSequence portsNode)
                  then atLine portsNode "ports must be array"
                  else portsLoop (Content portsNode)
              | None => Ret None
              end) >>
             (let! r := getMapValue node "readinessProbe" in
              match r with
              | Some rpNode =>
                  if negb (isMapping rpNode)
                  then atLine rpNode "readinessProbe must be object"
                  else validateProbe rpNode
              | None => Ret None
              end) >>
             (let! r := getMapValue node "livenessProbe" in
              match r with
              | Some lpNode =>
                  if negb (isMapping lpNode)
                  then atLine lpNode "livenessProbe must be object"
                  else validateProbe lpNode
              | None => Ret None
              end) >>
             (let! r := getMapValue node "resources" in
              match r with
              | None => noLine "resources is required"
              | Some resNode =>
                  if negb (isMapping resNode)
                  then atLine resNode "resources must be object"
                  else validateResources resNode
              end)
         end)
  end.

(** [validateSpec]: lines 575-621. *)
Fixpoint containersLoop (cs : list Node) : outcome error :=
  match cs with
  | [] => Ret None
  | c :: rest =>
      if negb (isMapping c) then atLine c "container must be object"
      else validateContainer c >> containersLoop rest
  end.

Definition validateSpec_os (node : Node) : outcome error :=
  let! r := getMapValue node "os" in
  match r with
  | Some osNode =>
      Ret (ensureString osNode "os") >>
      (if negb (String.eqb (Value osNode) "linux")
          && negb (String.eqb (Value osNode) "windows")
       then atLine osNode ("os has unsupported value '" +:+ Value osNode +:+ "'")
       else Ret None)
  | None => Ret None
  end.

Definition validateSpec_containers (node : Node) : outcome error :=
  let! r := getMapValue node "containers" in
  match r with
  | None => noLine "containers is required"
  | Some containersNode =>
      if negb (isSequence containersNode)
      then atLine containersNode "containers must be array"
      else if (Z.of_nat (length (Content containersNode)) =? 0)
      then atLine containersNode "containers value out of range"
      else containersLoop (Content containersNode)
  end.

Definition validateSpec (node : Node) : outcome error :=
  validateSpec_os node >> validateSpec_containers node.

(** [validateMetadata]: lines 541-571. *)
Definition validateMetadata (node : Node) : outcome error :=
  let! r := getMapValue node "name" in
  match r with
  | None => noLine "name is required"
  | Some nameNode =>
      Ret (ensureString nameNode "name") >>
      (let! r := getMapValue node "namespace" in
       match r with
       | Some nsNode => Ret (ensureString nsNode "namespace")
       | None => Ret None
       end) >>
      (let! r := getMapValue node "labels" in
       match r with
       | Some labelsNode =>
           if negb (isMapping labelsNode)
           then atLine labelsNode "labels must be object"
           else Ret None
       | None => Ret None
       end)
  end.

(** [validatePod]: lines 470-537. *)
Definition validatePod (doc : Node) : outcome error :=
  if negb (isMapping doc) then atLine doc "root must be object"
  else
    let! r := getMapValue doc "apiVersion" in
    match r with
    | None => noLine "apiVersion is required"
    | Some apiVerNode =>
        Ret (ensureString apiVerNode "apiVersion") >>
        (if negb (String.eqb (Value apiVerNode) "v1")
         then atLine apiVerNode
                ("apiVersion has unsupported value '" +:+ Value apiVerNode +:+ "'")
         else
           let! r := getMapValue doc "kind" in
           match r with
           | None => noLine "kind is required"
           | Some kindNode =>
               Ret (ensureString kindNode "kind") >>
               (if negb (String.eqb (Value kindNode) "Pod")
                then atLine kindNode
                       ("kind has unsupported value '" +:+ Value kindNode +:+ "'")
                else
                  let! r := getMapValue doc "metadata" in
                  match r with
                  | None => noLine "metadata is required"
                  | Some metaNode =>
                      if negb (isMapping metaNode)
                      then atLine metaNode "metadata must be object"
                      else
                        validateMetadata metaNode >>
                        (let! r := getMapValue doc "spec" in
                         match r with
                         | None => noLine "spec is required"
                         | Some specNode =>
                             if negb (isMapping specNode)
                             then atLine specNode "spec must be object"
                             else validateSpec specNode
                         end)
                  end)
           end)
    end.

(** [run] from line 462 on, once the file is read and parsed. *)
Definition run (root : Node) : outcome error :=
  match Content root with
  | [] => noLine "apiVersion is required"
  | doc :: _ => validatePod doc
  end.

(** [main]: lines 434-446; what is written to the standard error for
    a violation, and the exit status. *)
Definition render (path : string) (e : validationError) : string :=
  match line e with
  | Some l => path +:+ ":" +:+ itoa l +:+ " " +:+ msg e
  | None => path +:+ ": " +:+ msg e
  end.

Definition main (path : string) (root : Node) : outcome (list string * Z) :=
  let! err := run root in
  match err with
  | Some e => Ret ([render path e], 1)
  | None => Ret ([], 0)
  end.

End FF.

(** * The wording of the specification *)

(** Section 4.1: absent for a non-mapping, otherwise the value paired
    with the first scalar key equal to [key]. *)
Definition scalarKeyIs (key : string) (kv : Node * Node) : bool :=
  isScalar (fst kv) && String.eqb (Value (fst kv)) key.

Definition keyValueIs (key : string) (kv : Node * Node) : bool :=
  String.eqb (Value (fst kv)) key.

Definition spec_field (n : Node) (key : string) : option Node :=
  if isMapping n
  then head (map snd (List.filter (scalarKeyIs key) (pairs (Content n))))
  else None.

(** * Sample documents *)

Definition scalar (l : Z) (tag v : string) : Node := mkNode ScalarNode tag v [] l.
Definition str (l : Z) (v : string) : Node := scalar l "!!str" v.
Definition int (l : Z) (v : string) : Node := scalar l "!!int" v.
Definition mapping (l : Z) (c : list Node) : Node := mkNode MappingNode "!!map" "" c l.
Definition sequence (l : Z) (c : list Node) : Node := mkNode SequenceNode "!!seq" "" c l.
Definition document (d : Node) : Node := mkNode DocumentNode "" "" [d] 1.

(** [{name: first, name: second}] *)
Definition dupKeys : Node :=
  mapping 1 [str 1 "name"; str 1 "first"; str 2 "name"; str 2 "second"].

(** A mapping whose first key is the alias [*name] and whose second
    key is the scalar [name]. *)
Definition aliasKey : Node :=
  mapping 2 [mkNode AliasNode "" "name" [] 2; str 2 "first";
             str 3 "name"; str 3 "second"].

(** A ports item [{containerPort: v}] on line 9. *)
Definition portItem (v : string) : Node :=
  mapping 9 [str 9 "containerPort"; int 9 v].

(** [httpGet: {path: /health, port: v}] as the value of a probe. *)
Definition httpGetOf (v : string) : Node :=
  mapping 11 [str 11 "path"; str 11 "/health"; str 12 "port"; int 12 v].

Definition probeOf (v : string) : Node :=
  mapping 10 [str 10 "httpGet"; httpGetOf v].

(** * Notions used to state the properties *)

(** A message of the form "<field> is required". *)
Definition absenceMsg (m : string) : Prop := exists field, m = field +:+ " is required".

(** [sub n r]: [n] is [r] or lies below it in the tree. *)
Inductive sub : Node -> Node -> Prop :=
  | sub_refl n : sub n n
  | sub_child n p r : In n (Content p) -> sub p r -> sub n r.

(** What [Acc.fail] prints for a violation at [l] with message [m]. *)
Definition printed (f : string) (v : Z * string) : string :=
  f +:+ ":" +:+ itoa (fst v) +:+ " " +:+ snd v.

(** The effect of a run of [Acc.fail] calls, one per violation. *)
Definition emitAll (vs : list (Z * string)) : Acc.action := fun s =>
  {| Acc.vd := {| Acc.file := Acc.file (Acc.vd s);
                  Acc.errs := Acc.errs (Acc.vd s) + Z.of_nat (length vs) |};
     Acc.stdout := Acc.stdout s ++ map (printed (Acc.file (Acc.vd s))) vs |}.

(** The state a validator for file [f] starts from, and the lines an
    action prints from there. *)
Definition start (f : string) : Acc.Run :=
  {| Acc.vd := {| Acc.file := f; Acc.errs := 0 |}; Acc.stdout := [] |}.

Definition lines (a : Acc.action) (f : string) : list string := Acc.stdout (a (start f)).

(** An action that behaves on every state as the [Acc.fail] calls for
    some violations that all satisfy [P]. *)
Definition reportsP (P : Z -> string -> Prop) (a : Acc.action) : Prop :=
  exists vs, Forall (fun v => P (fst v) (snd v)) vs /\ forall s, a s = emitAll vs s.

(** What an accumulate-all violation says about the document [r]: its
    line is the one of a node [n] of the document, and when the message
    is an absence message, [n] is the parent that lacks the field (or
    the message is the "name is required" of a blank metadata name). *)
Definition lineIn (r : Node) (l : Z) (m : string) : Prop :=
  exists n,
    sub n r /\ l = Line n
    /\ (absenceMsg m ->
        exists field,
          m = field +:+ " is required"
          /\ (Acc.mapify n !! field = None
              \/ (field = "name" /\ Acc.isString n = true
                  /\ trimsToEmpty (Value n) = true))).

(** A container with every required field, a readiness probe and
    resource limits (lines 8-17 of a manifest). *)
Definition goodContainer : Node :=
  mapping 8
    [str 8 "name"; str 8 "web_1";
     str 9 "image"; str 9 "registry.bigbrother.io/app:1.0";
     str 10 "readinessProbe";
     mapping 11 [str 11 "httpGet";
                 mapping 12 [str 12 "path"; str 12 "/health";
                             str 13 "port"; int 13 "8080"]];
     str 14 "resources";
     mapping 15 [str 15 "limits";
                 mapping 16 [str 16 "cpu"; int 16 "2";
                             str 17 "memory"; str 17 "512Mi"]]].

(** A container that lacks everything, on line 7. *)
Definition emptyContainer : Node := mapping 7 [].

(** A manifest with the given fields below [spec] (on line 6). *)
Definition podWith (specFields : list Node) : Node :=
  document
    (mapping 1
       [str 1 "apiVersion"; str 1 "v1";
        str 2 "kind"; str 2 "Pod";
        str 3 "metadata"; mapping 4 [str 4 "name"; str 4 "demo"];
        str 5 "spec"; mapping 6 specFields]).

Definition specOf (cs : list Node) : Node :=
  mapping 6 [str 6 "containers"; sequence 7 cs].

(** A container whose [livenessProbe] is the scalar [yes] on line 10. *)
Definition livenessScalar : Node :=
  mapping 8
    [str 8 "name"; str 8 "web_1";
     str 9 "image"; str 9 "registry.bigbrother.io/app:1.0";
     str 10 "livenessProbe"; str 10 "yes";
     str 11 "resources"; mapping 11 []].

Fixpoint lastChar (s : string) : option ascii :=
  match s with
  | EmptyString => None
  | String c EmptyString => Some c
  | String _ r => lastChar r
  end.

(** Manifests for the cases below. *)
Definition emptyContainersPod : Node := podWith [str 6 "containers"; sequence 6 []].

Definition osMappingPod : Node :=
  podWith [str 6 "os"; mapping 6 [str 6 "name"; str 6 "linux"];
           str 7 "containers"; sequence 8 [goodContainer]].

Definition kindOnly : Node := mapping 1 [str 1 "kind"; str 1 "Pod"].

Definition noApiVersionPod : Node := document kindOnly.

(** A valid manifest but for the container [name] and the [memory]
    limit given. *)
Definition podNamed (name memory : string) : Node :=
  podWith
    [str 6 "containers";
     sequence 7
       [mapping 8
          [str 8 "name"; str 8 name;
           str 9 "image"; str 9 "registry.bigbrother.io/app:1.0";
           str 10 "resources";
           mapping 11 [str 11 "limits";
                       mapping 12 [str 12 "memory"; str 12 memory]]]]].

(** * Notions used for further properties of the code *)

(** Every mapping at or below [n] has an even number of children, as
    in every tree the YAML parser builds. *)
Fixpoint evenMappings (n : Node) : bool :=
  match n with
  | mkNode k _ _ c _ =>
      (if bool_decide (k = MappingNode) then Nat.even (length c) else true)
      && forallb evenMappings c
  end.

(** The key of a pair, as the accessors compare it. *)
Definition keyOf (kv : Node * Node) : string := Value (fst kv).


(** The check the fail-fast loops apply to one element: of the
    [containers] sequence (lines 609-617) and of a [ports] sequence
    (lines 662-670). *)
Definition containerCheck (c : Node) : outcome FF.error :=
  if negb (isMapping c) then FF.atLine c "container must be object"
  else FF.validateContainer c.

Definition portCheck (p : Node) : outcome FF.error :=
  if negb (isMapping p) then FF.atLine p "ports must be object"
  else FF.validateContainerPort p.

(** What the fail-fast program asks of one entry of a [limits] or
    [requests] mapping (lines 838-856): a [cpu] value passes the
    integer check, a [memory] value is a string in the memory format,
    any other key is not looked at. *)
Definition resourceEntryOk (kv : Node * Node) : Prop :=
  (keyOf kv = "cpu" -> FF.ensureInt (snd kv) "cpu" = None)
  /\ (keyOf kv = "memory" ->
      FF.ensureString (snd kv) "memory" = None
      /\ FF.isValidMemory (Value (snd kv)) = true).


(** The strings a pattern denotes. *)
Inductive lang : regex -> string -> Prop :=
  | lang_eps : lang REps ""
  | lang_class p c : p c = true -> lang (RClass p) (String c "")
  | lang_cat a b s t : lang a s -> lang b t -> lang (RCat a b) (s +:+ t)
  | lang_alt_l a b s : lang a s -> lang (RAlt a b) s
  | lang_alt_r a b s : lang b s -> lang (RAlt a b) s
  | lang_star_nil a : lang (RStar a) ""
  | lang_star_cons a s t : lang a s -> lang (RStar a) t -> lang (RStar a) (s +:+ t).

(** Every byte of [s] satisfies [p]. *)
Fixpoint allChars (p : ascii -> bool) (s : string) : bool :=
  match s with
  | EmptyString => true
  | String c r => p c && allChars p r
  end.

(** The bytes a snake_case name is made of. *)
Definition snakeChar (c : ascii) : bool := lowerOrDigit c || Ascii.eqb c "_".

(** No two consecutive underscores. *)
Fixpoint noDoubleUnderscore (s : string) : bool :=
  match s with
  | String a r =>
      match r with
      | String b _ => negb (Ascii.eqb a "_" && Ascii.eqb b "_")
      | EmptyString => true
      end && noDoubleUnderscore r
  | EmptyString => true
  end.

(** A left-to-right scan for blocks of [a-z0-9] separated by single
    underscores; [inBlock] tells that the previous byte was of a block. *)
Fixpoint snakeScan (inBlock : bool) (s : string) : bool :=
  match s with
  | EmptyString => inBlock
  | String c r =>
      if lowerOrDigit c then snakeScan true r
      else if Ascii.eqb c "_" && inBlock then snakeScan false r
      else false
  end.


(** The node [validateRoot] validates: the first child of a document
    node, or the node itself (lines 102-107). *)
Definition docOf (root : Node) : Node :=
  match NKind root, Content root with
  | DocumentNode, d :: _ => d
  | _, _ => root
  end.

(** * The schema of a manifest, and what a violation is about *)

(** The mappings of a manifest that have fields of their own (section
    3 of the specification); [EOsObject] is the object form of [os],
    [EQuantities] a [limits] or [requests] mapping. *)
Inductive entity :=
  | EDoc | EMetadata | ELabels | ESpec | EOsObject | EContainer | EPort
  | EProbe | EHttpGet | EResources | EQuantities.

(** The fields that must be present in an entity.  ([ELabels] and
    [EOsObject] are entities of the accumulate-all reading only: the
    fail-fast program does not look into [labels], and takes [os] for
    a string.) *)
Definition required (e : entity) : list string :=
  match e with
  | EDoc => ["apiVersion"; "kind"; "metadata"; "spec"]
  | EMetadata => ["name"]
  | ESpec => ["containers"]
  | EOsObject => ["name"]
  | EContainer => ["name"; "image"; "resources"]
  | EPort => ["containerPort"]
  | EProbe => ["httpGet"]
  | EHttpGet => ["path"; "port"]
  | ELabels | EResources | EQuantities => []
  end.

(** What the value of a field is asked to be. *)
Inductive rule :=
  | RString
  | RNonBlank
  | REnum (allowed : list string)
  | RFormat (ok : string -> bool)
  | RInt
  | RPort
  | RObject
  | RArray
  | RNonEmptyArray
  | RStringOrObject (allowed : list string).

Definition oneOf (allowed : list string) (v : string) : bool :=
  existsb (String.eqb v) allowed.

(** The message for a value [n] that breaks its rule, [None] for a
    value that keeps it.  [strOk] and [intOk] are a program's tests for
    "is a string" and "is an integer"; [label] is the name the message
    gives to the field. *)
Section Fault.
Variables strOk intOk : Node -> bool.

Definition fault (label : string) (r : rule) (n : Node) : option string :=
  match r with
  | RString =>
      if negb (strOk n) then Some (label +:+ " must be string") else None
  | RNonBlank =>
      if negb (strOk n) then Some (label +:+ " must be string")
      else if trimsToEmpty (Value n) then Some (label +:+ " is required")
      else None
  | REnum allowed =>
      if negb (strOk n) then Some (label +:+ " must be string")
      else if negb (oneOf allowed (Value n))
      then Some (label +:+ " has unsupported value '" +:+ Value n +:+ "'")
      else None
  | RFormat ok =>
      if negb (strOk n) then Some (label +:+ " must be string")
      else if negb (ok (Value n))
      then Some (label +:+ " has invalid format '" +:+ Value n +:+ "'")
      else None
  | RInt =>
      if negb (intOk n) then Some (label +:+ " must be int") else None
  | RPort =>
      if negb (intOk n) then Some (label +:+ " must be int")
      else if portOutOfRange (fst (Atoi (Value n)))
      then Some (label +:+ " value out of range")
      else None
  | RObject =>
      if negb (isMapping n) then Some (label +:+ " must be object") else None
  | RArray =>
      if negb (isSequence n) then Some (label +:+ " must be array") else None
  | RNonEmptyArray =>
      if negb (isSequence n) then Some (label +:+ " must be array")
      else match Content n with
           | [] => Some (label +:+ " value out of range")
           | _ :: _ => None
           end
  | RStringOrObject allowed =>
      match NKind n with
      | ScalarNode =>
          if negb (oneOf allowed (Value n))
          then Some (label +:+ " has unsupported value '" +:+ Value n +:+ "'")
          else None
      | MappingNode => None
      | _ => Some (label +:+ " must be string or object")
      end
  end.
End Fault.

(** The rules that start with the string test, and those that start
    with the integer test. *)
Definition stringRule (r : rule) : bool :=
  match r with
  | RString | RNonBlank | REnum _ | RFormat _ => true
  | _ => false
  end.

Definition intRule (r : rule) : bool :=
  match r with
  | RInt | RPort => true
  | _ => false
  end.

(** The entities of a document [doc], found from the top: a value
    that is a mapping, reached through a field of an entity
    ([children]) or as an element of a sequence-valued field
    ([elements], with the name that messages give to an element).
    [field p f c] says that the program's accessor finds [c] as the
    field [f] of [p]. *)
Section Schema.
Variable field : Node -> string -> Node -> Prop.
Variable children : entity -> list (string * entity).
Variable elements : entity -> list (string * (string * entity)).

Inductive entityOf (doc : Node) : entity -> Node -> Prop :=
  | ent_doc : isMapping doc = true -> entityOf doc EDoc doc
  | ent_child pe p f ce c :
      entityOf doc pe p -> In (f, ce) (children pe) ->
      field p f c -> isMapping c = true -> entityOf doc ce c
  | ent_element pe p f label ce seq c :
      entityOf doc pe p -> In (f, (label, ce)) (elements pe) ->
      field p f seq -> isSequence seq = true -> In c (Content seq) ->
      isMapping c = true -> entityOf doc ce c.
End Schema.

(** ** The schema as the fail-fast program checks it *)

Definition strOkFF (n : Node) : bool := isScalar n && String.eqb (Tag n) "!!str".

Definition intOkFF (n : Node) : bool :=
  isScalar n && String.eqb (Tag n) "!!int" && atoiOk (Value n).

(** The image format of [FF.validateImage]: the registry prefix, and a
    colon after the last slash that is not the last byte. *)
Definition imageOkFF (v : string) : bool :=
  HasPrefix v "registry.bigbrother.io/"
  && negb ((LastIndex v ":" =? -1) || (LastIndex v ":" <? LastIndex v "/" + 1)
           || (LastIndex v ":" =? len v - 1)).

Definition fieldFF (p : Node) (f : string) (c : Node) : Prop :=
  FF.getMapValue p f = Ret (Some c).

Definition childrenFF (e : entity) : list (string * entity) :=
  match e with
  | EDoc => [("metadata", EMetadata); ("spec", ESpec)]
  | EContainer =>
      [("readinessProbe", EProbe); ("livenessProbe", EProbe); ("resources", EResources)]
  | EProbe => [("httpGet", EHttpGet)]
  | EResources => [("limits", EQuantities); ("requests", EQuantities)]
  | _ => []
  end.

Definition elementsFF (e : entity) : list (string * (string * entity)) :=
  match e with
  | ESpec => [("containers", ("container", EContainer))]
  | EContainer => [("ports", ("ports", EPort))]
  | _ => []
  end.

(** Field, name in messages, rule. *)
Definition rulesFF (e : entity) : list (string * (string * rule)) :=
  match e with
  | EDoc =>
      [("apiVersion", ("apiVersion", REnum ["v1"])); ("kind", ("kind", REnum ["Pod"]));
       ("metadata", ("metadata", RObject)); ("spec", ("spec", RObject))]
  | EMetadata =>
      [("name", ("name", RString)); ("namespace", ("namespace", RString));
       ("labels", ("labels", RObject))]
  | ESpec =>
      [("os", ("os", REnum ["linux"; "windows"]));
       ("containers", ("containers", RNonEmptyArray))]
  | EContainer =>
      [("name", ("name", RFormat FF.isSnakeCase));
       ("image", ("image", RFormat imageOkFF));
       ("ports", ("ports", RArray));
       ("readinessProbe", ("readinessProbe", RObject));
       ("livenessProbe", ("livenessProbe", RObject));
       ("resources", ("resources", RObject))]
  | EPort =>
      [("containerPort", ("containerPort", RPort));
       ("protocol", ("protocol", REnum ["TCP"; "UDP"]))]
  | EProbe => [("httpGet", ("httpGet", RObject))]
  | EHttpGet =>
      [("path", ("path", RFormat (fun v => HasPrefix v "/"))); ("port", ("port", RPort))]
  | EResources => [("limits", ("limits", RObject)); ("requests", ("requests", RObject))]
  | ELabels | EOsObject | EQuantities => []
  end.

(** The rules for the entries of a [limits] or [requests] mapping,
    which the fail-fast program walks pair by pair. *)
Definition quantityRulesFF : list (string * (string * rule)) :=
  [("cpu", ("cpu", RInt)); ("memory", ("memory", RFormat FF.isValidMemory))].

Definition entityFF : Node -> entity -> Node -> Prop :=
  entityOf fieldFF childrenFF elementsFF.

(** A node that the fail-fast program checks against a rule: the
    value of a field of an entity, or of a [cpu] or [memory] entry. *)
Definition siteFF (doc n : Node) (label : string) (r : rule) : Prop :=
  (exists ent p f,
     entityFF doc ent p /\ In (f, (label, r)) (rulesFF ent)
     /\ FF.getMapValue p f = Ret (Some n))
  \/ (exists q k,
        entityFF doc EQuantities q /\ In (k, n) (pairs (Content q))
        /\ In (Value k, (label, r)) quantityRulesFF).

(** A required field that the entity [p] of [doc] lacks, with the
    message for it. *)
Inductive absentFF (doc : Node) : Node -> string -> Prop :=
  | absentFF_field ent p f :
      entityFF doc ent p -> In f (required ent) ->
      FF.getMapValue p f = Ret None ->
      absentFF doc p (f +:+ " is required").

(** A node of [doc] whose type or value breaks the schema, with the
    message for it: the value of a field of an entity, an element of
    [containers] or [ports] that is not a mapping, the value of a
    [cpu] or [memory] entry, or the top of the document. *)
Inductive wrongFF (doc : Node) : Node -> string -> Prop :=
  | wrongFF_top : isMapping doc = false -> wrongFF doc doc "root must be object"
  | wrongFF_field ent p f label r n m :
      entityFF doc ent p -> In (f, (label, r)) (rulesFF ent) ->
      FF.getMapValue p f = Ret (Some n) ->
      fault strOkFF intOkFF label r n = Some m ->
      wrongFF doc n m
  | wrongFF_element pe p f label ce seq c :
      entityFF doc pe p -> In (f, (label, ce)) (elementsFF pe) ->
      FF.getMapValue p f = Ret (Some seq) -> isSequence seq = true ->
      In c (Content seq) -> isMapping c = false ->
      wrongFF doc c (label +:+ " must be object")
  | wrongFF_entry q k v label r m :
      entityFF doc EQuantities q -> In (k, v) (pairs (Content q)) ->
      In (Value k, (label, r)) quantityRulesFF ->
      fault strOkFF intOkFF label r v = Some m ->
      wrongFF doc v m.

(** What a fail-fast violation says about the document: without a
    line, a required field that an entity lacks; with a line, the line
    of the node whose type or value is wrong. *)
Definition genuineFF (doc : Node) (e : FF.validationError) : Prop :=
  (FF.line e = None /\ exists p, absentFF doc p (FF.msg e))
  \/ (exists n, FF.line e = Some (Line n) /\ wrongFF doc n (FF.msg e)).

Definition soundFF (doc : Node) (res : outcome FF.error) : Prop :=
  forall e, res = Ret (Some e) -> genuineFF doc e.

(** ** The schema as the accumulate-all program checks it *)

Definition fieldAcc (p : Node) (f : string) (c : Node) : Prop :=
  Acc.mapify p !! f = Some c.

Definition childrenAcc (e : entity) : list (string * entity) :=
  match e with
  | EDoc => [("metadata", EMetadata); ("spec", ESpec)]
  | EMetadata => [("labels", ELabels)]
  | ESpec => [("os", EOsObject)]
  | EContainer =>
      [("readinessProbe", EProbe); ("livenessProbe", EProbe); ("resources", EResources)]
  | EProbe => [("httpGet", EHttpGet)]
  | EResources => [("limits", EQuantities); ("requests", EQuantities)]
  | _ => []
  end.

Definition elementsAcc (e : entity) : list (string * (string * entity)) :=
  match e with
  | ESpec => [("containers", ("container", EContainer))]
  | EContainer => [("ports", ("ports item", EPort))]
  | _ => []
  end.

(** Field, name in messages, rule; the message for a [livenessProbe]
    of the wrong type names [readinessProbe]. *)
Definition rulesAcc (e : entity) : list (string * (string * rule)) :=
  match e with
  | EDoc =>
      [("apiVersion", ("apiVersion", REnum ["v1"])); ("kind", ("kind", REnum ["Pod"]));
       ("metadata", ("metadata", RObject)); ("spec", ("spec", RObject))]
  | EMetadata =>
      [("name", ("name", RNonBlank)); ("namespace", ("namespace", RString));
       ("labels", ("labels", RObject))]
  | ESpec =>
      [("os", ("os", RStringOrObject ["linux"; "windows"]));
       ("containers", ("containers", RArray))]
  | EOsObject => [("name", ("name", REnum ["linux"; "windows"]))]
  | EContainer =>
      [("name", ("name", RFormat (MatchString Acc.reSnake)));
       ("image", ("image", RFormat (MatchString Acc.reImage)));
       ("ports", ("ports", RArray));
       ("readinessProbe", ("readinessProbe", RObject));
       ("livenessProbe", ("readinessProbe", RObject));
       ("resources", ("resources", RObject))]
  | EPort =>
      [("containerPort", ("containerPort", RPort));
       ("protocol", ("protocol", REnum ["TCP"; "UDP"]))]
  | EProbe => [("httpGet", ("httpGet", RObject))]
  | EHttpGet =>
      [("path", ("path", RFormat (MatchString Acc.reAbs))); ("port", ("port", RPort))]
  | EResources => [("limits", ("limits", RObject)); ("requests", ("requests", RObject))]
  | EQuantities =>
      [("cpu", ("cpu", RInt)); ("memory", ("memory", RFormat (MatchString Acc.reMem)))]
  | ELabels => []
  end.

Definition entityAcc : Node -> entity -> Node -> Prop :=
  entityOf fieldAcc childrenAcc elementsAcc.

Inductive absentAcc (doc : Node) : Node -> string -> Prop :=
  | absentAcc_field ent p f :
      entityAcc doc ent p -> In f (required ent) ->
      Acc.mapify p !! f = None ->
      absentAcc doc p (f +:+ " is required").

(** As [wrongFF]; the entries walked pair by pair are those of
    [labels], whose keys and values are to be strings. *)
Inductive wrongAcc (doc : Node) : Node -> string -> Prop :=
  | wrongAcc_top :
      isMapping doc = false -> wrongAcc doc doc "top-level must be a mapping"
  | wrongAcc_field ent p f label r n m :
      entityAcc doc ent p -> In (f, (label, r)) (rulesAcc ent) ->
      Acc.mapify p !! f = Some n ->
      fault Acc.isString Acc.isInt label r n = Some m ->
      wrongAcc doc n m
  | wrongAcc_element pe p f label ce seq c :
      entityAcc doc pe p -> In (f, (label, ce)) (elementsAcc pe) ->
      Acc.mapify p !! f = Some seq -> isSequence seq = true ->
      In c (Content seq) -> isMapping c = false ->
      wrongAcc doc c (label +:+ " must be object")
  | wrongAcc_key lbs k v :
      entityAcc doc ELabels lbs -> In (k, v) (pairs (Content lbs)) ->
      Acc.isString k = false ->
      wrongAcc doc k "labels key must be string"
  | wrongAcc_value lbs k v :
      entityAcc doc ELabels lbs -> In (k, v) (pairs (Content lbs)) ->
      Acc.isString v = false ->
      wrongAcc doc v "labels value must be string".

(** What an accumulate-all violation at line [l] says about the
    document: the line is that of the entity that lacks a required
    field, or that of the node whose type or value is wrong. *)
Definition genuineAcc (doc : Node) (l : Z) (m : string) : Prop :=
  exists n, l = Line n /\ (absentAcc doc n m \/ wrongAcc doc n m).


(** Two documents for what the notions above refuse: [apiVersion: 5],
    and a [metadata] whose [name] is the number 7 on line 4. *)
Definition apiVersionFive : Node := mapping 1 [str 1 "apiVersion"; int 1 "5"].

Definition nameNotString : Node :=
  mapping 1 [str 2 "metadata"; mapping 3 [str 4 "name"; int 4 "7"]].

(** * Field access (C3) *)

Lemma pairs_ind (P : list Node -> Prop) :
  P [] -> (forall k, P [k]) ->
  (forall k v rest, P rest -> P (k :: v :: rest)) ->
  forall c, P c.
Proof.
  intros H0 H1 H2.
  fix IH 1. intros [|k [|v rest]].
  - exact H0.
  - apply H1.
  - apply H2, IH.
Qed.

Lemma mapify_loop_lookup (c : list Node) (res : gmap string Node) (key : string) :
  Acc.mapify_loop c res !! key =
  match last (map snd (List.filter (scalarKeyIs key) (pairs c))) with
  | Some v => Some v
  | None => res !! key
  end.
Proof.
  revert res. induction c as [|k|k v rest IH] using pairs_ind; intros res;
    try reflexivity.
  cbn [Acc.mapify_loop pairs List.filter]. rewrite IH.
  unfold scalarKeyIs at 2. cbn [fst].
  destruct (isScalar k) eqn:Hk; cbn [andb].
  - destruct (String.eqb_spec (Value k) key) as [->|Hne]; cbn [map snd].
    + rewrite last_cons.
      destruct (last (map snd (List.filter (scalarKeyIs key) (pairs rest))));
        [reflexivity|apply lookup_insert_eq].
    + destruct (last (map snd (List.filter (scalarKeyIs key) (pairs rest))));
        [reflexivity|by apply lookup_insert_ne].
  - reflexivity.
Qed.

Lemma getMapValue_loop_spec (c : list Node) (key : string) :
  FF.getMapValue_loop c key =
  match head (map snd (List.filter (keyValueIs key) (pairs c))) with
  | Some v => Ret (Some v)
  | None => if Nat.even (length c) then Ret None else Panic
  end.
Proof.
  induction c as [|k|k v rest IH] using pairs_ind; try reflexivity.
  cbn [FF.getMapValue_loop pairs List.filter length Nat.even].
  unfold keyValueIs at 1. cbn [fst].
  destruct (String.eqb (Value k) key); [reflexivity|exact IH].
Qed.

(** C3, as the code has it.  Both accessors answer "absent" for a node
    that is not a mapping.  On a mapping, the accumulate-all accessor
    [mapify] yields the value paired with the LAST scalar key equal to
    [key] (later insertions overwrite earlier ones); the fail-fast
    accessor [getMapValue] yields the value paired with the first key
    whose [Value] equals [key], whatever the key's kind, and panics
    when no key matches and the mapping has a dangling last key. *)
Theorem field_accessors (n : Node) (key : string) :
  Acc.mapify n !! key =
    (if isMapping n
     then last (map snd (List.filter (scalarKeyIs key) (pairs (Content n))))
     else None)
  /\ FF.getMapValue n key =
    (if isMapping n
     then match head (map snd (List.filter (keyValueIs key) (pairs (Content n)))) with
          | Some v => Ret (Some v)
          | None => if Nat.even (length (Content n)) then Ret None else Panic
          end
     else Ret None).
Proof.
  unfold Acc.mapify, FF.getMapValue. destruct (isMapping n); cbn [negb].
  - split.
    + rewrite mapify_loop_lookup, lookup_empty.
      by destruct (last _).
    + apply getMapValue_loop_spec.
  - split; [apply lookup_empty|reflexivity].
Qed.

(** C3 as stated fails: with a duplicated key [mapify] returns the
    second value where section 4.1 asks for the first, and behind an
    alias key named like the field [getMapValue] returns the alias
    key's value where section 4.1 asks for the first scalar key's. *)
Lemma field_first_scalar_match_fails :
  spec_field dupKeys "name" = Some (str 1 "first")
  /\ Acc.mapify dupKeys !! "name" = Some (str 2 "second")
  /\ spec_field aliasKey "name" = Some (str 3 "second")
  /\ FF.getMapValue aliasKey "name" = Ret (Some (str 2 "first")).
Proof.
  repeat split; reflexivity.
Qed.

(** * Format checks (C4, C5) *)

(** C4 at the failing input: the fail-fast check [isValidMemory]
    accepts the signed quantities ["-5Gi"] and ["+5Gi"], which the
    pattern [reMem] of the accumulate-all program rejects, so that a
    manifest with [memory: "-5Gi"] passes the fail-fast program and
    fails the accumulate-all one; on the other examples of the
    specification the two agree. *)
Theorem memory_sign_accepted :
  FF.main "pod.yaml" (podNamed "web_1" "-5Gi") = Ret ([], 0)
  /\ Acc.main "pod.yaml" (podNamed "web_1" "-5Gi")
     = (["pod.yaml:12 memory has invalid format '-5Gi'"], 1)
  /\ FF.isValidMemory "-5Gi" = true
  /\ FF.isValidMemory "+5Gi" = true
  /\ MatchString Acc.reMem "-5Gi" = false
  /\ MatchString Acc.reMem "+5Gi" = false
  /\ Forall (fun s => FF.isValidMemory s = true /\ MatchString Acc.reMem s = true)
       ["512Mi"; "2Gi"; "100Ki"]
  /\ Forall (fun s => FF.isValidMemory s = false /\ MatchString Acc.reMem s = false)
       ["512mi"; "512"; "512Xi"; "Gi"; "1.5Gi"].
Proof.
  repeat split; repeat constructor; reflexivity.
Qed.

(** C5 at the failing input: the fail-fast check [isSnakeCase] accepts
    ["a__b"], which the pattern [reSnake] of the accumulate-all program
    rejects, so that a manifest with the container name [a__b] passes
    the fail-fast program and fails the accumulate-all one; both
    reject a leading or trailing underscore, upper case and hyphens. *)
Theorem double_underscore_accepted :
  FF.main "pod.yaml" (podNamed "a__b" "512Mi") = Ret ([], 0)
  /\ Acc.main "pod.yaml" (podNamed "a__b" "512Mi")
     = (["pod.yaml:8 name has invalid format 'a__b'"], 1)
  /\ FF.isSnakeCase "a__b" = true
  /\ MatchString Acc.reSnake "a__b" = false
  /\ Forall (fun s => FF.isSnakeCase s = true /\ MatchString Acc.reSnake s = true)
       ["web_1"; "a"; "a_b_c"; "0x"]
  /\ Forall (fun s => FF.isSnakeCase s = false /\ MatchString Acc.reSnake s = false)
       ["_a"; "a_"; "Web-1"; "web-1"; ""; "_"].
Proof.
  repeat split; repeat constructor; reflexivity.
Qed.

(** * Integers and ports (C7, C8) *)

Lemma portOutOfRange_false (v : Z) : portOutOfRange v = false <-> 1 <= v <= 65535.
Proof. unfold portOutOfRange. rewrite orb_false_iff. lia. Qed.

Lemma atoiOk_true (s : string) : atoiOk s = true <-> snd (Atoi s) = None.
Proof. unfold atoiOk. destruct (snd (Atoi s)); split; congruence. Qed.



(** C7.  A parsed port number passes the range test exactly when it
    lies in 1..65535; 0 and 65536 fail it, 1 and 65535 pass.  For a
    [containerPort] or [httpGet] [port] node that passed the integer
    check, each program reports "value out of range" at that node's
    line exactly when the number is outside 1..65535. *)
Theorem port_range (v : Z) :
  (portOutOfRange v = false <-> 1 <= v <= 65535)
  /\ portOutOfRange 0 = true /\ portOutOfRange 65536 = true
  /\ portOutOfRange 1 = false /\ portOutOfRange 65535 = false
  /\ (forall node m cp s,
        m !! "containerPort" = Some cp -> Acc.isInt cp = true ->
        fst (Atoi (Value cp)) = v ->
        Acc.validatePort_containerPort node m s =
          if (1 <=? v) && (v <=? 65535) then s
          else Acc.fail (Line cp) "containerPort value out of range" s)
  /\ (forall hg obj prt s,
        obj !! "port" = Some prt -> Acc.isInt prt = true ->
        fst (Atoi (Value prt)) = v ->
        Acc.validateProbe_port hg obj s =
          if (1 <=? v) && (v <=? 65535) then s
          else Acc.fail (Line prt) "port value out of range" s)
  /\ (forall node cp,
        FF.getMapValue node "containerPort" = Ret (Some cp) ->
        FF.ensureInt cp "containerPort" = None ->
        fst (Atoi (Value cp)) = v ->
        FF.validateContainerPort node =
          if (1 <=? v) && (v <=? 65535) then FF.validateContainerPort_protocol node
          else FF.atLine cp "containerPort value out of range")
  /\ (forall hg prt,
        FF.getMapValue hg "port" = Ret (Some prt) ->
        FF.ensureInt prt "port" = None ->
        fst (Atoi (Value prt)) = v ->
        FF.validateProbe_port hg =
          if (1 <=? v) && (v <=? 65535) then Ret None
          else FF.atLine prt "port value out of range").
Proof.
  assert (Hr : portOutOfRange v = negb ((1 <=? v) && (v <=? 65535))).
  { unfold portOutOfRange.
    destruct (v <=? 0) eqn:?, (v >=? 65536) eqn:?, (1 <=? v) eqn:?,
      (v <=? 65535) eqn:?; cbn; try reflexivity; lia. }
  split; [apply portOutOfRange_false|].
  repeat (split; [reflexivity|]).
  split; [|split; [|split]].
  - intros node m cp s Hm Hi Hv. unfold Acc.validatePort_containerPort.
    rewrite Hm, Hi. cbn [negb]. rewrite Hv, Hr.
    by destruct ((1 <=? v) && (v <=? 65535)).
  - intros hg obj prt s Hm Hi Hv. unfold Acc.validateProbe_port.
    rewrite Hm, Hi. cbn [negb]. rewrite Hv, Hr.
    by destruct ((1 <=? v) && (v <=? 65535)).
  - intros node cp Hm He Hv. unfold FF.validateContainerPort.
    rewrite Hm. cbn [obind]. rewrite He. cbn [FF.andThen]. rewrite Hv, Hr.
    by destruct ((1 <=? v) && (v <=? 65535)).
  - intros hg prt Hm He Hv. unfold FF.validateProbe_port.
    rewrite Hm. cbn [obind]. rewrite He. cbn [FF.andThen]. rewrite Hv, Hr.
    by destruct ((1 <=? v) && (v <=? 65535)).
Qed.

Lemma port_range_witness :
  Acc.validatePort_containerPort (portItem "65536") (Acc.mapify (portItem "65536"))
    {| Acc.vd := {| Acc.file := "pod.yaml"; Acc.errs := 0 |}; Acc.stdout := [] |}
  = {| Acc.vd := {| Acc.file := "pod.yaml"; Acc.errs := 1 |};
       Acc.stdout := ["pod.yaml:9 containerPort value out of range"] |}
  /\ FF.validateContainerPort (portItem "65535") = Ret None
  /\ FF.validateProbe_port (httpGetOf "0")
     = FF.atLine (int 12 "0") "port value out of range"
  /\ Acc.validateProbe_port (httpGetOf "1") (Acc.mapify (httpGetOf "1"))
       {| Acc.vd := {| Acc.file := "pod.yaml"; Acc.errs := 0 |}; Acc.stdout := [] |}
     = {| Acc.vd := {| Acc.file := "pod.yaml"; Acc.errs := 0 |}; Acc.stdout := [] |}.
Proof.
  split; [|split; [|split]].
  - destruct (port_range 65536) as (_ & _ & _ & _ & _ & H & _).
    rewrite (H (portItem "65536") _ (int 9 "65536")); reflexivity.
  - destruct (port_range 65535) as (_ & _ & _ & _ & _ & _ & _ & H & _).
    rewrite (H (portItem "65535") (int 9 "65535")); reflexivity.
  - destruct (port_range 0) as (_ & _ & _ & _ & _ & _ & _ & _ & H).
    rewrite (H (httpGetOf "0") (int 12 "0")); reflexivity.
  - destruct (port_range 1) as (_ & _ & _ & _ & _ & _ & H & _).
    rewrite (H (httpGetOf "1") _ (int 12 "1")); reflexivity.
Defined.



(** * Messages and their last character *)

Lemma lastChar_app_cons (a : string) (c : ascii) (r : string) :
  lastChar (a +:+ String c r) = lastChar (String c r).
Proof.
  induction a as [|x a IH]; [reflexivity|].
  change (lastChar (String x (a +:+ String c r)) = lastChar (String c r)).
  cbn [lastChar]. destruct (a +:+ String c r) eqn:E; [|exact IH].
  destruct a; discriminate.
Qed.

Lemma lastChar_quoted (a v : string) : lastChar (a +:+ v +:+ "'") = Some "'"%char.
Proof.
  destruct (v +:+ "'") as [|c w] eqn:E; [destruct v; discriminate|].
  rewrite lastChar_app_cons, <- E, lastChar_app_cons. reflexivity.
Qed.

Lemma lastChar_quoted2 (a b v : string) :
  lastChar (a +:+ b +:+ v +:+ "'") = Some "'"%char.
Proof.
  pose proof (lastChar_quoted b v) as H.
  destruct (b +:+ v +:+ "'") as [|c w] eqn:E; [discriminate|].
  by rewrite lastChar_app_cons.
Qed.

Lemma not_absence (m : string) : lastChar m <> Some "d"%char -> ~ absenceMsg m.
Proof.
  intros H [field ->]. apply H. rewrite lastChar_app_cons. reflexivity.
Qed.

(** The field names that occur in messages. *)
Ltac pick_field :=
  exists "root"%string + exists "apiVersion"%string + exists "kind"%string
  + exists "metadata"%string + exists "spec"%string + exists "labels"%string
  + exists "os"%string + exists "containers"%string + exists "container"%string
  + exists "name"%string + exists "image"%string + exists "ports"%string
  + exists "readinessProbe"%string + exists "livenessProbe"%string
  + exists "resources"%string + exists "limits"%string + exists "requests"%string
  + exists "httpGet"%string + exists "path"%string + exists "port"%string
  + exists "containerPort"%string + exists "protocol"%string
  + exists "memory"%string.

(** * The accumulate-all program prints by [fail] only *)

Lemma emitAll_nil (s : Acc.Run) : emitAll [] s = s.
Proof.
  destruct s as [[f e] out]. unfold emitAll. cbn.
  rewrite Z.add_0_r, app_nil_r. reflexivity.
Qed.

Lemma emitAll_app (us vs : list (Z * string)) (s : Acc.Run) :
  emitAll (us ++ vs) s = emitAll vs (emitAll us s).
Proof.
  unfold emitAll. cbn.
  rewrite length_app, Nat2Z.inj_add, Z.add_assoc, map_app, app_assoc.
  reflexivity.
Qed.

Lemma fail_emitAll (l : Z) (m : string) (s : Acc.Run) :
  Acc.fail l m s = emitAll [(l, m)] s.
Proof. reflexivity. Qed.

Section Reports.
Variable P : Z -> string -> Prop.

Lemma rp_skip : reportsP P Acc.skip.
Proof.
  exists []. split; [constructor|]. intros s. symmetry. apply emitAll_nil.
Qed.

Lemma rp_fail (l : Z) (m : string) : P l m -> reportsP P (Acc.fail l m).
Proof.
  intros H. exists [(l, m)]. split; [by repeat constructor|].
  intros s. apply fail_emitAll.
Qed.

Lemma rp_seq (a b : Acc.action) :
  reportsP P a -> reportsP P b -> reportsP P (Acc.seq a b).
Proof.
  intros (us & Hus & Ha) (vs & Hvs & Hb). exists (us ++ vs). split.
  - apply Forall_app. by split.
  - intros s. unfold Acc.seq. rewrite Ha, Hb. symmetry. apply emitAll_app.
Qed.

Lemma rp_forEach (f : Node -> Acc.action) (xs : list Node) :
  (forall x, In x xs -> reportsP P (f x)) -> reportsP P (Acc.forEach f xs).
Proof.
  induction xs as [|x xs IH]; intros H; cbn [Acc.forEach].
  - apply rp_skip.
  - apply rp_seq; [apply H; by left|]. apply IH. intros y Hy. apply H. by right.
Qed.
End Reports.

Lemma reportsP_weaken (P Q : Z -> string -> Prop) (a : Acc.action) :
  (forall l m, P l m -> Q l m) -> reportsP P a -> reportsP Q a.
Proof.
  intros HPQ (vs & Hvs & Ha). exists vs. split; [|exact Ha].
  eapply Forall_impl; [exact Hvs|]. intros [l m] H. by apply HPQ.
Qed.

(** What an action that only reports does to any state. *)
Lemma reportsP_frame (P : Z -> string -> Prop) (a : Acc.action) :
  reportsP P a ->
  forall s,
    a s = {| Acc.vd := {| Acc.file := Acc.file (Acc.vd s);
                          Acc.errs := Acc.errs (Acc.vd s)
                                      + Z.of_nat (length (lines a (Acc.file (Acc.vd s)))) |};
             Acc.stdout := Acc.stdout s ++ lines a (Acc.file (Acc.vd s)) |}.
Proof.
  intros (vs & _ & Ha) s. unfold lines. rewrite !Ha. unfold emitAll, start. cbn.
  by rewrite length_map.
Qed.

Lemma lines_seq (P : Z -> string -> Prop) (a b : Acc.action) (f : string) :
  reportsP P a -> reportsP P b ->
  lines (Acc.seq a b) f = lines a f ++ lines b f.
Proof.
  intros Ha Hb. unfold lines at 1. unfold Acc.seq.
  rewrite (reportsP_frame P b Hb). cbn [Acc.stdout].
  f_equal. pose proof (reportsP_frame P a Ha (start f)) as E. rewrite E. reflexivity.
Qed.

(** ** Values handed out by the accessors are children of the node *)

Lemma pairs_In_snd (c : list Node) (k v : Node) : In (k, v) (pairs c) -> In v c.
Proof.
  induction c as [|k0|k0 v0 rest IH] using pairs_ind; cbn [pairs In]; try tauto.
  intros [E|H].
  - inversion E; subst. right. by left.
  - right. right. by apply IH.
Qed.

Lemma filter_pairs_In (p : Node * Node -> bool) (c : list Node) (v : Node) :
  In v (map snd (List.filter p (pairs c))) -> In v c.
Proof.
  intros H. apply in_map_iff in H as ([k v'] & E & H). cbn in E. subst v'.
  apply filter_In in H as [H _]. by apply pairs_In_snd in H.
Qed.

Lemma last_In {A} (l : list A) (x : A) : last l = Some x -> In x l.
Proof.
  intros H. apply list_elem_of_In. by apply last_Some_elem_of.
Qed.

Lemma head_In {A} (l : list A) (x : A) : head l = Some x -> In x l.
Proof. destruct l; cbn; [discriminate|]. intros [= ->]. by left. Qed.

Lemma mapify_In (p v : Node) (key : string) :
  Acc.mapify p !! key = Some v -> In v (Content p).
Proof.
  unfold Acc.mapify. destruct (isMapping p); cbn [negb].
  - rewrite mapify_loop_lookup, lookup_empty.
    destruct (last _) eqn:E; [|discriminate]. intros [= ->].
    apply last_In in E. by apply filter_pairs_In in E.
  - by rewrite lookup_empty.
Qed.

Lemma getMapValue_In (p v : Node) (key : string) :
  FF.getMapValue p key = Ret (Some v) -> In v (Content p).
Proof.
  unfold FF.getMapValue. destruct (isMapping p); cbn [negb]; [|discriminate].
  rewrite getMapValue_loop_spec.
  destruct (head _) eqn:E.
  - intros [= ->]. apply head_In in E. by apply filter_pairs_In in E.
  - destruct (Nat.even _); discriminate.
Qed.

Lemma sub_step (n p r : Node) : sub p r -> In n (Content p) -> sub n r.
Proof. intros Hp Hn. by eapply sub_child. Qed.

Lemma lineIn_intro (r n : Node) (m : string) :
  sub n r ->
  (absenceMsg m ->
   exists field,
     m = field +:+ " is required"
     /\ (Acc.mapify n !! field = None
         \/ (field = "name" /\ Acc.isString n = true
             /\ trimsToEmpty (Value n) = true))) ->
  lineIn r (Line n) m.
Proof. intros H Hm. by exists n. Qed.

Ltac blame_acc :=
  let Habs := fresh "Habs" in
  intros Habs;
  solve [ exfalso; revert Habs; apply not_absence;
          first [ rewrite lastChar_quoted; discriminate
                | rewrite lastChar_app_cons; vm_compute; discriminate
                | vm_compute; discriminate ]
        | clear Habs; pick_field; split; [reflexivity|];
          first [ left; assumption
                | right; repeat split; first [assumption | by apply negb_false_iff] ] ].

(** ** Every validator reports violations at lines of the document *)

Ltac rp_step :=
  match goal with
  | |- reportsP _ (Acc.seq _ _) => apply rp_seq
  | |- reportsP _ Acc.skip => apply rp_skip
  | |- reportsP _ (Acc.fail _ _) => apply rp_fail
  | |- reportsP _ (if ?b then _ else _) => destruct b eqn:?
  | |- reportsP _ (match ?m !! ?k with _ => _ end) =>
      let E := fresh "E" in
      destruct (m !! k) eqn:E; [apply mapify_In in E|]
  | |- reportsP _ (match NKind ?n with _ => _ end) => destruct (NKind n)
  | |- lineIn _ (Line ?n) _ => apply (lineIn_intro _ n); [|blame_acc]
  end.

Ltac rp := cbv zeta; repeat rp_step; eauto using sub_step.

Section InDocument.
Variable r : Node.

Lemma labelsLoop_reports (c : list Node) :
  (forall n, In n c -> sub n r) -> reportsP (lineIn r) (Acc.labelsLoop c).
Proof.
  induction c as [|k|k v rest IH] using pairs_ind; intros H; cbn [Acc.labelsLoop];
    try apply rp_skip.
  assert (sub k r) by (apply H; by left).
  assert (sub v r) by (apply H; right; by left).
  rp. apply IH. intros n Hn. apply H. right. by right.
Qed.

Lemma validateMetadata_reports (node : Node) :
  sub node r -> reportsP (lineIn r) (Acc.validateMetadata node).
Proof.
  intros Hn. unfold Acc.validateMetadata. rp.
  apply labelsLoop_reports. eauto using sub_step.
Qed.

Lemma validatePort_reports (node : Node) :
  sub node r -> reportsP (lineIn r) (Acc.validatePort node).
Proof.
  intros Hn.
  unfold Acc.validatePort, Acc.validatePort_containerPort, Acc.validatePort_protocol.
  rp.
Qed.

Lemma validateProbe_reports (node : Node) :
  sub node r -> reportsP (lineIn r) (Acc.validateProbe node).
Proof.
  intros Hn.
  unfold Acc.validateProbe, Acc.validateProbe_path, Acc.validateProbe_port.
  rp.
Qed.

Lemma validateResKV_reports (name : string) (node : Node) :
  sub node r -> reportsP (lineIn r) (Acc.validateResKV name node).
Proof. intros Hn. unfold Acc.validateResKV. rp. Qed.

Lemma validateResources_reports (node : Node) :
  sub node r -> reportsP (lineIn r) (Acc.validateResources node).
Proof.
  intros Hn. unfold Acc.validateResources. rp;
    apply validateResKV_reports; eauto using sub_step.
Qed.

Lemma validateContainer_reports (node : Node) :
  sub node r -> reportsP (lineIn r) (Acc.validateContainer node).
Proof.
  intros Hn. unfold Acc.validateContainer. rp.
  - apply rp_forEach. intros x Hx. apply validatePort_reports.
    eauto using sub_step.
  - apply validateProbe_reports. eauto using sub_step.
  - apply validateProbe_reports. eauto using sub_step.
  - apply validateResources_reports. eauto using sub_step.
Qed.

Lemma validateSpec_os_reports (node : Node) :
  sub node r -> reportsP (lineIn r) (Acc.validateSpec_os (Acc.mapify node)).
Proof. intros Hn. unfold Acc.validateSpec_os. rp. Qed.

Lemma validateSpec_containers_reports (node : Node) :
  sub node r ->
  reportsP (lineIn r) (Acc.validateSpec_containers node (Acc.mapify node)).
Proof.
  intros Hn. unfold Acc.validateSpec_containers. rp.
  apply rp_forEach. intros x Hx. apply validateContainer_reports.
  eauto using sub_step.
Qed.

Lemma validateSpec_reports (node : Node) :
  sub node r -> reportsP (lineIn r) (Acc.validateSpec node).
Proof.
  intros Hn. unfold Acc.validateSpec. rp.
  - by apply validateSpec_os_reports.
  - by apply validateSpec_containers_reports.
Qed.
End InDocument.

Lemma validateRoot_reports (root : Node) :
  reportsP (lineIn root) (Acc.validateRoot root).
Proof.
  unfold Acc.validateRoot.
  set (doc := match NKind root with DocumentNode => _ | _ => _ end).
  assert (Hdoc : sub doc root).
  { subst doc. destruct (NKind root), (Content root) as [|d ?] eqn:E;
      try apply sub_refl.
    eapply sub_child; [|apply sub_refl]. rewrite E. by left. }
  rp.
  - apply validateMetadata_reports. eauto using sub_step.
  - apply validateSpec_reports. eauto using sub_step.
Qed.

(** * Accumulation over the containers (C9) *)

Lemma validateContainer_emits (c : Node) :
  reportsP (fun _ _ => True) (Acc.validateContainer c).
Proof.
  eapply reportsP_weaken; [|apply (validateContainer_reports c c), sub_refl].
  tauto.
Qed.

Lemma lines_forEach_containers (f : string) (cs : list Node) :
  lines (Acc.forEach Acc.validateContainer cs) f
  = concat (map (fun c => lines (Acc.validateContainer c) f) cs).
Proof.
  induction cs as [|c cs IH]; [reflexivity|].
  cbn [Acc.forEach map concat].
  rewrite (lines_seq (fun _ _ => True)), IH; [reflexivity| |].
  - apply validateContainer_emits.
  - apply rp_forEach. intros x _. apply validateContainer_emits.
Qed.

Lemma errs_count (f : string) (root : Node) :
  Acc.errs (Acc.vd (Acc.validateRoot root (start f)))
  = Z.of_nat (length (lines (Acc.validateRoot root) f)).
Proof.
  pose proof (reportsP_frame _ _ (validateRoot_reports root) (start f)) as E.
  rewrite E at 1. reflexivity.
Qed.

(** C9.  Under accumulate-all the lines printed for a containers
    sequence are the lines of each element in turn, whatever the other
    elements report; the lines of a spec are those of the [os] block
    followed by those of every container; and the run exits with 1
    exactly when at least one violation was printed (the error counter
    equals the number of printed lines), with 0 otherwise. *)
Theorem accumulate_all (f : string) :
  (forall cs,
     lines (Acc.forEach Acc.validateContainer cs) f
     = concat (map (fun c => lines (Acc.validateContainer c) f) cs))
  /\ (forall before c after,
        lines (Acc.forEach Acc.validateContainer (before ++ c :: after)) f
        = lines (Acc.forEach Acc.validateContainer before) f
          ++ lines (Acc.validateContainer c) f
          ++ lines (Acc.forEach Acc.validateContainer after) f)
  /\ (forall node cn,
        isMapping node = true -> Acc.mapify node !! "containers" = Some cn ->
        isSequence cn = true ->
        lines (Acc.validateSpec node) f
        = lines (Acc.validateSpec_os (Acc.mapify node)) f
          ++ concat (map (fun c => lines (Acc.validateContainer c) f) (Content cn)))
  /\ (forall root,
        Acc.errs (Acc.vd (Acc.validateRoot root (start f)))
        = Z.of_nat (length (fst (Acc.main f root)))
        /\ (snd (Acc.main f root) = 1 <-> fst (Acc.main f root) <> [])
        /\ (snd (Acc.main f root) = 0 <-> fst (Acc.main f root) = [])).
Proof.
  split; [apply lines_forEach_containers|]. split; [|split].
  - intros before c after. rewrite !lines_forEach_containers.
    rewrite map_app, concat_app. reflexivity.
  - intros node cn Hm Hc Hs. unfold Acc.validateSpec. rewrite Hm. cbn [negb].
    rewrite (lines_seq (lineIn node)).
    + f_equal. unfold Acc.validateSpec_containers. rewrite Hc, Hs. cbn [negb].
      apply lines_forEach_containers.
    + apply validateSpec_os_reports, sub_refl.
    + apply validateSpec_containers_reports, sub_refl.
  - intros root. pose proof (errs_count f root) as E.
    change (fst (Acc.main f root)) with (lines (Acc.validateRoot root) f).
    change (snd (Acc.main f root))
      with (if Acc.errs (Acc.vd (Acc.validateRoot root (start f))) >? 0 then 1 else 0).
    rewrite E. split; [reflexivity|].
    destruct (lines (Acc.validateRoot root) f) as [|l ls]; cbn [length].
    + cbn. split; split; intros Hx; try discriminate; by try destruct Hx.
    + destruct (Z.gtb_spec (Z.of_nat (S (length ls))) 0); [|lia].
      split; split; intros Hx; try discriminate; reflexivity.
Qed.

Lemma accumulate_all_witness :
  lines (Acc.validateSpec (specOf [emptyContainer; goodContainer; str 18 "x"])) "pod.yaml"
  = ["pod.yaml:7 name is required"; "pod.yaml:7 image is required";
     "pod.yaml:7 resources is required"; "pod.yaml:18 container must be object"].
Proof.
  destruct (accumulate_all "pod.yaml") as (_ & _ & H & _).
  rewrite (H _ (sequence 7 [emptyContainer; goodContainer; str 18 "x"]));
    reflexivity.
Defined.

(** * The probe message of the accumulate-all program (C10) *)

Ltac rp_sub :=
  rp;
  first [ apply rp_forEach; intros; apply validatePort_reports
        | apply validateProbe_reports
        | apply validateResources_reports ];
  eauto using sub_step, sub_refl.

(** C10.  In the accumulate-all program a [livenessProbe] that is
    present and is not a mapping is reported by [validateProbe] as
    "readinessProbe must be object" at the probe's line, and that line
    is among those printed for the container. *)
Theorem liveness_probe_message (node lp : Node) (f : string) :
  isMapping node = true ->
  Acc.mapify node !! "livenessProbe" = Some lp ->
  isMapping lp = false ->
  (forall s, Acc.validateProbe lp s
             = Acc.fail (Line lp) "readinessProbe must be object" s)
  /\ lines (Acc.validateProbe lp) f
     = [f +:+ ":" +:+ itoa (Line lp) +:+ " readinessProbe must be object"]
  /\ exists before after,
       lines (Acc.validateContainer node) f
       = before ++ lines (Acc.validateProbe lp) f ++ after.
Proof.
  intros Hm Hlp Hk.
  assert (Hp : forall s, Acc.validateProbe lp s
                         = Acc.fail (Line lp) "readinessProbe must be object" s).
  { intros s. unfold Acc.validateProbe. by rewrite Hk. }
  split; [exact Hp|]. split.
  { unfold lines. rewrite Hp. reflexivity. }
  unfold Acc.validateContainer. rewrite Hm. cbn [negb]. cbv zeta. rewrite Hlp.
  assert (Hsub : sub node node) by apply sub_refl.
  assert (Hin : sub lp node).
  { eapply sub_step; [exact Hsub|]. eapply mapify_In, Hlp. }
  rewrite (lines_seq (lineIn node)); [|rp_sub|rp_sub].
  rewrite (lines_seq (lineIn node)); [|rp_sub|rp_sub].
  rewrite (lines_seq (lineIn node)); [|rp_sub|rp_sub].
  rewrite (lines_seq (lineIn node)); [|rp_sub|rp_sub].
  rewrite (lines_seq (lineIn node)); [|rp_sub|rp_sub].
  match goal with
  | |- exists b a, ?x1 ++ ?x2 ++ ?x3 ++ ?x4 ++ ?p ++ ?e = _ =>
      exists (x1 ++ x2 ++ x3 ++ x4), e
  end.
  by rewrite <- !app_assoc.
Qed.

Lemma liveness_probe_message_witness :
  lines (Acc.validateProbe (str 10 "yes")) "pod.yaml"
  = ["pod.yaml:10 readinessProbe must be object"]
  /\ exists before after,
       lines (Acc.validateContainer livenessScalar) "pod.yaml"
       = before ++ lines (Acc.validateProbe (str 10 "yes")) "pod.yaml" ++ after.
Proof.
  destruct (liveness_probe_message livenessScalar (str 10 "yes") "pod.yaml")
    as (_ & H1 & H2); [reflexivity|reflexivity|reflexivity|].
  split; [exact H1|exact H2].
Defined.

(** * Where fail-fast violations point (towards C2) *)

Lemma ensureString_strOk (n : Node) (label : string) :
  FF.ensureString n label
  = if strOkFF n then None
    else Some {| FF.line := Some (Line n); FF.msg := label +:+ " must be string" |}.
Proof.
  unfold FF.ensureString, strOkFF.
  by destruct (isScalar n), (String.eqb (Tag n) "!!str").
Qed.

Lemma ensureInt_intOk (n : Node) (label : string) :
  FF.ensureInt n label
  = if intOkFF n then None
    else Some {| FF.line := Some (Line n); FF.msg := label +:+ " must be int" |}.
Proof.
  unfold FF.ensureInt, intOkFF.
  by destruct (isScalar n), (String.eqb (Tag n) "!!int"), (atoiOk (Value n)).
Qed.

Lemma ensureString_passed (n : Node) (label : string) :
  Ret (FF.ensureString n label) = Ret None -> strOkFF n = true.
Proof. rewrite ensureString_strOk. by destruct (strOkFF n). Qed.

Lemma ensureInt_passed (n : Node) (label : string) :
  Ret (FF.ensureInt n label) = Ret None -> intOkFF n = true.
Proof. rewrite ensureInt_intOk. by destruct (intOkFF n). Qed.

Lemma validateImage_imageOk (node : Node) :
  FF.validateImage node
  = if imageOkFF (Value node) then Ret None
    else FF.atLine node ("image has invalid format '" +:+ Value node +:+ "'").
Proof.
  unfold FF.validateImage, imageOkFF. cbv zeta.
  destruct (HasPrefix (Value node) "registry.bigbrother.io/"); cbn [negb andb];
    [|reflexivity].
  by destruct (_ || _).
Qed.

Lemma length_zero (c : list Node) : (Z.of_nat (length c) =? 0) = true -> c = [].
Proof. destruct c; [reflexivity|]. cbn [length]. intros H. apply Z.eqb_eq in H. lia. Qed.

Ltac in_table := solve [ simpl; repeat first [left; reflexivity | right] ].

Ltac rewrite_tests :=
  repeat match goal with
  | H : ?b = true |- context [?b] => rewrite H
  | H : ?b = false |- context [?b] => rewrite H
  | H : Content ?n = [] |- context [Content ?n] => rewrite H
  | H : NKind ?n = _ |- context [NKind ?n] => rewrite H
  end.

Ltac fault_solve :=
  cbn [fault]; rewrite_tests; cbn [negb oneOf existsb orb andb]; rewrite_tests;
  cbn [negb orb andb]; reflexivity.

Ltac norm :=
  repeat match goal with
  | H : negb _ = true |- _ => apply negb_true_iff in H
  | H : negb _ = false |- _ => apply negb_false_iff in H
  | H : _ && _ = true |- _ => apply andb_true_iff in H; destruct H
  | H : _ || _ = false |- _ => apply orb_false_iff in H; destruct H
  | H : Ret (FF.ensureString _ _) = Ret None |- _ => apply ensureString_passed in H
  | H : Ret (FF.ensureInt _ _) = Ret None |- _ => apply ensureInt_passed in H
  | H : (Z.of_nat (length _) =? 0) = true |- _ => apply length_zero in H
  end.

Section SoundFF.
Variable doc : Node.

Lemma siteFF_field (ent : entity) (p : Node) (f label : string) (r : rule) (n : Node) :
  entityFF doc ent p -> In (f, (label, r)) (rulesFF ent) ->
  FF.getMapValue p f = Ret (Some n) -> siteFF doc n label r.
Proof. intros. left. by exists ent, p, f. Qed.

Lemma siteFF_wrong (n : Node) (label : string) (r : rule) (m : string) :
  siteFF doc n label r -> fault strOkFF intOkFF label r n = Some m -> wrongFF doc n m.
Proof.
  intros [(ent & p & f & He & Ht & Hg)|(q & k & He & Hin & Ht)] Hf.
  - by eapply wrongFF_field.
  - by eapply wrongFF_entry.
Qed.

Lemma sound_none : soundFF doc (Ret None).
Proof. intros e [=]. Qed.

Lemma sound_panic : soundFF doc Panic.
Proof. intros e [=]. Qed.

Lemma sound_andThen (a b : outcome FF.error) :
  soundFF doc a -> (a = Ret None -> soundFF doc b) -> soundFF doc (FF.andThen a b).
Proof.
  intros Ha Hb e. destruct a as [[x|]|]; cbn [FF.andThen].
  - apply Ha.
  - by apply Hb.
  - discriminate.
Qed.

Lemma sound_wrong (n : Node) (m : string) :
  wrongFF doc n m -> soundFF doc (FF.atLine n m).
Proof. intros H e [= <-]. right. by exists n. Qed.

Lemma sound_atLine (n : Node) (label : string) (r : rule) (m : string) :
  siteFF doc n label r -> fault strOkFF intOkFF label r n = Some m ->
  soundFF doc (FF.atLine n m).
Proof. intros Hs Hf. apply sound_wrong. by eapply siteFF_wrong. Qed.

Lemma sound_noLine (ent : entity) (p : Node) (f : string) :
  entityFF doc ent p -> In f (required ent) -> FF.getMapValue p f = Ret None ->
  soundFF doc (FF.noLine (f +:+ " is required")).
Proof.
  intros He Hf Hg e [= <-]. left. split; [reflexivity|]. exists p.
  by eapply absentFF_field.
Qed.

Lemma sound_ensureString (n : Node) (label : string) (r : rule) :
  siteFF doc n label r -> stringRule r = true ->
  soundFF doc (Ret (FF.ensureString n label)).
Proof.
  intros Hs Hr. rewrite ensureString_strOk.
  destruct (strOkFF n) eqn:E; [apply sound_none|].
  apply (sound_atLine n label r); [exact Hs|].
  destruct r; try discriminate; cbn [fault]; by rewrite E.
Qed.

Lemma sound_ensureInt (n : Node) (label : string) (r : rule) :
  siteFF doc n label r -> intRule r = true ->
  soundFF doc (Ret (FF.ensureInt n label)).
Proof.
  intros Hs Hr. rewrite ensureInt_intOk.
  destruct (intOkFF n) eqn:E; [apply sound_none|].
  apply (sound_atLine n label r); [exact Hs|].
  destruct r; try discriminate; cbn [fault]; by rewrite E.
Qed.

End SoundFF.

Ltac site_field :=
  match goal with
  | He : entityFF _ ?ent ?p, E : FF.getMapValue ?p ?f = Ret (Some ?n)
    |- siteFF _ ?n _ _ =>
      apply (siteFF_field _ ent p f _ _ n He); [in_table|exact E]
  end.

Ltac ff_step :=
  match goal with
  | |- soundFF _ (FF.andThen _ _) => apply sound_andThen; [|intros ?; norm]
  | |- soundFF _ (Ret None) => apply sound_none
  | |- soundFF _ Panic => apply sound_panic
  | |- soundFF _ (Ret (FF.ensureString ?n ?l)) =>
      eapply (sound_ensureString _ n l); [site_field|reflexivity]
  | |- soundFF _ (Ret (FF.ensureInt ?n ?l)) =>
      eapply (sound_ensureInt _ n l); [site_field|reflexivity]
  | |- soundFF _ (FF.atLine ?n _) =>
      eapply (sound_atLine _ n); [site_field|fault_solve]
  | He : entityFF _ ?ent ?p, E : FF.getMapValue ?p ?f = Ret None
    |- soundFF _ (FF.noLine _) =>
      apply (sound_noLine _ ent p f He); [in_table|exact E]
  | |- soundFF _ (obind (FF.getMapValue ?p ?f) _) =>
      let E := fresh "E" in
      destruct (FF.getMapValue p f) as [[?|]|] eqn:E; cbn [obind]
  | |- soundFF _ (if ?b then _ else _) => destruct b eqn:?; norm
  end.

(** A field of an entity whose value is a mapping is an entity. *)
Ltac child :=
  repeat match goal with
  | He : entityFF ?d ?pe ?p, E : FF.getMapValue ?p ?f = Ret (Some ?c),
    Hm : isMapping ?c = true |- _ =>
      lazymatch goal with
      | _ : entityFF d _ c |- _ => fail
      | _ => idtac
      end;
      let H := fresh "He" in
      eassert (H : entityFF d _ c)
        by (apply (ent_child fieldFF childrenFF elementsFF d pe p f _ c He);
            [in_table|exact E|exact Hm])
  end.

Ltac ff := cbv zeta; repeat (ff_step; child).

Section SoundValidators.
Variable doc : Node.

Lemma validateResourceMap_sound (q : Node) (c : list Node) :
  entityFF doc EQuantities q ->
  (forall kv, In kv (pairs c) -> In kv (pairs (Content q))) ->
  soundFF doc (FF.validateResourceMap_loop c).
Proof.
  intros Hq.
  induction c as [|k|k v rest IH] using pairs_ind; intros Hin;
    cbn [FF.validateResourceMap_loop]; try (by ff).
  assert (Hkv : In (k, v) (pairs (Content q))) by (apply Hin; by left).
  apply sound_andThen; [|intros _; apply IH; intros kv H; apply Hin; by right].
  assert (Hsite : forall label r,
            In (Value k, (label, r)) quantityRulesFF -> siteFF doc v label r).
  { intros label r H. right. by exists q, k. }
  destruct (String.eqb_spec (Value k) "cpu") as [Ec|_].
  - apply (sound_ensureInt _ v "cpu" RInt); [|reflexivity].
    apply Hsite. rewrite Ec. in_table.
  - destruct (String.eqb_spec (Value k) "memory") as [Em|_]; [|apply sound_none].
    assert (Hs : siteFF doc v "memory" (RFormat FF.isValidMemory))
      by (apply Hsite; rewrite Em; in_table).
    apply sound_andThen; [by apply (sound_ensureString _ v "memory" _ Hs)|].
    intros ?; norm. destruct (negb _) eqn:?; norm; [|apply sound_none].
    apply (sound_atLine _ v _ _ _ Hs). fault_solve.
Qed.

Lemma validateResources_sound (node : Node) :
  entityFF doc EResources node -> soundFF doc (FF.validateResources node).
Proof.
  intros Hn. unfold FF.validateResources, FF.validateResourceMap. ff.
  all: match goal with
       | |- soundFF _ (FF.validateResourceMap_loop (Content ?n)) =>
           by apply (validateResourceMap_sound n)
       end.
Qed.

Lemma validateProbe_sound (node : Node) :
  entityFF doc EProbe node -> soundFF doc (FF.validateProbe node).
Proof.
  intros Hn. unfold FF.validateProbe. ff. unfold FF.validateProbe_port. ff.
Qed.

Lemma validateContainerPort_sound (node : Node) :
  entityFF doc EPort node -> soundFF doc (FF.validateContainerPort node).
Proof.
  intros Hn. unfold FF.validateContainerPort, FF.validateContainerPort_protocol. ff.
Qed.

Lemma portsLoop_sound (c ps : Node) (l : list Node) :
  entityFF doc EContainer c -> FF.getMapValue c "ports" = Ret (Some ps) ->
  isSequence ps = true -> (forall p, In p l -> In p (Content ps)) ->
  soundFF doc (FF.portsLoop l).
Proof.
  intros Hc Hg Hs. induction l as [|p l IH]; intros Hin; cbn [FF.portsLoop]; [by ff|].
  assert (Hp : In p (Content ps)) by (apply Hin; by left).
  destruct (negb (isMapping p)) eqn:Hm; norm.
  - apply sound_wrong.
    apply (wrongFF_element doc EContainer c "ports" "ports" EPort ps p);
      first [assumption | in_table].
  - apply sound_andThen; [|intros _; apply IH; intros x Hx; apply Hin; by right].
    apply validateContainerPort_sound.
    apply (ent_element fieldFF childrenFF elementsFF _ EContainer c "ports" "ports"
             EPort ps p); first [assumption | in_table].
Qed.

Lemma validateContainer_sound (node : Node) :
  entityFF doc EContainer node -> soundFF doc (FF.validateContainer node).
Proof.
  intros Hn. unfold FF.validateContainer. ff.
  - rewrite validateImage_imageOk. ff.
  - eapply portsLoop_sound; eauto.
  - by apply validateProbe_sound.
  - by apply validateProbe_sound.
  - by apply validateResources_sound.
Qed.

Lemma containersLoop_sound (spec cn : Node) (l : list Node) :
  entityFF doc ESpec spec -> FF.getMapValue spec "containers" = Ret (Some cn) ->
  isSequence cn = true -> (forall c, In c l -> In c (Content cn)) ->
  soundFF doc (FF.containersLoop l).
Proof.
  intros Hc Hg Hs. induction l as [|c l IH]; intros Hin; cbn [FF.containersLoop];
    [by ff|].
  assert (Hp : In c (Content cn)) by (apply Hin; by left).
  destruct (negb (isMapping c)) eqn:Hm; norm.
  - apply sound_wrong.
    apply (wrongFF_element doc ESpec spec "containers" "container" EContainer cn c);
      first [assumption | in_table].
  - apply sound_andThen; [|intros _; apply IH; intros x Hx; apply Hin; by right].
    apply validateContainer_sound.
    apply (ent_element fieldFF childrenFF elementsFF _ ESpec spec "containers"
             "container" EContainer cn c); first [assumption | in_table].
Qed.

Lemma validateSpec_sound (node : Node) :
  entityFF doc ESpec node -> soundFF doc (FF.validateSpec node).
Proof.
  intros Hn. unfold FF.validateSpec, FF.validateSpec_os, FF.validateSpec_containers.
  ff. all: eapply containersLoop_sound; eauto.
Qed.

Lemma validateMetadata_sound (node : Node) :
  entityFF doc EMetadata node -> soundFF doc (FF.validateMetadata node).
Proof. intros Hn. unfold FF.validateMetadata. ff. Qed.

Lemma validatePod_sound : soundFF doc (FF.validatePod doc).
Proof.
  unfold FF.validatePod. destruct (negb (isMapping doc)) eqn:Hm; norm.
  - apply sound_wrong. by apply wrongFF_top.
  - assert (Hd : entityFF doc EDoc doc) by (by apply ent_doc).
    ff.
    + by apply validateMetadata_sound.
    + by apply validateSpec_sound.
Qed.

End SoundValidators.

(** * Empty [containers] (C1) *)

(** C1 as stated fails on the accumulate-all program: a manifest with
    [containers: []] prints nothing and exits with 0. *)
Lemma empty_containers_accepted :
  Acc.main "pod.yaml" emptyContainersPod = ([], 0).
Proof. reflexivity. Qed.

(** C1, as the code has it.  In the fail-fast program a spec whose
    [containers] field is a sequence without elements is never
    accepted: the [containers] check returns "containers value out of
    range" at the sequence's line, and that is the result of
    [validateSpec] whenever the [os] check, which comes first, has
    nothing to report.  In the accumulate-all program the same
    sequence adds no violation: the spec reports what its [os] block
    reports. *)
Theorem empty_containers (node cn : Node) :
  isSequence cn = true -> Content cn = [] ->
  (FF.getMapValue node "containers" = Ret (Some cn) ->
     FF.validateSpec_containers node = FF.atLine cn "containers value out of range"
     /\ FF.validateSpec node <> Ret None
     /\ (FF.validateSpec_os node = Ret None ->
         FF.validateSpec node = FF.atLine cn "containers value out of range"))
  /\ (isMapping node = true -> Acc.mapify node !! "containers" = Some cn ->
      forall s, Acc.validateSpec node s = Acc.validateSpec_os (Acc.mapify node) s).
Proof.
  intros Hseq Hempty. split.
  - intros Hg.
    assert (Hc : FF.validateSpec_containers node
                 = FF.atLine cn "containers value out of range").
    { unfold FF.validateSpec_containers. rewrite Hg. cbn [obind].
      rewrite Hseq, Hempty. reflexivity. }
    split; [exact Hc|]. unfold FF.validateSpec. rewrite Hc. split.
    + destruct (FF.validateSpec_os node) as [[e|]|]; discriminate.
    + intros ->. reflexivity.
  - intros Hm Hc s. unfold Acc.validateSpec, Acc.seq. rewrite Hm. cbn [negb].
    unfold Acc.validateSpec_containers. rewrite Hc, Hseq, Hempty. reflexivity.
Qed.

Lemma empty_containers_witness :
  FF.validateSpec (mapping 6 [str 6 "containers"; sequence 6 []])
  = FF.atLine (sequence 6 []) "containers value out of range"
  /\ Acc.validateSpec (mapping 6 [str 6 "containers"; sequence 6 []]) (start "pod.yaml")
     = start "pod.yaml".
Proof.
  destruct (empty_containers (mapping 6 [str 6 "containers"; sequence 6 []])
              (sequence 6 [])) as [HF HA]; [reflexivity|reflexivity|].
  split.
  - apply HF; reflexivity.
  - rewrite HA; reflexivity.
Defined.

(** * The [os] field (C6) *)

(** C6 as stated fails on the fail-fast program: the object form
    [os: {name: linux}] is rejected with "os must be string". *)
Lemma os_mapping_rejected :
  FF.main "pod.yaml" osMappingPod = Ret (["pod.yaml:6 os must be string"], 1).
Proof. reflexivity. Qed.

Lemma validOS_linux_windows (v : string) :
  v = "linux" \/ v = "windows" -> Acc.index Acc.validOS v = true.
Proof. intros [->| ->]; reflexivity. Qed.

Lemma validOS_only (v : string) :
  Acc.index Acc.validOS v = true -> v = "linux" \/ v = "windows".
Proof.
  unfold Acc.index, Acc.validOS. rewrite !lookup_insert, lookup_empty.
  repeat case_decide; subst; cbn; first [by left | by right | discriminate].
Qed.

Lemma fail_changes (l : Z) (m : string) (s : Acc.Run) : Acc.fail l m s <> s.
Proof.
  intros H. apply (f_equal (fun r => Acc.errs (Acc.vd r))) in H. cbn in H. lia.
Qed.

(** C6, as the code has it.  Accumulate-all: an [os] field adds no
    violation exactly when it is a scalar with value "linux" or
    "windows", or a mapping whose [name] is a string with one of these
    values; in every other case exactly one violation is printed: the
    unsupported value at the scalar's line, the absent [name] at the
    mapping's line, the wrong type or value of [name] at the line of
    [name], or "os must be string or object" at the line of a node of
    another kind.  Fail-fast: only the bare string form is accepted.
    The check succeeds exactly when the node is a string scalar with
    value "linux" or "windows"; a node that is not a string scalar (a
    mapping, a sequence, a number) gives "os must be string" at its
    line, and a string scalar with another value gives the unsupported
    value at its line. *)
Theorem os_field (osn : Node) :
  (forall m s,
     m !! "os" = Some osn ->
     (Acc.validateSpec_os m s = s
      <-> (NKind osn = ScalarNode /\ (Value osn = "linux" \/ Value osn = "windows"))
          \/ (NKind osn = MappingNode
              /\ exists n, Acc.mapify osn !! "name" = Some n /\ Acc.isString n = true
                           /\ (Value n = "linux" \/ Value n = "windows")))
     /\ (NKind osn = ScalarNode ->
         ~ (Value osn = "linux" \/ Value osn = "windows") ->
         Acc.validateSpec_os m s
         = Acc.fail (Line osn) ("os has unsupported value '" +:+ Value osn +:+ "'") s)
     /\ (NKind osn = MappingNode ->
         (Acc.mapify osn !! "name" = None ->
          Acc.validateSpec_os m s = Acc.fail (Line osn) "name is required" s)
         /\ (forall n,
               Acc.mapify osn !! "name" = Some n ->
               (Acc.isString n = false ->
                Acc.validateSpec_os m s = Acc.fail (Line n) "name must be string" s)
               /\ (Acc.isString n = true ->
                   ~ (Value n = "linux" \/ Value n = "windows") ->
                   Acc.validateSpec_os m s
                   = Acc.fail (Line n)
                       ("name has unsupported value '" +:+ Value n +:+ "'") s)))
     /\ (NKind osn <> ScalarNode -> NKind osn <> MappingNode ->
         Acc.validateSpec_os m s = Acc.fail (Line osn) "os must be string or object" s))
  /\ (forall node,
        FF.getMapValue node "os" = Ret (Some osn) ->
        (FF.validateSpec_os node = Ret None
         <-> NKind osn = ScalarNode /\ Tag osn = "!!str"
             /\ (Value osn = "linux" \/ Value osn = "windows"))
        /\ (NKind osn <> ScalarNode \/ Tag osn <> "!!str" ->
            FF.validateSpec_os node = FF.atLine osn "os must be string")
        /\ (NKind osn = ScalarNode -> Tag osn = "!!str" ->
            ~ (Value osn = "linux" \/ Value osn = "windows") ->
            FF.validateSpec_os node
            = FF.atLine osn ("os has unsupported value '" +:+ Value osn +:+ "'"))
        /\ (NKind osn = MappingNode ->
            FF.validateSpec_os node = FF.atLine osn "os must be string")).
Proof.
  split.
  - intros m s Hm. unfold Acc.validateSpec_os. rewrite Hm.
    assert (Hidx : forall v, Acc.index Acc.validOS v = false
                             <-> ~ (v = "linux" \/ v = "windows")).
    { intros v. split.
      - intros H Hv. apply validOS_linux_windows in Hv. congruence.
      - intros H. destruct (Acc.index Acc.validOS v) eqn:E; [|reflexivity].
        by apply validOS_only in E. }
    split; [|split; [|split]].
    + split.
      * intros H. destruct (NKind osn) eqn:Hk; try (by apply fail_changes in H).
        -- right. split; [reflexivity|]. cbv zeta in H.
           destruct (Acc.mapify osn !! "name") as [n|] eqn:En;
             [|by apply fail_changes in H].
           exists n. split; [reflexivity|].
           destruct (Acc.isString n) eqn:Es; cbn [negb] in H;
             [|by apply fail_changes in H].
           split; [reflexivity|].
           destruct (Acc.index Acc.validOS (Value n)) eqn:E;
             [by apply validOS_only|by apply fail_changes in H].
        -- left. split; [reflexivity|].
           destruct (Acc.index Acc.validOS (Value osn)) eqn:E;
             [by apply validOS_only|by apply fail_changes in H].
      * intros [[Hk Hv]|(Hk & n & Hn & Hs & Hv)]; rewrite Hk.
        -- by rewrite (validOS_linux_windows _ Hv).
        -- cbv zeta. rewrite Hn, Hs. cbn [negb].
           by rewrite (validOS_linux_windows _ Hv).
    + intros Hk Hv. rewrite Hk. apply Hidx in Hv. by rewrite Hv.
    + intros Hk. rewrite Hk. cbv zeta. split.
      * intros Hn. by rewrite Hn.
      * intros n Hn. rewrite Hn. split.
        -- intros Hs. by rewrite Hs.
        -- intros Hs Hv. apply Hidx in Hv. by rewrite Hs, Hv.
    + intros H1 H2. destruct (NKind osn); congruence.
  - intros node Hg. unfold FF.validateSpec_os. rewrite Hg. cbn [obind].
    unfold FF.ensureString, isScalar, FF.atLine.
    destruct (decide (NKind osn = ScalarNode)) as [Hk|Hk].
    + rewrite bool_decide_eq_true_2 by exact Hk. cbn [negb orb].
      destruct (String.eqb_spec (Tag osn) "!!str") as [Ht|Ht]; cbn [negb FF.andThen].
      * destruct (String.eqb_spec (Value osn) "linux") as [Hl|Hl]; cbn [negb andb].
        { repeat split; try tauto; try congruence. }
        destruct (String.eqb_spec (Value osn) "windows") as [Hw|Hw]; cbn [negb andb].
        { repeat split; try tauto; try congruence. }
        repeat split; try tauto; try congruence; try discriminate.
      * repeat split; try tauto; try congruence; try discriminate.
    + rewrite bool_decide_eq_false_2 by exact Hk. cbn [negb orb FF.andThen].
      repeat split; try tauto; try congruence; try discriminate.
Qed.

Lemma os_field_witness :
  Acc.validateSpec_os
    (Acc.mapify (mapping 6 [str 6 "os"; mapping 6 [str 6 "name"; str 6 "linux"]]))
    (start "pod.yaml") = start "pod.yaml"
  /\ FF.validateSpec_os (mapping 6 [str 6 "os"; str 6 "windows"]) = Ret None
  /\ FF.validateSpec_os (mapping 6 [str 6 "os"; mapping 6 [str 6 "name"; str 6 "linux"]])
     = FF.atLine (mapping 6 [str 6 "name"; str 6 "linux"]) "os must be string"
  /\ FF.validateSpec_os (mapping 6 [str 6 "os"; str 6 "macos"])
     = FF.atLine (str 6 "macos") "os has unsupported value 'macos'"
  /\ FF.validateSpec_os (mapping 6 [str 6 "os"; int 6 "7"])
     = FF.atLine (int 6 "7") "os must be string"
  /\ FF.validateSpec_os (mapping 6 [str 6 "os"; sequence 6 []])
     = FF.atLine (sequence 6 []) "os must be string".
Proof.
  split; [|split; [|split; [|split; [|split]]]].
  - destruct (os_field (mapping 6 [str 6 "name"; str 6 "linux"])) as [H _].
    destruct (H (Acc.mapify (mapping 6 [str 6 "os";
                                         mapping 6 [str 6 "name"; str 6 "linux"]]))
                (start "pod.yaml")) as [[_ Hacc] _]; [reflexivity|].
    apply Hacc. right. split; [reflexivity|].
    exists (str 6 "linux"). repeat split; try reflexivity. by left.
  - destruct (os_field (str 6 "windows")) as [_ H].
    destruct (H (mapping 6 [str 6 "os"; str 6 "windows"])) as [[_ H1] _];
      [reflexivity|].
    apply H1. split; [reflexivity|]. split; [reflexivity|by right].
  - destruct (os_field (mapping 6 [str 6 "name"; str 6 "linux"])) as [_ H].
    destruct (H (mapping 6 [str 6 "os"; mapping 6 [str 6 "name"; str 6 "linux"]]))
      as (_ & _ & _ & H2); [reflexivity|].
    apply H2. reflexivity.
  - destruct (os_field (str 6 "macos")) as [_ H].
    destruct (H (mapping 6 [str 6 "os"; str 6 "macos"])) as (_ & _ & H3 & _);
      [reflexivity|].
    apply H3; [reflexivity|reflexivity|]. intros [|]; discriminate.
  - destruct (os_field (int 6 "7")) as [_ H].
    destruct (H (mapping 6 [str 6 "os"; int 6 "7"])) as (_ & H2 & _);
      [reflexivity|].
    apply H2. right. discriminate.
  - destruct (os_field (sequence 6 [])) as [_ H].
    destruct (H (mapping 6 [str 6 "os"; sequence 6 []])) as (_ & H2 & _);
      [reflexivity|].
    apply H2. left. discriminate.
Defined.

(** * Where accumulate-all violations point (towards C2) *)

Lemma index_validOS (v : string) : Acc.index Acc.validOS v = oneOf ["linux"; "windows"] v.
Proof.
  unfold Acc.index, Acc.validOS, oneOf. rewrite !lookup_insert, lookup_empty.
  cbn [existsb].
  destruct (String.eqb_spec v "linux") as [->|H1]; [reflexivity|].
  destruct (String.eqb_spec v "windows") as [->|H2]; [reflexivity|].
  repeat case_decide; try congruence. reflexivity.
Qed.

Lemma index_validPro (v : string) : Acc.index Acc.validPro v = oneOf ["TCP"; "UDP"] v.
Proof.
  unfold Acc.index, Acc.validPro, oneOf. rewrite !lookup_insert, lookup_empty.
  cbn [existsb].
  destruct (String.eqb_spec v "TCP") as [->|H1]; [reflexivity|].
  destruct (String.eqb_spec v "UDP") as [->|H2]; [reflexivity|].
  repeat case_decide; try congruence. reflexivity.
Qed.

Section GenuineAcc.
Variable doc : Node.

Lemma genuine_absent (ent : entity) (p : Node) (f : string) :
  entityAcc doc ent p -> In f (required ent) -> Acc.mapify p !! f = None ->
  genuineAcc doc (Line p) (f +:+ " is required").
Proof. intros. exists p. split; [reflexivity|]. left. by eapply absentAcc_field. Qed.

Lemma genuine_wrong (n : Node) (m : string) :
  wrongAcc doc n m -> genuineAcc doc (Line n) m.
Proof. intros. exists n. split; [reflexivity|]. by right. Qed.

Lemma genuine_field (ent : entity) (p : Node) (f label : string) (r : rule)
    (n : Node) (m : string) :
  entityAcc doc ent p -> In (f, (label, r)) (rulesAcc ent) ->
  Acc.mapify p !! f = Some n ->
  fault Acc.isString Acc.isInt label r n = Some m ->
  genuineAcc doc (Line n) m.
Proof. intros. apply genuine_wrong. by eapply wrongAcc_field. Qed.

End GenuineAcc.

Ltac acc_norm :=
  repeat match goal with
  | H : negb _ = true |- _ => apply negb_true_iff in H
  | H : negb _ = false |- _ => apply negb_false_iff in H
  | H : context [Acc.index Acc.validOS _] |- _ => rewrite index_validOS in H
  | H : context [Acc.index Acc.validPro _] |- _ => rewrite index_validPro in H
  end.

Ltac child_acc :=
  repeat match goal with
  | He : entityAcc ?d ?pe ?p, E : Acc.mapify ?p !! ?f = Some ?c,
    Hm : isMapping ?c = true |- _ =>
      lazymatch goal with
      | _ : entityAcc d _ c |- _ => fail
      | _ => idtac
      end;
      let H := fresh "He" in
      eassert (H : entityAcc d _ c)
        by (apply (ent_child fieldAcc childrenAcc elementsAcc d pe p f _ c He);
            [in_table|exact E|exact Hm])
  end.

Ltac acc_step :=
  match goal with
  | |- reportsP _ (Acc.seq _ _) => apply rp_seq
  | |- reportsP _ Acc.skip => apply rp_skip
  | |- reportsP _ (Acc.fail _ _) => apply rp_fail
  | |- reportsP _ (if ?b then _ else _) => destruct b eqn:?; acc_norm
  | |- reportsP _ (match Acc.mapify ?p !! ?k with _ => _ end) =>
      let E := fresh "E" in destruct (Acc.mapify p !! k) eqn:E
  | He : entityAcc _ ?ent ?p, E : Acc.mapify ?p !! ?f = None
    |- genuineAcc _ (Line ?p) _ =>
      apply (genuine_absent _ ent p f He); [in_table|exact E]
  | He : entityAcc _ ?ent ?p, E : Acc.mapify ?p !! ?f = Some ?n
    |- genuineAcc _ (Line ?n) _ =>
      eapply (genuine_field _ ent p f _ _ n _ He); [in_table|exact E|fault_solve]
  end.

Ltac acc := cbv zeta; repeat (acc_step; child_acc).

Section GenuineValidators.
Variable doc : Node.

Lemma labelsLoop_genuine (lbs : Node) (c : list Node) :
  entityAcc doc ELabels lbs ->
  (forall kv, In kv (pairs c) -> In kv (pairs (Content lbs))) ->
  reportsP (genuineAcc doc) (Acc.labelsLoop c).
Proof.
  intros Hl.
  induction c as [|k|k v rest IH] using pairs_ind; intros Hin; cbn [Acc.labelsLoop];
    try apply rp_skip.
  assert (Hkv : In (k, v) (pairs (Content lbs))) by (apply Hin; by left).
  apply rp_seq; [|apply rp_seq].
  - destruct (negb _) eqn:Hk; acc_norm; [|apply rp_skip].
    apply rp_fail, genuine_wrong. by apply (wrongAcc_key doc lbs k v).
  - destruct (negb _) eqn:Hv; acc_norm; [|apply rp_skip].
    apply rp_fail, genuine_wrong. by apply (wrongAcc_value doc lbs k v).
  - apply IH. intros kv H. apply Hin. by right.
Qed.

Lemma validateMetadata_genuine (d node : Node) :
  entityAcc doc EDoc d -> Acc.mapify d !! "metadata" = Some node ->
  reportsP (genuineAcc doc) (Acc.validateMetadata node).
Proof.
  intros Hd Hm. unfold Acc.validateMetadata. acc.
  by apply (labelsLoop_genuine n).
Qed.

Lemma validatePort_genuine (c ps node : Node) :
  entityAcc doc EContainer c -> Acc.mapify c !! "ports" = Some ps ->
  isSequence ps = true -> In node (Content ps) ->
  reportsP (genuineAcc doc) (Acc.validatePort node).
Proof.
  intros Hc Hp Hs Hin. unfold Acc.validatePort.
  destruct (negb (isMapping node)) eqn:Hm; acc_norm.
  - apply rp_fail, genuine_wrong.
    apply (wrongAcc_element doc EContainer c "ports" "ports item" EPort ps node);
      first [assumption | in_table].
  - assert (He : entityAcc doc EPort node).
    { apply (ent_element fieldAcc childrenAcc elementsAcc _ EContainer c "ports"
               "ports item" EPort ps node); first [assumption | in_table]. }
    unfold Acc.validatePort_containerPort, Acc.validatePort_protocol. acc.
Qed.

Lemma validateProbe_genuine (c : Node) (f : string) (node : Node) :
  entityAcc doc EContainer c -> f = "readinessProbe" \/ f = "livenessProbe" ->
  Acc.mapify c !! f = Some node ->
  reportsP (genuineAcc doc) (Acc.validateProbe node).
Proof.
  intros Hc [-> | ->] Hf;
    unfold Acc.validateProbe, Acc.validateProbe_path, Acc.validateProbe_port; acc.
Qed.

Lemma validateResKV_genuine (res : Node) (name : string) (node : Node) :
  entityAcc doc EResources res -> name = "limits" \/ name = "requests" ->
  Acc.mapify res !! name = Some node ->
  reportsP (genuineAcc doc) (Acc.validateResKV name node).
Proof.
  intros Hc [-> | ->] Hf; unfold Acc.validateResKV; acc.
Qed.

Lemma validateResources_genuine (c node : Node) :
  entityAcc doc EContainer c -> Acc.mapify c !! "resources" = Some node ->
  reportsP (genuineAcc doc) (Acc.validateResources node).
Proof.
  intros Hc Hf. unfold Acc.validateResources. acc.
  - apply (validateResKV_genuine node "limits"); auto.
  - apply (validateResKV_genuine node "requests"); auto.
Qed.

Lemma validateContainer_genuine (spec cn node : Node) :
  entityAcc doc ESpec spec -> Acc.mapify spec !! "containers" = Some cn ->
  isSequence cn = true -> In node (Content cn) ->
  reportsP (genuineAcc doc) (Acc.validateContainer node).
Proof.
  intros Hc Hp Hs Hin. unfold Acc.validateContainer.
  destruct (negb (isMapping node)) eqn:Hm; acc_norm.
  - apply rp_fail, genuine_wrong.
    apply (wrongAcc_element doc ESpec spec "containers" "container" EContainer cn node);
      first [assumption | in_table].
  - assert (He : entityAcc doc EContainer node).
    { apply (ent_element fieldAcc childrenAcc elementsAcc _ ESpec spec "containers"
               "container" EContainer cn node); first [assumption | in_table]. }
    acc.
    + apply rp_forEach. intros x Hx. by apply (validatePort_genuine node n).
    + apply (validateProbe_genuine node "readinessProbe"); auto.
    + apply (validateProbe_genuine node "livenessProbe"); auto.
    + by apply (validateResources_genuine node).
Qed.

Lemma validateSpec_os_genuine (node : Node) :
  entityAcc doc ESpec node ->
  reportsP (genuineAcc doc) (Acc.validateSpec_os (Acc.mapify node)).
Proof.
  intros Hn. unfold Acc.validateSpec_os.
  destruct (Acc.mapify node !! "os") as [osn|] eqn:E; [|apply rp_skip].
  destruct (NKind osn) eqn:Hk.
  3: { assert (Hm : isMapping osn = true)
         by (unfold isMapping; by rewrite Hk).
       child_acc. acc. }
  all: acc.
Qed.

Lemma validateSpec_genuine (d node : Node) :
  entityAcc doc EDoc d -> Acc.mapify d !! "spec" = Some node ->
  reportsP (genuineAcc doc) (Acc.validateSpec node).
Proof.
  intros Hd Hm. unfold Acc.validateSpec. acc.
  - by apply validateSpec_os_genuine.
  - unfold Acc.validateSpec_containers. acc.
    apply rp_forEach. intros x Hx. by apply (validateContainer_genuine node n).
Qed.

End GenuineValidators.

Lemma validateRoot_genuine (root : Node) :
  reportsP (genuineAcc (docOf root)) (Acc.validateRoot root).
Proof.
  unfold Acc.validateRoot. fold (docOf root).
  destruct (negb (isMapping (docOf root))) eqn:Hm; acc_norm.
  - apply rp_fail, genuine_wrong. by apply wrongAcc_top.
  - assert (Hd : entityAcc (docOf root) EDoc (docOf root)) by (by apply ent_doc).
    acc.
    + by apply (validateMetadata_genuine _ (docOf root)).
    + by apply (validateSpec_genuine _ (docOf root)).
Qed.

(** * Line numbers of violations (C2) *)

(** C2 as stated fails on the accumulate-all program: the absent
    required fields [apiVersion], [metadata] and [spec] are printed
    with the line of the parent mapping, where the fail-fast program
    prints the first of them without a line. *)
Lemma absent_field_printed_with_line :
  Acc.main "pod.yaml" noApiVersionPod
  = (["pod.yaml:1 apiVersion is required"; "pod.yaml:1 metadata is required";
      "pod.yaml:1 spec is required"], 1)
  /\ FF.main "pod.yaml" noApiVersionPod = Ret (["pod.yaml: apiVersion is required"], 1).
Proof. split; reflexivity. Qed.

Lemma fault_not_absence (strOk intOk : Node -> bool) (label : string) (r : rule)
    (n : Node) (m : string) :
  r <> RNonBlank -> fault strOk intOk label r n = Some m -> ~ absenceMsg m.
Proof.
  intros Hr Hf. apply not_absence.
  destruct r; cbn [fault] in Hf; try congruence;
    repeat match type of Hf with
           | context [if ?b then _ else _] => destruct b
           | context [match ?x with _ => _ end] => destruct x
           end;
    try discriminate; injection Hf as <-;
    first [ rewrite lastChar_quoted2; discriminate
          | rewrite lastChar_app_cons; vm_compute; discriminate ].
Qed.

Lemma wrongFF_not_absence (doc n : Node) (m : string) :
  wrongFF doc n m -> ~ absenceMsg m.
Proof.
  intros [Hm|ent p f label r x m' He Ht Hg Hf|pe p f label ce sq c He Ht Hg Hs Hc Hm
         |q k v label r m' He Hin Ht Hf].
  - apply not_absence. vm_compute. discriminate.
  - eapply fault_not_absence; [|exact Hf].
    destruct ent; simpl in Ht; intuition (try congruence).
  - apply not_absence. rewrite lastChar_app_cons. vm_compute. discriminate.
  - eapply fault_not_absence; [|exact Hf].
    simpl in Ht; intuition (try congruence).
Qed.

Lemma lines_genuine (root : Node) (f : string) :
  Forall (fun ln => exists n m,
            ln = f +:+ ":" +:+ itoa (Line n) +:+ " " +:+ m
            /\ (absentAcc (docOf root) n m \/ wrongAcc (docOf root) n m))
         (lines (Acc.validateRoot root) f).
Proof.
  destruct (validateRoot_genuine root) as (vs & Hvs & Hrun).
  unfold lines. rewrite Hrun. cbn [emitAll Acc.stdout start app].
  apply Forall_map. eapply Forall_impl; [exact Hvs|].
  intros [l m] H. cbn in H. destruct H as (n & -> & Hm). by exists n, m.
Qed.

(** C2, as the code has it.  Both programs print a wrong type or a
    wrong value with the line of the value that fails: the node that
    the accessor returns for the field of an entity of the schema (or
    the element of [containers] or [ports], the value of a [cpu] or
    [memory] entry, a [labels] key or value, the top of the document),
    which breaks the rule of that field, with the message of that
    rule.  They differ on a required field that its parent lacks.
    The fail-fast program, whose run prints at most one line, gives
    such a violation no line and prints "<file>: <message>"; a
    violation with a line is never an absence message.  The
    accumulate-all program prints every violation with a line segment,
    and for an absent required field that line is the one of the
    parent mapping: [requiredField] reports an absent field at the
    line of the parent, and so does [validateRoot] for an absent
    [apiVersion]. *)
Theorem violation_lines :
  (forall path root out code,
     FF.main path root = Ret (out, code) ->
     (out = [] /\ code = 0)
     \/ exists e,
          FF.run root = Ret (Some e) /\ out = [FF.render path e] /\ code = 1
          /\ ((FF.line e = None
               /\ FF.render path e = path +:+ ": " +:+ FF.msg e
               /\ ((Content root = [] /\ FF.msg e = "apiVersion is required")
                   \/ exists doc p,
                        head (Content root) = Some doc
                        /\ absentFF doc p (FF.msg e)))
              \/ (exists doc n,
                    head (Content root) = Some doc
                    /\ FF.line e = Some (Line n)
                    /\ wrongFF doc n (FF.msg e)
                    /\ ~ absenceMsg (FF.msg e)
                    /\ FF.render path e
                       = path +:+ ":" +:+ itoa (Line n) +:+ " " +:+ FF.msg e)))
  /\ (forall doc,
        isMapping doc = true -> FF.getMapValue doc "apiVersion" = Ret None ->
        FF.validatePod doc = FF.noLine "apiVersion is required")
  /\ (forall f root,
        Forall (fun ln => exists n m,
                  ln = f +:+ ":" +:+ itoa (Line n) +:+ " " +:+ m
                  /\ (absentAcc (docOf root) n m \/ wrongAcc (docOf root) n m))
               (fst (Acc.main f root)))
  /\ (forall node field s,
        Acc.mapify node !! field = None ->
        Acc.requiredField node field s
        = (None, Acc.fail (Line node) (field +:+ " is required") s))
  /\ (forall f root,
        isMapping root = true -> Acc.mapify root !! "apiVersion" = None ->
        exists rest,
          lines (Acc.validateRoot root) f
          = (f +:+ ":" +:+ itoa (Line root) +:+ " apiVersion is required") :: rest).
Proof.
  split; [|split; [|split; [|split]]].
  - intros path root out code. unfold FF.main.
    destruct (FF.run root) as [[e|]|] eqn:Hrun; cbn [obind]; [| |discriminate].
    + intros [= <- <-]. right. exists e. repeat split.
      unfold FF.run in Hrun. destruct (Content root) as [|doc rest] eqn:Ec.
      * injection Hrun as <-. left. repeat split. by left.
      * destruct (validatePod_sound doc e Hrun) as [[Hl (p & Hp)]|(n & Hl & Hn)].
        -- left. unfold FF.render. rewrite Hl. repeat split. right. by exists doc, p.
        -- right. exists doc, n. unfold FF.render. rewrite Hl. repeat split; auto.
           by apply (wrongFF_not_absence doc n).
    + intros [= <- <-]. by left.
  - intros doc Hm Hg. unfold FF.validatePod. by rewrite Hm, Hg.
  - intros f root. apply lines_genuine.
  - intros node field s H. unfold Acc.requiredField. by rewrite H.
  - intros f root Hm Ha. unfold Acc.validateRoot.
    assert (Hd : match NKind root, Content root with
                 | DocumentNode, d :: _ => d
                 | _, _ => root
                 end = root).
    { unfold isMapping in Hm. apply bool_decide_eq_true in Hm. by rewrite Hm. }
    rewrite Hd, Hm. cbn [negb]. cbv zeta. rewrite Ha.
    assert (Hsub : sub root root) by apply sub_refl.
    rewrite (lines_seq (lineIn root)).
    + eexists. reflexivity.
    + rp.
    + rp; first [apply validateMetadata_reports|apply validateSpec_reports];
        eauto using sub_step.
Qed.

Lemma violation_lines_witness :
  ((["pod.yaml: apiVersion is required"] = [] /\ 1 = 0)
   \/ exists e,
        FF.run noApiVersionPod = Ret (Some e)
        /\ ["pod.yaml: apiVersion is required"] = [FF.render "pod.yaml" e] /\ 1 = 1
        /\ ((FF.line e = None
             /\ FF.render "pod.yaml" e = "pod.yaml" +:+ ": " +:+ FF.msg e
             /\ ((Content noApiVersionPod = [] /\ FF.msg e = "apiVersion is required")
                 \/ exists doc p,
                      head (Content noApiVersionPod) = Some doc
                      /\ absentFF doc p (FF.msg e)))
            \/ (exists doc n,
                  head (Content noApiVersionPod) = Some doc
                  /\ FF.line e = Some (Line n)
                  /\ wrongFF doc n (FF.msg e)
                  /\ ~ absenceMsg (FF.msg e)
                  /\ FF.render "pod.yaml" e
                     = "pod.yaml" +:+ ":" +:+ itoa (Line n) +:+ " " +:+ FF.msg e)))
  /\ FF.validatePod kindOnly = FF.noLine "apiVersion is required"
  /\ Acc.requiredField kindOnly "apiVersion" (start "pod.yaml")
     = (None, Acc.fail 1 "apiVersion is required" (start "pod.yaml"))
  /\ exists rest,
       lines (Acc.validateRoot kindOnly) "pod.yaml"
       = "pod.yaml:1 apiVersion is required" :: rest.
Proof.
  destruct violation_lines as (H1 & H2 & _ & H4 & H5).
  split; [|split; [|split]].
  - apply (H1 "pod.yaml" noApiVersionPod). reflexivity.
  - apply (H2 kindOnly); reflexivity.
  - apply (H4 kindOnly "apiVersion"). reflexivity.
  - apply (H5 "pod.yaml" kindOnly); reflexivity.
Defined.

(** * Further properties: the two accessors *)

Lemma filter_key_NoDup (key : string) (ps : list (Node * Node)) :
  NoDup (map keyOf ps) -> (length (List.filter (keyValueIs key) ps) <= 1)%nat.
Proof.
  induction ps as [|kv ps IH]; intros Hnd; cbn [List.filter length map] in *; [lia|].
  apply NoDup_cons in Hnd as [Hnotin Hnd].
  unfold keyValueIs at 1. destruct (String.eqb_spec (Value kv.1) key) as [Hk|Hk].
  - cbn [length]. assert (List.filter (keyValueIs key) ps = []) as ->; [|cbn; lia].
    destruct (List.filter (keyValueIs key) ps) as [|x xs] eqn:E; [reflexivity|].
    exfalso. apply Hnotin.
    assert (Hx : In x (List.filter (keyValueIs key) ps)) by (rewrite E; by left).
    apply filter_In in Hx as [Hx Hxk]. unfold keyValueIs in Hxk.
    apply String.eqb_eq in Hxk. apply list_elem_of_In, in_map_iff.
    exists x. split; [|exact Hx]. unfold keyOf. congruence.
  - by apply IH.
Qed.

Lemma filter_scalar_keys (key : string) (ps : list (Node * Node)) :
  Forall (fun kv => isScalar (fst kv) = true) ps ->
  List.filter (scalarKeyIs key) ps = List.filter (keyValueIs key) ps.
Proof.
  induction 1 as [|kv ps Hs _ IH]; [reflexivity|]. cbn [List.filter].
  unfold scalarKeyIs at 1, keyValueIs at 1. rewrite Hs, IH. reflexivity.
Qed.

Lemma head_last_short {A} (l : list A) : (length l <= 1)%nat -> head l = last l.
Proof. destruct l as [|x [|y l]]; cbn; intros; try reflexivity; lia. Qed.

(** On a mapping with an even number of children whose keys are
    scalars with pairwise different values, the two accessors return
    the same answer for every key. *)
Theorem accessors_agree (n : Node) (key : string) :
  Nat.even (length (Content n)) = true ->
  Forall (fun kv => isScalar (fst kv) = true) (pairs (Content n)) ->
  NoDup (map keyOf (pairs (Content n))) ->
  FF.getMapValue n key = Ret (Acc.mapify n !! key).
Proof.
  intros Heven Hscalar Hnd. unfold FF.getMapValue, Acc.mapify.
  destruct (isMapping n); cbn [negb]; [|by rewrite lookup_empty].
  rewrite getMapValue_loop_spec, mapify_loop_lookup, lookup_empty, Heven.
  rewrite (filter_scalar_keys key _ Hscalar).
  rewrite head_last_short.
  - by destruct (last _).
  - rewrite length_map. by apply filter_key_NoDup.
Qed.

Lemma accessors_agree_witness :
  FF.getMapValue goodContainer "image"
  = Ret (Acc.mapify goodContainer !! "image").
Proof.
  apply accessors_agree.
  - reflexivity.
  - repeat constructor.
  - cbn. repeat (apply NoDup_cons_2;
                 [intros Hx%list_elem_of_In; cbn in Hx; intuition discriminate|]).
    apply NoDup_nil_2.
Defined.

(** [getMapValue] panics exactly on a mapping with a dangling last key
    none of whose paired keys has the requested value: only then does
    the scan reach [Content[i+1]] beyond the end. *)
Theorem getMapValue_panics (n : Node) (key : string) :
  FF.getMapValue n key = Panic
  <-> isMapping n = true /\ Nat.even (length (Content n)) = false
      /\ Forall (fun kv => keyOf kv <> key) (pairs (Content n)).
Proof.
  unfold FF.getMapValue. destruct (isMapping n); cbn [negb];
    [|split; [discriminate|intros (H & _); discriminate]].
  rewrite getMapValue_loop_spec.
  assert (Hf : head (map snd (List.filter (keyValueIs key) (pairs (Content n)))) = None
               <-> Forall (fun kv => keyOf kv <> key) (pairs (Content n))).
  { induction (pairs (Content n)) as [|kv ps IH]; cbn [List.filter].
    - split; [constructor|reflexivity].
    - unfold keyValueIs at 1. destruct (String.eqb_spec (Value kv.1) key) as [Hk|Hk].
      + split; [discriminate|]. intros H. apply Forall_cons in H as [H _].
        by destruct H.
      + rewrite IH. split; [by constructor|]. intros H.
        by apply Forall_cons in H as [_ H]. }
  destruct (head _) as [v|].
  - split; [discriminate|]. intros (_ & _ & H). apply Hf in H. discriminate.
  - destruct (Nat.even _); split; try discriminate; try reflexivity.
    + intros (_ & H & _). discriminate.
    + intros _. repeat split. by apply Hf.
Qed.

(** * Further properties: the fail-fast program does not panic on parsed trees *)

Lemma evenMappings_children (p n : Node) :
  evenMappings p = true -> In n (Content p) -> evenMappings n = true.
Proof.
  destruct p as [k t v c l]. cbn [evenMappings Content].
  intros H Hn. apply andb_true_iff in H as [_ H].
  rewrite forallb_forall in H. by apply H.
Qed.

Lemma evenMappings_sub (r n : Node) :
  evenMappings r = true -> sub n r -> evenMappings n = true.
Proof.
  intros Hr Hs. induction Hs as [n|n p r Hn Hp IH]; [exact Hr|].
  eapply evenMappings_children; [by apply IH|exact Hn].
Qed.

Lemma evenMappings_even (n : Node) :
  evenMappings n = true -> isMapping n = true -> Nat.even (length (Content n)) = true.
Proof.
  destruct n as [k t v c l]. unfold isMapping. cbn [evenMappings Content NKind].
  intros H Hk. rewrite Hk in H. by apply andb_true_iff in H as [H _].
Qed.

Lemma getMapValue_safe (n : Node) (key : string) :
  evenMappings n = true -> FF.getMapValue n key <> Panic.
Proof.
  intros Hn. unfold FF.getMapValue.
  destruct (isMapping n) eqn:Hm; cbn [negb]; [|discriminate].
  rewrite getMapValue_loop_spec, (evenMappings_even n Hn Hm).
  destruct (head _); discriminate.
Qed.

Lemma andThen_safe (a b : outcome FF.error) :
  a <> Panic -> b <> Panic -> FF.andThen a b <> Panic.
Proof. destruct a as [[e|]|]; cbn [FF.andThen]; congruence. Qed.

Lemma validateResourceMap_loop_safe (c : list Node) :
  Nat.even (length c) = true -> FF.validateResourceMap_loop c <> Panic.
Proof.
  induction c as [|k|k v rest IH] using pairs_ind; cbn [length Nat.even];
    [discriminate|discriminate|].
  intros H. cbn [FF.validateResourceMap_loop]. apply andThen_safe; [|by apply IH].
  repeat match goal with
         | |- (if ?b then _ else _) <> Panic => destruct b
         | |- FF.andThen _ _ <> Panic => apply andThen_safe
         | |- _ => discriminate
         end.
Qed.

Section NoPanic.
Variable r : Node.
Hypothesis Hr : evenMappings r = true.

Ltac np_step :=
  match goal with
  | |- FF.andThen _ _ <> Panic => apply andThen_safe
  | |- obind (FF.getMapValue ?p ?f) _ <> Panic =>
      let E := fresh "E" in
      destruct (FF.getMapValue p f) as [[?|]|] eqn:E; cbn [obind];
      [apply getMapValue_In in E| |
       exfalso; revert E; apply getMapValue_safe, (evenMappings_sub r);
       [exact Hr|eauto using sub_step]]
  | |- (if ?b then _ else _) <> Panic => destruct b eqn:?
  | |- Ret _ <> Panic => discriminate
  | |- FF.atLine _ _ <> Panic => discriminate
  | |- FF.noLine _ <> Panic => discriminate
  end.

Ltac np := cbv zeta; repeat np_step.

Lemma validateResourceMap_safe (node : Node) :
  sub node r -> negb (isMapping node) = false -> FF.validateResourceMap node <> Panic.
Proof.
  intros Hn Hm. apply validateResourceMap_loop_safe, evenMappings_even.
  - by apply (evenMappings_sub r).
  - by apply negb_false_iff.
Qed.

Lemma validateResources_safe (node : Node) :
  sub node r -> FF.validateResources node <> Panic.
Proof.
  intros Hn. unfold FF.validateResources. np;
    apply validateResourceMap_safe; eauto using sub_step.
Qed.

Lemma validateProbe_safe (node : Node) : sub node r -> FF.validateProbe node <> Panic.
Proof. intros Hn. unfold FF.validateProbe, FF.validateProbe_port. np. Qed.

Lemma validateContainerPort_safe (node : Node) :
  sub node r -> FF.validateContainerPort node <> Panic.
Proof.
  intros Hn. unfold FF.validateContainerPort, FF.validateContainerPort_protocol. np.
Qed.

Lemma portsLoop_safe (ps : list Node) :
  (forall n, In n ps -> sub n r) -> FF.portsLoop ps <> Panic.
Proof.
  induction ps as [|p ps IH]; intros H; cbn [FF.portsLoop]; [discriminate|].
  np.
  - apply validateContainerPort_safe, H. by left.
  - apply IH. intros n Hn. apply H. by right.
Qed.

Lemma validateImage_safe (node : Node) : FF.validateImage node <> Panic.
Proof. unfold FF.validateImage. np. Qed.

Lemma validateContainer_safe (node : Node) :
  sub node r -> FF.validateContainer node <> Panic.
Proof.
  intros Hn. unfold FF.validateContainer. np.
  - apply validateImage_safe.
  - apply portsLoop_safe. eauto using sub_step.
  - apply validateProbe_safe. eauto using sub_step.
  - apply validateProbe_safe. eauto using sub_step.
  - apply validateResources_safe. eauto using sub_step.
Qed.

Lemma containersLoop_safe (cs : list Node) :
  (forall n, In n cs -> sub n r) -> FF.containersLoop cs <> Panic.
Proof.
  induction cs as [|c cs IH]; intros H; cbn [FF.containersLoop]; [discriminate|].
  np.
  - apply validateContainer_safe, H. by left.
  - apply IH. intros n Hn. apply H. by right.
Qed.

Lemma validateSpec_safe (node : Node) : sub node r -> FF.validateSpec node <> Panic.
Proof.
  intros Hn. unfold FF.validateSpec, FF.validateSpec_os, FF.validateSpec_containers.
  np. apply containersLoop_safe. eauto using sub_step.
Qed.

Lemma validateMetadata_safe (node : Node) :
  sub node r -> FF.validateMetadata node <> Panic.
Proof. intros Hn. unfold FF.validateMetadata. np. Qed.

Lemma validatePod_safe (doc : Node) : sub doc r -> FF.validatePod doc <> Panic.
Proof.
  intros Hn. unfold FF.validatePod. np.
  - apply validateMetadata_safe. eauto using sub_step.
  - apply validateSpec_safe. eauto using sub_step.
Qed.

End NoPanic.

(** On a tree in which every mapping has an even number of children
    the fail-fast program never reaches an index beyond the end of a
    [Content] slice: [run] returns an error or nil, and [main] an exit
    status. *)
Theorem run_never_panics (path : string) (root : Node) :
  evenMappings root = true ->
  FF.run root <> Panic /\ FF.main path root <> Panic.
Proof.
  intros Hr.
  assert (H : FF.run root <> Panic).
  { unfold FF.run. destruct (Content root) as [|doc rest] eqn:E; [discriminate|].
    apply (validatePod_safe root Hr). eapply sub_child; [|apply sub_refl].
    rewrite E. by left. }
  split; [exact H|]. unfold FF.main.
  destruct (FF.run root) as [[e|]|]; cbn [obind]; [discriminate|discriminate|].
  by destruct H.
Qed.

Lemma run_never_panics_witness :
  FF.run (podWith [str 6 "containers"; sequence 7 [goodContainer; emptyContainer]])
  <> Panic
  /\ FF.main "pod.yaml"
       (podWith [str 6 "containers"; sequence 7 [goodContainer; emptyContainer]])
     <> Panic.
Proof. apply run_never_panics. reflexivity. Defined.

(** * Further properties: the error counter and the output *)

(** A pass of the accumulate-all validator over any document, started
    in any state, keeps the file name, leaves what was printed before
    in place, appends lines that do not depend on that state, and
    raises the error counter by the number of lines it appends. *)
Theorem validateRoot_frame (root : Node) (s : Acc.Run) :
  Acc.file (Acc.vd (Acc.validateRoot root s)) = Acc.file (Acc.vd s)
  /\ Acc.stdout (Acc.validateRoot root s)
     = Acc.stdout s ++ lines (Acc.validateRoot root) (Acc.file (Acc.vd s))
  /\ Acc.errs (Acc.vd (Acc.validateRoot root s))
     = Acc.errs (Acc.vd s)
       + Z.of_nat (length (lines (Acc.validateRoot root) (Acc.file (Acc.vd s)))).
Proof.
  rewrite (reportsP_frame _ _ (validateRoot_reports root) s). by repeat split.
Qed.

(** * Further properties: the fail-fast loops *)

Lemma containersLoop_cons (c : Node) (rest : list Node) :
  FF.containersLoop (c :: rest) = FF.andThen (containerCheck c) (FF.containersLoop rest).
Proof.
  cbn [FF.containersLoop]. unfold containerCheck, FF.atLine.
  by destruct (negb (isMapping c)).
Qed.

Lemma portsLoop_cons (p : Node) (rest : list Node) :
  FF.portsLoop (p :: rest) = FF.andThen (portCheck p) (FF.portsLoop rest).
Proof.
  cbn [FF.portsLoop]. unfold portCheck, FF.atLine.
  by destruct (negb (isMapping p)).
Qed.

Lemma andThen_fails (a b : outcome FF.error) : a <> Ret None -> FF.andThen a b = a.
Proof.
  destruct a as [[e|]|]; cbn [FF.andThen]; intros H; try reflexivity. by destruct H.
Qed.

Lemma andThen_none (a b : outcome FF.error) :
  FF.andThen a b = Ret None <-> a = Ret None /\ b = Ret None.
Proof.
  destruct a as [[e|]|]; cbn [FF.andThen]; split; try discriminate; try tauto;
    intros [H _]; discriminate.
Qed.

(** The fail-fast loops over the containers and over the ports of a
    container succeed exactly when every element passes its check, and
    otherwise return what the first element that does not pass
    returns, whatever follows it. *)
Theorem loops_stop_at_first_failure :
  (forall cs,
     FF.containersLoop cs = Ret None
     <-> Forall (fun c => containerCheck c = Ret None) cs)
  /\ (forall ps,
        FF.portsLoop ps = Ret None <-> Forall (fun p => portCheck p = Ret None) ps)
  /\ (forall before c after,
        Forall (fun c => containerCheck c = Ret None) before ->
        containerCheck c <> Ret None ->
        FF.containersLoop (before ++ c :: after) = containerCheck c)
  /\ (forall before p after,
        Forall (fun p => portCheck p = Ret None) before ->
        portCheck p <> Ret None ->
        FF.portsLoop (before ++ p :: after) = portCheck p).
Proof.
  split; [|split; [|split]].
  - induction cs as [|c cs IH]; [split; [constructor|reflexivity]|].
    rewrite containersLoop_cons, andThen_none, IH, Forall_cons. reflexivity.
  - induction ps as [|p ps IH]; [split; [constructor|reflexivity]|].
    rewrite portsLoop_cons, andThen_none, IH, Forall_cons. reflexivity.
  - intros before c after Hb Hc. induction Hb as [|x before Hx _ IH].
    + cbn [app]. rewrite containersLoop_cons. by apply andThen_fails.
    + cbn [app]. rewrite containersLoop_cons, Hx. exact IH.
  - intros before p after Hb Hp. induction Hb as [|x before Hx _ IH].
    + cbn [app]. rewrite portsLoop_cons. by apply andThen_fails.
    + cbn [app]. rewrite portsLoop_cons, Hx. exact IH.
Qed.

Lemma loops_stop_at_first_failure_witness :
  FF.containersLoop [goodContainer; emptyContainer; str 18 "x"]
  = containerCheck emptyContainer
  /\ FF.portsLoop [portItem "80"; portItem "0"; portItem "x"]
     = portCheck (portItem "0").
Proof.
  destruct loops_stop_at_first_failure as (_ & _ & Hc & Hp). split.
  - apply (Hc [goodContainer] emptyContainer [str 18 "x"]).
    + repeat constructor.
    + discriminate.
  - apply (Hp [portItem "80"] (portItem "0") [portItem "x"]).
    + repeat constructor.
    + discriminate.
Defined.

(** * Further properties: resource maps *)

(** The fail-fast check of a [limits] or [requests] mapping succeeds
    exactly when the mapping has an even number of children and every
    entry is acceptable: each [cpu] entry an integer, each [memory]
    entry a string in the memory format, every occurrence checked;
    entries under any other key are ignored. *)
Theorem validateResourceMap_accepts (node : Node) :
  FF.validateResourceMap node = Ret None
  <-> Nat.even (length (Content node)) = true
      /\ Forall resourceEntryOk (pairs (Content node)).
Proof.
  unfold FF.validateResourceMap.
  induction (Content node) as [|k|k v rest IH] using pairs_ind.
  - split; [by split; [|constructor]|reflexivity].
  - split; [discriminate|]. intros [H _]. discriminate.
  - cbn [FF.validateResourceMap_loop pairs length Nat.even].
    rewrite andThen_none, IH, Forall_cons.
    assert (Hentry :
      (if (Value k =? "cpu")%string then Ret (FF.ensureInt v "cpu")
       else if (Value k =? "memory")%string
            then FF.andThen (Ret (FF.ensureString v "memory"))
                   (if negb (FF.isValidMemory (Value v))
                    then FF.atLine v ("memory has invalid format '" +:+ Value v +:+ "'")
                    else Ret None)
            else Ret None) = Ret None
      <-> resourceEntryOk (k, v)).
    { unfold resourceEntryOk, keyOf. cbn [fst snd].
      destruct (String.eqb_spec (Value k) "cpu") as [Hc|Hc].
      - split.
        + intros [= H]. split; [done|]. rewrite Hc. discriminate.
        + intros [H _]. by rewrite H.
      - destruct (String.eqb_spec (Value k) "memory") as [Hm|Hm].
        + rewrite andThen_none. split.
          * intros [[= Hs] Hv]. split; [done|]. intros _. split; [exact Hs|].
            destruct (FF.isValidMemory (Value v)); [reflexivity|discriminate].
          * intros [_ H]. destruct (H Hm) as [Hs Hv]. by rewrite Hs, Hv.
        + split; [|reflexivity]. intros _. split; [done|]. intros H. by destruct Hm. }
    rewrite Hentry. tauto.
Qed.

(** * Further properties: labels and the enumeration tables *)

Lemma labelCheck_emits (b : bool) (l : Z) (m : string) :
  reportsP (fun _ _ => True) (if b then Acc.fail l m else Acc.skip).
Proof. destruct b; [by apply rp_fail|apply rp_skip]. Qed.

Lemma labelsLoop_emits (c : list Node) : reportsP (fun _ _ => True) (Acc.labelsLoop c).
Proof.
  induction c as [|k|k v rest IH] using pairs_ind; cbn [Acc.labelsLoop];
    try apply rp_skip.
  apply rp_seq; [apply labelCheck_emits|].
  apply rp_seq; [apply labelCheck_emits|exact IH].
Qed.

(** The accumulate-all check of a [labels] mapping prints nothing
    exactly when every key and every value of its pairs carries the
    string tag; a dangling last key is not looked at. *)
Theorem labelsLoop_accepts (c : list Node) (f : string) :
  lines (Acc.labelsLoop c) f = []
  <-> Forall (fun kv => Tag (fst kv) = "!!str" /\ Tag (snd kv) = "!!str") (pairs c).
Proof.
  induction c as [|k|k v rest IH] using pairs_ind; cbn [Acc.labelsLoop pairs].
  - split; [constructor|reflexivity].
  - split; [constructor|reflexivity].
  - rewrite Forall_cons. cbn [fst snd]. rewrite <- IH.
    rewrite (lines_seq (fun _ _ => True));
      [|apply labelCheck_emits
       |apply rp_seq; [apply labelCheck_emits|apply labelsLoop_emits]].
    rewrite (lines_seq (fun _ _ => True));
      [|apply labelCheck_emits|apply labelsLoop_emits].
    destruct (String.eqb_spec (Tag k) "!!str") as [Hk|Hk],
             (String.eqb_spec (Tag v) "!!str") as [Hv|Hv]; cbn [negb].
    + change (lines Acc.skip f) with (@nil string). cbn [app]. tauto.
    + split; [discriminate|tauto].
    + split; [discriminate|tauto].
    + split; [discriminate|tauto].
Qed.

(** The tables [validOS] and [validPro] of the accumulate-all program
    hold exactly the values that the fail-fast program compares
    against: each program rejects an [os] or [protocol] value exactly
    when the other does. *)
Theorem enumerations_agree (v : string) :
  negb (Acc.index Acc.validOS v)
  = negb (String.eqb v "linux") && negb (String.eqb v "windows")
  /\ negb (Acc.index Acc.validPro v)
     = negb (String.eqb v "TCP") && negb (String.eqb v "UDP").
Proof.
  unfold Acc.index, Acc.validOS, Acc.validPro. rewrite !lookup_insert, lookup_empty.
  split.
  - destruct (String.eqb_spec v "linux") as [->|H1]; [reflexivity|].
    destruct (String.eqb_spec v "windows") as [->|H2]; [reflexivity|].
    repeat case_decide; try congruence. reflexivity.
  - destruct (String.eqb_spec v "TCP") as [->|H1]; [reflexivity|].
    destruct (String.eqb_spec v "UDP") as [->|H2]; [reflexivity|].
    repeat case_decide; try congruence. reflexivity.
Qed.

(** * Further properties: the hand-written format checks *)

Lemma isSnakeCase_loop_step (r : ascii) (rest : string) (i n : Z) :
  FF.isSnakeCase_loop (String r rest) i n
  = (isLower r || isDigit r
     || (Ascii.eqb r "_" && negb (i =? 0) && negb (i =? n - 1)))
    && FF.isSnakeCase_loop rest (i + 1) n.
Proof.
  cbn [FF.isSnakeCase_loop].
  destruct (isLower r); [reflexivity|]. destruct (isDigit r); [reflexivity|].
  cbn [orb]. by destruct (Ascii.eqb r "_" && negb (i =? 0) && negb (i =? n - 1)).
Qed.

Lemma isSnakeCase_loop_spec (s : string) (i n : Z) :
  FF.isSnakeCase_loop s i n = true
  <-> forall k c, String.get k s = Some c ->
        isLower c = true \/ isDigit c = true
        \/ (c = "_"%char /\ i + Z.of_nat k <> 0 /\ i + Z.of_nat k <> n - 1).
Proof.
  revert i. induction s as [|r rest IH]; intros i.
  - split; [|reflexivity]. intros _ k c. destruct k; discriminate.
  - rewrite isSnakeCase_loop_step, andb_true_iff, IH. split.
    + intros [Hr Hrest] [|k] c; cbn [String.get].
      * intros [= <-]. rewrite Z.add_0_r.
        apply orb_true_iff in Hr as [Hr|Hr];
          [apply orb_true_iff in Hr as [Hr|Hr]; tauto|].
        apply andb_true_iff in Hr as [Hr Hn]. apply andb_true_iff in Hr as [Hr Hz].
        right. right. apply Ascii.eqb_eq in Hr.
        apply negb_true_iff, Z.eqb_neq in Hz, Hn. by repeat split.
      * intros Hg. specialize (Hrest k c Hg).
        replace (i + Z.of_nat (S k)) with (i + 1 + Z.of_nat k) by lia. exact Hrest.
    + intros H. split.
      * specialize (H 0%nat r eq_refl). rewrite Z.add_0_r in H.
        destruct H as [->|[->|(-> & Hz & Hn)]];
          [reflexivity|by rewrite orb_true_r|].
        apply Z.eqb_neq in Hz, Hn. rewrite Hz, Hn. by rewrite !orb_true_r.
      * intros k c Hg. specialize (H (S k) c Hg).
        replace (i + 1 + Z.of_nat k) with (i + Z.of_nat (S k)) by lia. exact H.
Qed.

Lemma get_lt (s : string) (k : nat) (c : ascii) :
  String.get k s = Some c -> (k < String.length s)%nat.
Proof.
  revert k. induction s as [|r rest IH]; intros [|k]; cbn; try discriminate; [lia|].
  intros H. apply IH in H. lia.
Qed.

(** The fail-fast name check accepts exactly the non-empty strings
    made of [a-z], [0-9] and ['_'] whose first and last bytes are not
    ['_']; nothing is asked of underscores in between. *)
Theorem isSnakeCase_accepts (s : string) :
  FF.isSnakeCase s = true
  <-> s <> ""
      /\ (forall k c, String.get k s = Some c ->
            isLower c = true \/ isDigit c = true \/ c = "_"%char)
      /\ String.get 0 s <> Some "_"%char
      /\ String.get (String.length s - 1) s <> Some "_"%char.
Proof.
  unfold FF.isSnakeCase. destruct (String.eqb_spec s "") as [->|Hne].
  - split; [discriminate|]. intros [H _]. by destruct H.
  - rewrite isSnakeCase_loop_spec. unfold len. split.
    + intros H. split; [exact Hne|]. split; [|split].
      * intros k c Hg. specialize (H k c Hg). tauto.
      * intros Hg. destruct (H 0%nat _ Hg) as [Hc|[Hc|(_ & Hz & _)]];
          [discriminate|discriminate|lia].
      * intros Hg. pose proof (get_lt _ _ _ Hg) as Hlt.
        destruct (H _ _ Hg) as [Hc|[Hc|(_ & _ & Hn)]];
          [discriminate|discriminate|lia].
    + intros (_ & Hall & Hfirst & Hlast) k c Hg.
      destruct (Hall k c Hg) as [Hc|[Hc|Hc]]; [tauto|tauto|].
      right. right. subst c. pose proof (get_lt _ _ _ Hg) as Hlt.
      split; [reflexivity|]. split.
      * intros Hk. assert (k = 0%nat) by lia. subst k. by apply Hfirst.
      * intros Hk. assert (k = (String.length s - 1)%nat) by lia. subst k.
        by apply Hlast.
Qed.

Lemma append_cons (c : ascii) (a b : string) : String c a +:+ b = String c (a +:+ b).
Proof. reflexivity. Qed.

Lemma length_append (a b : string) :
  String.length (a +:+ b) = (String.length a + String.length b)%nat.
Proof.
  induction a as [|c a IH]; [reflexivity|].
  rewrite append_cons. simpl. by f_equal.
Qed.

Lemma substring_all (s : string) : substring 0 (String.length s) s = s.
Proof. induction s as [|c s IH]; simpl; [reflexivity|by f_equal]. Qed.

Lemma substring_app_l (a b : string) : substring 0 (String.length a) (a +:+ b) = a.
Proof.
  induction a as [|c a IH]; [by destruct b|].
  rewrite append_cons. simpl. by f_equal.
Qed.

Lemma substring_app_r (a b : string) :
  substring (String.length a) (String.length b) (a +:+ b) = b.
Proof.
  induction a as [|c a IH]; [apply substring_all|].
  rewrite append_cons. simpl. exact IH.
Qed.

Lemma substring_split (s : string) (n : nat) :
  (n <= String.length s)%nat ->
  substring 0 n s +:+ substring n (String.length s - n) s = s.
Proof.
  revert n. induction s as [|c s IH]; intros [|n] Hn; simpl in *; try lia.
  - reflexivity.
  - change (String c (substring 0 (String.length s) s) = String c s).
    by rewrite substring_all.
  - rewrite append_cons. f_equal. apply IH. lia.
Qed.

(** The fail-fast memory check accepts exactly the strings that split
    into a numeric part that [strconv.Atoi] parses, followed by [Gi],
    [Mi] or [Ki]; the numeric part may therefore carry a sign and must
    fit an [int]. *)
Theorem isValidMemory_accepts (s : string) :
  FF.isValidMemory s = true
  <-> exists num unit,
        s = num +:+ unit /\ (unit = "Gi" \/ unit = "Mi" \/ unit = "Ki")
        /\ snd (Atoi num) = None.
Proof.
  unfold FF.isValidMemory, len. split.
  - destruct (Z.ltb_spec (Z.of_nat (String.length s)) 3) as [Hlt|Hge]; [discriminate|].
    set (unit := substring (String.length s - 2) 2 s).
    set (num := substring 0 (String.length s - 2) s).
    assert (Hs : s = num +:+ unit).
    { subst num unit. symmetry.
      pose proof (substring_split s (String.length s - 2)) as H.
      replace (String.length s - (String.length s - 2))%nat with 2%nat in H by lia.
      apply H. lia. }
    destruct (String.eqb_spec unit "Gi") as [Hu|HG];
      [|destruct (String.eqb_spec unit "Mi") as [Hu|HM];
        [|destruct (String.eqb_spec unit "Ki") as [Hu|HK]; [|discriminate]]];
      cbn [negb andb]; destruct (String.eqb num ""); try discriminate;
      intros Ha%atoiOk_true; exists num, unit; tauto.
  - intros (num & unit & -> & Hu & Ha).
    assert (Hlen : String.length unit = 2%nat) by (by destruct Hu as [->|[->| ->]]).
    assert (Hnum : num <> "") by (intros ->; discriminate).
    assert (Hn : (1 <= String.length num)%nat) by (destruct num; [done|cbn; lia]).
    rewrite length_append, Hlen.
    destruct (Z.ltb_spec (Z.of_nat (String.length num + 2)) 3) as [Hlt|_]; [lia|].
    replace (String.length num + 2 - 2)%nat with (String.length num) by lia.
    assert (Hsub : substring (String.length num) 2 (num +:+ unit) = unit)
      by (rewrite <- Hlen; apply substring_app_r).
    rewrite substring_app_l, !Hsub.
    destruct (String.eqb_spec num "") as [|_]; [done|].
    apply atoiOk_true in Ha. rewrite Ha.
    destruct Hu as [->|[->| ->]]; reflexivity.
Qed.

(** * Matching by derivatives and the strings a pattern denotes *)

Lemma append_nil_inv (s t : string) : s +:+ t = "" -> s = "" /\ t = "".
Proof.
  destruct s as [|c s]; intros H; [split; [reflexivity|exact H]|].
  rewrite append_cons in H. discriminate.
Qed.

Lemma append_cons_inv (s t : string) (c : ascii) (w : string) :
  s +:+ t = String c w ->
  (s = "" /\ t = String c w) \/ (exists s', s = String c s' /\ w = s' +:+ t).
Proof.
  destruct s as [|c' s'].
  - intros H. left. split; [reflexivity|exact H].
  - rewrite append_cons. intros [= -> <-]. right. by exists s'.
Qed.

Lemma lang_nullable (r : regex) (s : string) : lang r s -> s = "" -> nullable r = true.
Proof.
  induction 1 as [|p c Hc|a b s t Ha IHa Hb IHb|a b s Ha IH|a b s Hb IH| |a s t Ha IHa Hs IHs];
    intros E; cbn [nullable]; try reflexivity.
  - discriminate.
  - apply append_nil_inv in E as [-> ->]. by rewrite IHa, IHb.
  - by rewrite IH.
  - rewrite IH by done. apply orb_true_r.
Qed.

Lemma nullable_lang (r : regex) : nullable r = true -> lang r "".
Proof.
  induction r as [| |p|a IHa b IHb|a IHa b IHb|a IH]; cbn [nullable]; intros H;
    try discriminate.
  - constructor.
  - apply andb_true_iff in H as [Ha Hb].
    change (lang (RCat a b) ("" +:+ "")). constructor; auto.
  - apply orb_true_iff in H as [H|H]; [apply lang_alt_l|apply lang_alt_r]; auto.
  - constructor.
Qed.

Lemma deriv_sound (c : ascii) (r : regex) (s : string) :
  lang (deriv c r) s -> lang r (String c s).
Proof.
  revert s. induction r as [| |p|a IHa b IHb|a IHa b IHb|a IH]; intros s;
    cbn [deriv]; intros H.
  - inversion H.
  - inversion H.
  - destruct (p c) eqn:Hp; inversion H; subst. by constructor.
  - destruct (nullable a) eqn:Hn.
    + inversion H as [| | | ? ? ? H1|? ? ? H1| |]; subst.
      * inversion H1 as [| |? ? s1 t H2 H3| | | |]; subst.
        rewrite <- append_cons. constructor; auto.
      * change (lang (RCat a b) ("" +:+ String c s)).
        constructor; [by apply nullable_lang|auto].
    + inversion H as [| |? ? s1 t H2 H3| | | |]; subst.
      rewrite <- append_cons. constructor; auto.
  - inversion H; subst; [apply lang_alt_l|apply lang_alt_r]; auto.
  - inversion H as [| |? ? s1 t H2 H3| | | |]; subst.
    rewrite <- append_cons. constructor; auto.
Qed.

Lemma deriv_complete (r : regex) (w : string) :
  lang r w -> forall c s, w = String c s -> lang (deriv c r) s.
Proof.
  induction 1 as [|p c0 Hc|a b s1 t Ha IHa Hb IHb|a b s1 Ha IH|a b s1 Hb IH|
                  |a s1 t Ha IHa Hs IHs];
    intros c s E; cbn [deriv].
  - discriminate.
  - injection E as -> <-. rewrite Hc. constructor.
  - apply append_cons_inv in E as [[-> ->]|(s' & -> & ->)].
    + rewrite (lang_nullable a "" Ha eq_refl). apply lang_alt_r. by apply IHb.
    + assert (H : lang (RCat (deriv c a) b) (s' +:+ t))
        by (constructor; [by apply IHa|exact Hb]).
      destruct (nullable a); [by apply lang_alt_l|exact H].
  - apply lang_alt_l. by apply IH.
  - apply lang_alt_r. by apply IH.
  - discriminate.
  - apply append_cons_inv in E as [[-> ->]|(s' & -> & ->)].
    + by apply IHs.
    + constructor; [by apply IHa|exact Hs].
Qed.

Lemma MatchString_lang (r : regex) (s : string) : MatchString r s = true <-> lang r s.
Proof.
  revert r. induction s as [|c s IH]; intros r; cbn [MatchString].
  - split; [apply nullable_lang|]. intros H. by apply (lang_nullable r "").
  - rewrite IH. split; [apply deriv_sound|]. intros H. by apply (deriv_complete r _ H).
Qed.

(** ** The shapes the patterns of the program are built from *)

Lemma lang_cat_inv (a b : regex) (s : string) :
  lang (RCat a b) s <-> exists s1 s2, s = s1 +:+ s2 /\ lang a s1 /\ lang b s2.
Proof.
  split.
  - intros H. inversion H; subst. eauto.
  - intros (s1 & s2 & -> & H1 & H2). by constructor.
Qed.

Lemma lang_class_inv (p : ascii -> bool) (s : string) :
  lang (RClass p) s <-> exists c, s = String c "" /\ p c = true.
Proof.
  split.
  - intros H. inversion H; subst. eauto.
  - intros (c & -> & H). by constructor.
Qed.

Lemma lang_star_class (p : ascii -> bool) (s : string) :
  lang (RStar (RClass p)) s <-> allChars p s = true.
Proof.
  split.
  - intros H. remember (RStar (RClass p)) as r eqn:Er.
    induction H as [| | | | | |a s1 t Ha _ Hs IHs]; try discriminate; [reflexivity|].
    injection Er as ->. inversion Ha as [|? c Hc| | | | |]; subst.
    change (p c && allChars p t = true). by rewrite Hc, IHs.
  - induction s as [|c s IH]; cbn [allChars]; intros H; [constructor|].
    apply andb_true_iff in H as [Hc Hs].
    change (lang (RStar (RClass p)) (String c "" +:+ s)).
    constructor; [by constructor|auto].
Qed.

Lemma lang_plus_class (p : ascii -> bool) (s : string) :
  lang (RPlus (RClass p)) s <-> s <> "" /\ allChars p s = true.
Proof.
  unfold RPlus. rewrite lang_cat_inv. split.
  - intros (s1 & s2 & -> & H1 & H2). apply lang_class_inv in H1 as (c & -> & Hc).
    apply lang_star_class in H2. split; [rewrite append_cons; discriminate|].
    change (p c && allChars p s2 = true). by rewrite Hc, H2.
  - intros [Hne H]. destruct s as [|c s]; [done|]. cbn [allChars] in H.
    apply andb_true_iff in H as [Hc Hs]. exists (String c ""), s.
    split; [reflexivity|]. split; [by constructor|by apply lang_star_class].
Qed.

Lemma lang_lit (l s : string) : lang (RLit l) s <-> s = l.
Proof.
  revert s. induction l as [|c l IH]; intros s; cbn [RLit].
  - split; [intros H; by inversion H|intros ->; constructor].
  - rewrite lang_cat_inv. split.
    + intros (s1 & s2 & -> & H1 & H2). apply lang_class_inv in H1 as (c' & -> & Hc).
      apply Ascii.eqb_eq in Hc as <-. apply IH in H2 as ->. reflexivity.
    + intros ->. exists (String c ""), l. split; [reflexivity|].
      split; [|by apply IH]. constructor. apply Ascii.eqb_refl.
Qed.

(** * Further properties: what the patterns accept *)

(** The memory pattern of the accumulate-all program accepts exactly
    the strings made of one or more decimal digits followed by [Gi],
    [Mi] or [Ki]. *)
Theorem reMem_accepts (s : string) :
  MatchString Acc.reMem s = true
  <-> exists d u,
        s = d +:+ u /\ d <> "" /\ allChars isDigit d = true
        /\ (u = "Gi" \/ u = "Mi" \/ u = "Ki").
Proof.
  rewrite MatchString_lang. unfold Acc.reMem. rewrite lang_cat_inv. split.
  - intros (d & u & -> & Hd & Hu). apply lang_plus_class in Hd as [Hne Hd].
    exists d, u. repeat split; try assumption.
    inversion Hu as [| | |? ? ? H1|? ? ? H1| |]; subst;
      [left; by apply (lang_lit "Gi") in H1|].
    inversion H1 as [| | |? ? ? H2|? ? ? H2| |]; subst;
      [right; left; by apply (lang_lit "Mi") in H2
      |right; right; by apply (lang_lit "Ki") in H2].
  - intros (d & u & -> & Hne & Hd & Hu). exists d, u.
    split; [reflexivity|]. split; [by apply lang_plus_class|].
    destruct Hu as [->|[->| ->]].
    + apply lang_alt_l. by apply lang_lit.
    + apply lang_alt_r, lang_alt_l. by apply lang_lit.
    + apply lang_alt_r, lang_alt_r. by apply lang_lit.
Qed.

Lemma allChars_true (s : string) : allChars (fun _ => true) s = true.
Proof. induction s as [|c s IH]; [reflexivity|exact IH]. Qed.

Lemma prefix_cons (a b : ascii) (s1 s2 : string) :
  String.prefix (String a s1) (String b s2)
  = if ascii_dec a b then String.prefix s1 s2 else false.
Proof. reflexivity. Qed.

Lemma prefix_nil (s : string) : String.prefix "" s = true.
Proof. by destruct s. Qed.

(** The path pattern [^/] of the accumulate-all program and the
    [strings.HasPrefix(path, "/")] test of the fail-fast program give
    the same answer on every string. *)
Theorem path_checks_agree (s : string) :
  MatchString Acc.reAbs s = HasPrefix s "/".
Proof.
  apply eq_true_iff_eq. rewrite MatchString_lang. unfold Acc.reAbs, HasPrefix, RChar.
  rewrite lang_cat_inv. split.
  - intros (s1 & s2 & -> & H1 & _). apply lang_class_inv in H1 as (c & -> & Hc).
    apply Ascii.eqb_eq in Hc as <-. rewrite append_cons, prefix_cons.
    destruct (ascii_dec "/" "/") as [_|Hn]; [apply prefix_nil|by destruct Hn].
  - destruct s as [|c s]; [intros H; vm_compute in H; discriminate|].
    rewrite prefix_cons.
    destruct (ascii_dec "/" c) as [<-|]; [|intros; discriminate]. intros _.
    exists (String "/" ""), s. split; [reflexivity|]. split.
    + constructor. apply Ascii.eqb_refl.
    + apply lang_star_class, allChars_true.
Qed.

(** * Further properties: the two name checks compared *)

Lemma allChars_get (p : ascii -> bool) (s : string) :
  allChars p s = true <-> forall k c, String.get k s = Some c -> p c = true.
Proof.
  induction s as [|r rest IH]; cbn [allChars].
  - split; [|reflexivity]. intros _ k c. destruct k; discriminate.
  - rewrite andb_true_iff, IH. split.
    + intros [Hr Hrest] [|k] c; simpl; [by intros [= <-]|apply Hrest].
    + intros H. split; [by apply (H 0%nat)|]. intros k c Hg. by apply (H (S k)).
Qed.

Lemma lastChar_get (s : string) :
  s <> "" -> lastChar s = String.get (String.length s - 1) s.
Proof.
  induction s as [|r rest IH]; [done|]. intros _.
  destruct rest as [|r' rest']; [reflexivity|].
  change (lastChar (String r (String r' rest'))) with (lastChar (String r' rest')).
  rewrite IH by discriminate. simpl. by rewrite Nat.sub_0_r.
Qed.

Lemma snakeChar_cases (c : ascii) :
  snakeChar c = true <-> isLower c = true \/ isDigit c = true \/ c = "_"%char.
Proof.
  unfold snakeChar, lowerOrDigit. rewrite !orb_true_iff, Ascii.eqb_eq. tauto.
Qed.

Lemma isSnakeCase_chars (s : string) :
  FF.isSnakeCase s = true
  <-> s <> "" /\ allChars snakeChar s = true
      /\ String.get 0 s <> Some "_"%char /\ lastChar s <> Some "_"%char.
Proof.
  unfold FF.isSnakeCase. destruct (String.eqb_spec s "") as [->|Hne].
  - split; [discriminate|]. intros [H _]. by destruct H.
  - rewrite isSnakeCase_loop_spec, allChars_get, (lastChar_get s Hne). unfold len.
    split.
    + intros H. split; [exact Hne|]. split; [|split].
      * intros k c Hg. apply snakeChar_cases. specialize (H k c Hg). tauto.
      * intros Hg. destruct (H 0%nat _ Hg) as [Hc|[Hc|(_ & Hz & _)]];
          [discriminate|discriminate|lia].
      * intros Hg. pose proof (get_lt _ _ _ Hg) as Hlt.
        destruct (H _ _ Hg) as [Hc|[Hc|(_ & _ & Hn)]];
          [discriminate|discriminate|lia].
    + intros (_ & Hall & Hfirst & Hlast) k c Hg.
      destruct (proj1 (snakeChar_cases c) (Hall k c Hg)) as [Hc|[Hc|Hc]];
        [tauto|tauto|].
      right. right. subst c. pose proof (get_lt _ _ _ Hg) as Hlt.
      split; [reflexivity|]. split.
      * intros Hk. assert (k = 0%nat) by lia. subst k. by apply Hfirst.
      * intros Hk. assert (k = (String.length s - 1)%nat) by lia. subst k.
        by apply Hlast.
Qed.

Lemma lowerOrDigit_not_underscore (c : ascii) :
  lowerOrDigit c = true -> Ascii.eqb c "_" = false.
Proof.
  intros H. destruct (Ascii.eqb_spec c "_") as [->|]; [discriminate|reflexivity].
Qed.

Lemma snakeScan_spec (w : string) (b : bool) :
  snakeScan b w = true
  <-> allChars snakeChar w = true /\ noDoubleUnderscore w = true
      /\ (w = "" -> b = true)
      /\ (b = false -> String.get 0 w <> Some "_"%char)
      /\ lastChar w <> Some "_"%char.
Proof.
  revert b. induction w as [|c r IH]; intros b.
  - cbn. split.
    + intros ->. by repeat split.
    + intros (_ & _ & H & _). by apply H.
  - cbn [snakeScan allChars]. unfold snakeChar at 1.
    destruct (lowerOrDigit c) eqn:Hc; cbn [orb andb].
    + pose proof (lowerOrDigit_not_underscore c Hc) as Hu.
      rewrite IH. cbn [noDoubleUnderscore]. rewrite Hu. cbn [andb negb].
      assert (Hd : match r with String _ _ => true | EmptyString => true end = true)
        by (by destruct r).
      rewrite Hd. cbn [andb].
      assert (Hl : lastChar (String c r) <> Some "_"%char
                   <-> lastChar r <> Some "_"%char).
      { destruct r as [|c' r']; [|reflexivity]. cbn. split; [discriminate|].
        intros _ [= E]. subst c. discriminate. }
      rewrite Hl. simpl. split.
      * intros (Ha & Hn & _ & _ & Hlast). repeat split; try assumption; try discriminate.
        intros _ [= E]. subst c. discriminate.
      * intros (Ha & Hn & _ & _ & Hlast). repeat split; try assumption; discriminate.
    + destruct (Ascii.eqb_spec c "_") as [->|Hne]; cbn [andb].
      * destruct b.
        -- rewrite IH. cbn [noDoubleUnderscore]. simpl. split.
           ++ intros (Ha & Hn & Hr & Hf & Hlast).
              assert (r <> "") by (intros ->; by specialize (Hr eq_refl)).
              destruct r as [|c' r']; [done|]. simpl in Hf.
              assert (Hc' : Ascii.eqb c' "_" = false).
              { destruct (Ascii.eqb_spec c' "_") as [->|]; [|reflexivity].
                by destruct (Hf eq_refl). }
              rewrite Hc'. cbn [negb andb]. by repeat split.
           ++ intros (Ha & Hn & _ & _ & Hlast).
              destruct r as [|c' r']; [by destruct Hlast|].
              apply andb_true_iff in Hn as [Hc' Hn].
              apply negb_true_iff in Hc'. repeat split; try assumption.
              ** discriminate.
              ** intros _. simpl. intros [= ->]. discriminate.
        -- split; [discriminate|]. intros (_ & _ & _ & Hf & _).
           by destruct (Hf eq_refl).
      * split; [discriminate|]. intros (H & _). discriminate.
Qed.

Lemma snakeScan_block (x y : string) :
  allChars lowerOrDigit x = true -> snakeScan true y = true ->
  snakeScan true (x +:+ y) = true /\ (x <> "" -> snakeScan false (x +:+ y) = true).
Proof.
  induction x as [|c x IH]; intros Hx Hy.
  - split; [exact Hy|done].
  - cbn [allChars] in Hx. apply andb_true_iff in Hx as [Hc Hx].
    destruct (IH Hx Hy) as [IH1 _]. rewrite append_cons. cbn [snakeScan].
    rewrite Hc. by split.
Qed.

Lemma lang_separators_scan (y : string) :
  lang (RStar (RCat (RChar "_") (RPlus (RClass lowerOrDigit)))) y ->
  snakeScan true y = true.
Proof.
  intros H. remember (RStar (RCat (RChar "_") (RPlus (RClass lowerOrDigit)))) as r eqn:Er.
  induction H as [| | | | | |a s1 t Ha _ Hs IHs]; try discriminate; [reflexivity|].
  injection Er as ->. specialize (IHs eq_refl).
  apply lang_cat_inv in Ha as (u & p & -> & Hu & Hp).
  apply lang_class_inv in Hu as (c & -> & Hc). apply Ascii.eqb_eq in Hc as <-.
  apply lang_plus_class in Hp as [Hne Hp].
  change (snakeScan true (String "_" (p +:+ t)) = true). cbn [snakeScan].
  change (snakeScan false (p +:+ t) = true).
  by apply snakeScan_block.
Qed.

Lemma snakeScan_lang (w : string) (b : bool) :
  snakeScan b w = true ->
  lang (RCat (if b then RStar (RClass lowerOrDigit) else RPlus (RClass lowerOrDigit))
             (RStar (RCat (RChar "_") (RPlus (RClass lowerOrDigit))))) w.
Proof.
  revert b. induction w as [|c r IH]; intros b; cbn [snakeScan].
  - intros ->. change (lang (RCat (RStar (RClass lowerOrDigit))
                               (RStar (RCat (RChar "_") (RPlus (RClass lowerOrDigit)))))
                            ("" +:+ "")).
    constructor; constructor.
  - destruct (lowerOrDigit c) eqn:Hc.
    + intros H. apply (IH true) in H. apply lang_cat_inv in H as (x & y & -> & Hx & Hy).
      apply lang_star_class in Hx. rewrite <- append_cons. constructor; [|exact Hy].
      destruct b.
      * apply lang_star_class. cbn [allChars]. by rewrite Hc, Hx.
      * apply lang_plus_class. split; [discriminate|]. cbn [allChars]. by rewrite Hc, Hx.
    + destruct (Ascii.eqb_spec c "_") as [->|]; [|discriminate].
      destruct b; cbn [andb]; [|discriminate].
      intros H. apply (IH false) in H. apply lang_cat_inv in H as (p & y & -> & Hp & Hy).
      change (lang (RCat (RStar (RClass lowerOrDigit))
                      (RStar (RCat (RChar "_") (RPlus (RClass lowerOrDigit)))))
                   ("" +:+ ((String "_" "" +:+ p) +:+ y))).
      constructor; [constructor|]. constructor; [|exact Hy].
      constructor; [|exact Hp]. constructor. reflexivity.
Qed.

Lemma reSnake_scan (s : string) :
  MatchString Acc.reSnake s = true <-> snakeScan false s = true.
Proof.
  rewrite MatchString_lang. unfold Acc.reSnake. split.
  - intros H. apply lang_cat_inv in H as (x & y & -> & Hx & Hy).
    apply lang_plus_class in Hx as [Hne Hx]. apply lang_separators_scan in Hy.
    by apply snakeScan_block.
  - apply (snakeScan_lang s false).
Qed.

(** The name pattern of the accumulate-all program accepts a string
    exactly when the fail-fast name check accepts it and the string
    has no two consecutive underscores: the two programs agree on every
    name without a double underscore, and differ on the others that
    the fail-fast check lets through. *)
Theorem name_checks_compared (s : string) :
  MatchString Acc.reSnake s = FF.isSnakeCase s && noDoubleUnderscore s.
Proof.
  apply eq_true_iff_eq.
  rewrite reSnake_scan, snakeScan_spec, andb_true_iff, isSnakeCase_chars. split.
  - intros (Ha & Hn & He & Hf & Hl). repeat split; try assumption.
    + intros ->. by specialize (He eq_refl).
    + by apply Hf.
  - intros ((Hne & Ha & Hf & Hl) & Hn). repeat split; try assumption; done.
Qed.

(** * Further properties: the two memory checks compared *)

Lemma isDigit_value (c : ascii) :
  isDigit c = true -> 0 <= Z.of_N (code c) - 48 <= 9.
Proof.
  unfold isDigit. intros H. apply andb_true_iff in H as [H1 H2].
  apply N.leb_le in H1, H2. lia.
Qed.

Lemma digitsVal_allChars (s : string) (acc : Z) :
  (exists n, digitsVal s acc = Some n) <-> allChars isDigit s = true.
Proof.
  revert acc. induction s as [|c s IH]; intros acc; cbn [digitsVal allChars].
  - split; [reflexivity|]. intros _. by exists acc.
  - destruct (isDigit c); cbn [andb]; [apply IH|].
    split; [intros [n H]; discriminate|discriminate].
Qed.

Lemma digitsVal_bound (s : string) (acc n : Z) :
  digitsVal s acc = Some n -> 0 <= acc ->
  acc * 10 ^ len s <= n < (acc + 1) * 10 ^ len s.
Proof.
  revert acc. induction s as [|c s IH]; intros acc; cbn [digitsVal].
  - intros [= <-] _. unfold len. cbn. lia.
  - destruct (isDigit c) eqn:Hc; [|discriminate]. intros H Hacc.
    pose proof (isDigit_value c Hc) as Hd.
    apply IH in H; [|lia].
    assert (El : len (String c s) = len s + 1) by (unfold len; cbn [String.length]; lia).
    assert (Hl : 0 <= len s) by (unfold len; lia).
    rewrite El, Z.pow_add_r, Z.pow_1_r by lia.
    assert (0 < 10 ^ len s) by (apply Z.pow_pos_nonneg; lia).
    nia.
Qed.

Lemma Atoi_unsigned (c : ascii) (r : string) :
  isDigit c = true ->
  Atoi (String c r)
  = match digitsVal (String c r) 0 with
    | None => (0, Some ErrSyntax)
    | Some n =>
        if n <? minInt then (minInt, Some ErrRange)
        else if maxInt <? n then (maxInt, Some ErrRange)
        else (n, None)
    end.
Proof.
  intros Hc. unfold Atoi.
  destruct (Ascii.eqb_spec c "-") as [->|Hm]; [discriminate|].
  destruct (Ascii.eqb_spec c "+") as [->|Hp]; [discriminate|].
  destruct c as [[] [] [] [] [] [] [] []]; try reflexivity; congruence.
Qed.

Lemma Atoi_parses_digits (s : string) :
  snd (Atoi s) = None -> (forall c, String.get 0 s = Some c -> isDigit c = true) ->
  allChars isDigit s = true.
Proof.
  intros Ha Hf. destruct s as [|c r]; [discriminate|].
  specialize (Hf c eq_refl). rewrite (Atoi_unsigned c r Hf) in Ha.
  apply (digitsVal_allChars _ 0). destruct (digitsVal (String c r) 0) as [n|]; [eauto|].
  discriminate.
Qed.

Lemma Atoi_short_digits (s : string) :
  s <> "" -> allChars isDigit s = true -> (String.length s <= 18)%nat ->
  snd (Atoi s) = None.
Proof.
  intros Hne Hd Hlen. destruct s as [|c r]; [done|].
  assert (Hc : isDigit c = true).
  { cbn [allChars] in Hd. by apply andb_true_iff in Hd as [? _]. }
  rewrite (Atoi_unsigned c r Hc).
  destruct (proj2 (digitsVal_allChars (String c r) 0) Hd) as [n Hn]. rewrite Hn.
  apply digitsVal_bound in Hn; [|lia].
  assert (Hp : 10 ^ len (String c r) <= 10 ^ 18)
    by (apply Z.pow_le_mono_r; unfold len; lia).
  unfold minInt, maxInt.
  destruct (Z.ltb_spec n (- 2 ^ 63)); [lia|].
  destruct (Z.ltb_spec (2 ^ 63 - 1) n); [lia|reflexivity].
Qed.

(** The two memory checks agree on every quantity that starts with a
    digit and is at most 20 bytes long.  In general, what the
    fail-fast check accepts and starts with a digit matches the
    pattern of the accumulate-all program, and what matches the
    pattern and is at most 20 bytes long passes the fail-fast check:
    they differ only on signed quantities and on numbers that do not
    fit an [int]. *)
Theorem memory_checks_compared (s : string) :
  (FF.isValidMemory s = true ->
   (forall c, String.get 0 s = Some c -> isDigit c = true) ->
   MatchString Acc.reMem s = true)
  /\ (MatchString Acc.reMem s = true -> (String.length s <= 20)%nat ->
      FF.isValidMemory s = true).
Proof.
  split.
  - intros Hv Hfirst.
    assert (Hsplit : exists num unit,
               s = num +:+ unit /\ (unit = "Gi" \/ unit = "Mi" \/ unit = "Ki")
               /\ snd (Atoi num) = None).
    { revert Hv. unfold FF.isValidMemory, len.
      destruct (Z.ltb_spec (Z.of_nat (String.length s)) 3) as [Hlt|Hge]; [discriminate|].
      set (unit := substring (String.length s - 2) 2 s).
      set (num := substring 0 (String.length s - 2) s).
      assert (Hs : s = num +:+ unit).
      { subst num unit. symmetry.
        pose proof (substring_split s (String.length s - 2)) as H.
        replace (String.length s - (String.length s - 2))%nat with 2%nat in H by lia.
        apply H. lia. }
      destruct (String.eqb_spec unit "Gi") as [Hu|HG];
        [|destruct (String.eqb_spec unit "Mi") as [Hu|HM];
          [|destruct (String.eqb_spec unit "Ki") as [Hu|HK]; [|discriminate]]];
        cbn [negb andb]; destruct (String.eqb num ""); try discriminate;
        intros Ha%atoiOk_true; exists num, unit; tauto. }
    destruct Hsplit as (num & unit & -> & Hu & Ha).
    assert (Hnum : num <> "") by (intros ->; discriminate).
    apply MatchString_lang. unfold Acc.reMem. constructor.
    + apply lang_plus_class. split; [exact Hnum|]. apply Atoi_parses_digits; [exact Ha|].
      intros c Hc. apply Hfirst. destruct num as [|c' r]; [done|].
      rewrite append_cons. exact Hc.
    + destruct Hu as [->|[->| ->]].
      * apply lang_alt_l. by apply (lang_lit "Gi").
      * apply lang_alt_r, lang_alt_l. by apply (lang_lit "Mi").
      * apply lang_alt_r, lang_alt_r. by apply (lang_lit "Ki").
  - intros Hm Hlen. apply MatchString_lang in Hm. unfold Acc.reMem in Hm.
    apply lang_cat_inv in Hm as (d & u & -> & Hd & Hu).
    apply lang_plus_class in Hd as [Hne Hd].
    assert (Hunit : u = "Gi" \/ u = "Mi" \/ u = "Ki").
    { inversion Hu as [| | |? ? ? H1|? ? ? H1| |]; subst;
        [left; by apply (lang_lit "Gi") in H1|].
      inversion H1 as [| | |? ? ? H2|? ? ? H2| |]; subst;
        [right; left; by apply (lang_lit "Mi") in H2
        |right; right; by apply (lang_lit "Ki") in H2]. }
    assert (Hlu : String.length u = 2%nat) by (by destruct Hunit as [->|[->| ->]]).
    rewrite length_append, Hlu in Hlen.
    assert (Ha : snd (Atoi d) = None) by (apply Atoi_short_digits; [done|done|lia]).
    assert (Hn : (1 <= String.length d)%nat) by (destruct d; [done|cbn; lia]).
    unfold FF.isValidMemory, len. rewrite length_append, Hlu.
    destruct (Z.ltb_spec (Z.of_nat (String.length d + 2)) 3) as [Hlt|_]; [lia|].
    replace (String.length d + 2 - 2)%nat with (String.length d) by lia.
    assert (Hsub : substring (String.length d) 2 (d +:+ u) = u)
      by (rewrite <- Hlu; apply substring_app_r).
    rewrite substring_app_l, !Hsub.
    destruct (String.eqb_spec d "") as [|_]; [done|].
    apply atoiOk_true in Ha. rewrite Ha.
    destruct Hunit as [->|[->| ->]]; reflexivity.
Qed.

Lemma memory_checks_compared_witness :
  MatchString Acc.reMem "512Mi" = true /\ FF.isValidMemory "2Gi" = true.
Proof.
  split.
  - apply (proj1 (memory_checks_compared "512Mi")); [reflexivity|].
    intros c [= <-]. reflexivity.
  - apply (proj2 (memory_checks_compared "2Gi")); [reflexivity|]. cbn. lia.
Defined.

(** * Further properties: what an accepted manifest guarantees (fail-fast) *)

Lemma containersLoop_none (cs : list Node) :
  FF.containersLoop cs = Ret None <-> Forall (fun c => containerCheck c = Ret None) cs.
Proof.
  induction cs as [|c cs IH]; [split; [constructor|reflexivity]|].
  rewrite containersLoop_cons, andThen_none, IH, Forall_cons. reflexivity.
Qed.

Lemma portsLoop_none (ps : list Node) :
  FF.portsLoop ps = Ret None <-> Forall (fun p => portCheck p = Ret None) ps.
Proof.
  induction ps as [|p ps IH]; [split; [constructor|reflexivity]|].
  rewrite portsLoop_cons, andThen_none, IH, Forall_cons. reflexivity.
Qed.

Ltac accept_inv :=
  repeat match goal with
         | H : Ret None = Ret None |- _ => clear H
         | H : FF.andThen _ _ = Ret None |- _ => apply andThen_none in H as [? ?]
         | H : FF.atLine _ _ = Ret None |- _ => discriminate H
         | H : FF.noLine _ = Ret None |- _ => discriminate H
         | H : Panic = Ret None |- _ => discriminate H
         | H : Ret (FF.ensureString _ _) = Ret None |- _ => injection H as H
         | H : Ret (FF.ensureInt _ _) = Ret None |- _ => injection H as H
         | H : obind (FF.getMapValue ?n ?k) _ = Ret None |- _ =>
             destruct (FF.getMapValue n k) as [[?|]|] eqn:?; cbn [obind] in H
         | H : (if negb ?b then _ else _) = Ret None |- _ =>
             destruct b eqn:?; cbn [negb] in H
         | H : (if ?b then _ else _) = Ret None |- _ => destruct b eqn:?
         end.

(** A container that the fail-fast program accepts has a string
    [name] that passes [isSnakeCase], a string [image] that passes
    [validateImage], and a [resources] mapping that passes
    [validateResources]; its [ports], when present, is a sequence all
    of whose items pass, and each probe, when present, is a mapping
    that passes [validateProbe]. *)
Theorem validateContainer_guarantees (c : Node) :
  FF.validateContainer c = Ret None ->
  (exists nm, FF.getMapValue c "name" = Ret (Some nm)
              /\ FF.ensureString nm "name" = None
              /\ FF.isSnakeCase (Value nm) = true)
  /\ (exists img, FF.getMapValue c "image" = Ret (Some img)
                  /\ FF.ensureString img "image" = None
                  /\ FF.validateImage img = Ret None)
  /\ (forall p, FF.getMapValue c "ports" = Ret (Some p) ->
        isSequence p = true /\ Forall (fun x => portCheck x = Ret None) (Content p))
  /\ (forall rp, FF.getMapValue c "readinessProbe" = Ret (Some rp) ->
        isMapping rp = true /\ FF.validateProbe rp = Ret None)
  /\ (forall lp, FF.getMapValue c "livenessProbe" = Ret (Some lp) ->
        isMapping lp = true /\ FF.validateProbe lp = Ret None)
  /\ (exists res, FF.getMapValue c "resources" = Ret (Some res)
                  /\ isMapping res = true
                  /\ FF.validateResources res = Ret None).
Proof.
  unfold FF.validateContainer. intros H. accept_inv;
    (split; [eauto|]); (split; [eauto|]);
    (split; [intros p Hp; simplify_eq;
             first [done | split; [done|by apply portsLoop_none]]|]);
    (split; [intros rp Hp; simplify_eq; first [done | by split]|]);
    (split; [intros lp Hp; simplify_eq; first [done | by split]|]);
    eauto.
Qed.

Lemma validateContainer_guarantees_witness :
  exists res, FF.getMapValue goodContainer "resources" = Ret (Some res)
              /\ isMapping res = true
              /\ FF.validateResources res = Ret None.
Proof.
  destruct (validateContainer_guarantees goodContainer) as (_ & _ & _ & _ & _ & H);
    [reflexivity|exact H].
Defined.

(** A document that the fail-fast program accepts is a mapping with a
    string [apiVersion] equal to "v1", a string [kind] equal to "Pod",
    a [metadata] mapping with a string [name], and a [spec] mapping
    whose [containers] is a non-empty sequence of accepted containers
    and whose [os], when present, is the string "linux" or "windows". *)
Theorem run_guarantees (root : Node) :
  FF.run root = Ret None ->
  exists doc,
    head (Content root) = Some doc /\ isMapping doc = true
    /\ (exists api, FF.getMapValue doc "apiVersion" = Ret (Some api)
                    /\ FF.ensureString api "apiVersion" = None /\ Value api = "v1")
    /\ (exists kd, FF.getMapValue doc "kind" = Ret (Some kd)
                   /\ FF.ensureString kd "kind" = None /\ Value kd = "Pod")
    /\ (exists meta nm, FF.getMapValue doc "metadata" = Ret (Some meta)
                        /\ isMapping meta = true
                        /\ FF.getMapValue meta "name" = Ret (Some nm)
                        /\ FF.ensureString nm "name" = None)
    /\ (exists spec cn, FF.getMapValue doc "spec" = Ret (Some spec)
                        /\ isMapping spec = true
                        /\ FF.getMapValue spec "containers" = Ret (Some cn)
                        /\ isSequence cn = true /\ Content cn <> []
                        /\ Forall (fun c => containerCheck c = Ret None) (Content cn)
                        /\ (forall osn, FF.getMapValue spec "os" = Ret (Some osn) ->
                              FF.ensureString osn "os" = None
                              /\ (Value osn = "linux" \/ Value osn = "windows"))).
Proof.
  unfold FF.run. destruct (Content root) as [|doc rest]; [discriminate|].
  intros H. exists doc. split; [reflexivity|].
  unfold FF.validatePod, FF.validateMetadata, FF.validateSpec, FF.validateSpec_os,
    FF.validateSpec_containers in H.
  accept_inv;
    repeat match goal with
           | H : (_ =? _)%string = true |- _ => apply String.eqb_eq in H
           | H : (_ =? _)%Z = false |- _ => apply Z.eqb_neq in H
           | H : FF.containersLoop _ = Ret None |- _ => apply containersLoop_none in H
           end;
    (split; [done|]); (split; [eauto|]); (split; [eauto|]); (split; [eauto 10|]);
    eexists _, _; (repeat (split; [first [reflexivity|eassumption]|]));
    (split; [match goal with
             | Hl : Z.of_nat (length (Content ?x)) <> 0 |- Content ?x <> [] =>
                 let Hc := fresh in intros Hc; apply Hl; by rewrite Hc
             end|]);
    (split; [assumption|]);
    intros osn Hos;
    match goal with
    | E : FF.getMapValue _ "os" = Ret None |- _ => congruence
    | E : FF.getMapValue _ "os" = Ret (Some ?x) |- _ =>
        assert (osn = x) by congruence; subst osn; split; [assumption|];
        match goal with
        | Hv : negb _ && negb _ = false |- _ =>
            apply andb_false_iff in Hv as [Hv|Hv];
            apply negb_false_iff, String.eqb_eq in Hv; tauto
        end
    end.
Qed.

Lemma run_guarantees_witness :
  exists doc,
    head (Content (podWith [str 6 "containers"; sequence 7 [goodContainer]])) = Some doc
    /\ isMapping doc = true
    /\ (exists api, FF.getMapValue doc "apiVersion" = Ret (Some api)
                    /\ FF.ensureString api "apiVersion" = None /\ Value api = "v1")
    /\ (exists kd, FF.getMapValue doc "kind" = Ret (Some kd)
                   /\ FF.ensureString kd "kind" = None /\ Value kd = "Pod")
    /\ (exists meta nm, FF.getMapValue doc "metadata" = Ret (Some meta)
                        /\ isMapping meta = true
                        /\ FF.getMapValue meta "name" = Ret (Some nm)
                        /\ FF.ensureString nm "name" = None)
    /\ (exists spec cn, FF.getMapValue doc "spec" = Ret (Some spec)
                        /\ isMapping spec = true
                        /\ FF.getMapValue spec "containers" = Ret (Some cn)
                        /\ isSequence cn = true /\ Content cn <> []
                        /\ Forall (fun c => containerCheck c = Ret None) (Content cn)
                        /\ (forall osn, FF.getMapValue spec "os" = Ret (Some osn) ->
                              FF.ensureString osn "os" = None
                              /\ (Value osn = "linux" \/ Value osn = "windows"))).
Proof. apply run_guarantees. reflexivity. Defined.

(** * Further properties: what an accepted manifest guarantees (accumulate-all) *)

Lemma lines_fail (l : Z) (m f : string) : lines (Acc.fail l m) f <> [].
Proof. discriminate. Qed.

Ltac acc_inv :=
  repeat match goal with
         | H : lines Acc.skip _ = [] |- _ => clear H
         | H : lines (Acc.fail _ _) _ = [] |- _ => by destruct (lines_fail _ _ _ H)
         | H : _ ++ _ = [] |- _ => apply app_eq_nil in H as [? ?]
         | H : lines (if ?b then _ else _) _ = [] |- _ => destruct b eqn:?
         | H : lines (match ?m !! ?k with _ => _ end) _ = [] |- _ =>
             destruct (m !! k) eqn:?
         end.

Ltac rp_all :=
  rp;
  first [ apply rp_forEach; intros; apply validatePort_reports
        | apply rp_forEach; intros; apply validateContainer_reports
        | apply validateProbe_reports
        | apply validateResources_reports
        | apply validateMetadata_reports
        | apply validateSpec_reports
        | apply labelsLoop_reports; intros ];
  eauto using sub_step, sub_refl.

(** A container for which the accumulate-all program prints nothing
    is a mapping with a string [name] matching [reSnake], a string
    [image] matching [reImage] and a [resources] value that validates
    silently; its [ports], when present, is a sequence whose items
    validate silently, and so does each probe that is present. *)
Theorem silent_container (c : Node) (f : string) :
  lines (Acc.validateContainer c) f = [] ->
  isMapping c = true
  /\ (exists nm, Acc.mapify c !! "name" = Some nm /\ Acc.isString nm = true
                 /\ MatchString Acc.reSnake (Value nm) = true)
  /\ (exists img, Acc.mapify c !! "image" = Some img /\ Acc.isString img = true
                  /\ MatchString Acc.reImage (Value img) = true)
  /\ (forall p, Acc.mapify c !! "ports" = Some p ->
        isSequence p = true
        /\ lines (Acc.forEach Acc.validatePort (Content p)) f = [])
  /\ (forall rp, Acc.mapify c !! "readinessProbe" = Some rp ->
        lines (Acc.validateProbe rp) f = [])
  /\ (forall lp, Acc.mapify c !! "livenessProbe" = Some lp ->
        lines (Acc.validateProbe lp) f = [])
  /\ (exists res, Acc.mapify c !! "resources" = Some res
                  /\ lines (Acc.validateResources res) f = []).
Proof.
  unfold Acc.validateContainer. intros H.
  destruct (isMapping c) eqn:Hm; cbn [negb] in H; [|by destruct (lines_fail _ _ _ H)].
  cbv zeta in H. assert (Hsub : sub c c) by apply sub_refl.
  rewrite (lines_seq (lineIn c)) in H; [|rp_all|rp_all].
  rewrite (lines_seq (lineIn c)) in H; [|rp_all|rp_all].
  rewrite (lines_seq (lineIn c)) in H; [|rp_all|rp_all].
  rewrite (lines_seq (lineIn c)) in H; [|rp_all|rp_all].
  rewrite (lines_seq (lineIn c)) in H; [|rp_all|rp_all].
  apply app_eq_nil in H as [Hname H]. apply app_eq_nil in H as [Himg H].
  apply app_eq_nil in H as [Hports H]. apply app_eq_nil in H as [Hrp H].
  apply app_eq_nil in H as [Hlp Hres].
  acc_inv;
    (split; [reflexivity|]);
    (split; [eexists; split; [reflexivity|]; split; by apply negb_false_iff|]);
    (split; [eexists; split; [reflexivity|]; split; by apply negb_false_iff|]);
    (split; [intros p Hp; simplify_eq;
             first [done | split; [by apply negb_false_iff|done]]|]);
    (split; [intros rp Hp; by simplify_eq|]);
    (split; [intros lp Hp; by simplify_eq|]);
    eexists; by split.
Qed.

Lemma silent_container_witness :
  isMapping goodContainer = true
  /\ (exists nm, Acc.mapify goodContainer !! "name" = Some nm /\ Acc.isString nm = true
                 /\ MatchString Acc.reSnake (Value nm) = true)
  /\ (exists img, Acc.mapify goodContainer !! "image" = Some img
                  /\ Acc.isString img = true
                  /\ MatchString Acc.reImage (Value img) = true)
  /\ (forall p, Acc.mapify goodContainer !! "ports" = Some p ->
        isSequence p = true
        /\ lines (Acc.forEach Acc.validatePort (Content p)) "pod.yaml" = [])
  /\ (forall rp, Acc.mapify goodContainer !! "readinessProbe" = Some rp ->
        lines (Acc.validateProbe rp) "pod.yaml" = [])
  /\ (forall lp, Acc.mapify goodContainer !! "livenessProbe" = Some lp ->
        lines (Acc.validateProbe lp) "pod.yaml" = [])
  /\ (exists res, Acc.mapify goodContainer !! "resources" = Some res
                  /\ lines (Acc.validateResources res) "pod.yaml" = []).
Proof. apply silent_container. reflexivity. Defined.

Lemma concat_nil_Forall {A} (ls : list (list A)) :
  concat ls = [] -> Forall (fun l => l = []) ls.
Proof.
  induction ls as [|l ls IH]; cbn [concat]; intros H; [constructor|].
  apply app_eq_nil in H as [-> H]. constructor; auto.
Qed.

Lemma silent_metadata (meta : Node) (f : string) :
  lines (Acc.validateMetadata meta) f = [] ->
  isMapping meta = true
  /\ exists nm, Acc.mapify meta !! "name" = Some nm /\ Acc.isString nm = true
                /\ trimsToEmpty (Value nm) = false.
Proof.
  unfold Acc.validateMetadata. intros H.
  destruct (isMapping meta) eqn:Hm; cbn [negb] in H; [|by destruct (lines_fail _ _ _ H)].
  cbv zeta in H. assert (Hsub : sub meta meta) by apply sub_refl.
  rewrite (lines_seq (lineIn meta)) in H; [|rp_all|rp_all].
  apply app_eq_nil in H as [Hname _]. split; [reflexivity|].
  acc_inv. eexists. split; [reflexivity|]. split; [by apply negb_false_iff|done].
Qed.

Lemma silent_spec (spec : Node) (f : string) :
  lines (Acc.validateSpec spec) f = [] ->
  isMapping spec = true
  /\ lines (Acc.validateSpec_os (Acc.mapify spec)) f = []
  /\ exists cn, Acc.mapify spec !! "containers" = Some cn /\ isSequence cn = true
                /\ Forall (fun c => lines (Acc.validateContainer c) f = []) (Content cn).
Proof.
  unfold Acc.validateSpec. intros H.
  destruct (isMapping spec) eqn:Hm; cbn [negb] in H; [|by destruct (lines_fail _ _ _ H)].
  cbv zeta in H.
  rewrite (lines_seq (lineIn spec)) in H;
    [|apply validateSpec_os_reports, sub_refl
     |apply validateSpec_containers_reports, sub_refl].
  apply app_eq_nil in H as [Hos Hc]. split; [reflexivity|]. split; [exact Hos|].
  unfold Acc.validateSpec_containers in Hc. acc_inv.
  eexists. split; [reflexivity|]. split; [by apply negb_false_iff|].
  rewrite lines_forEach_containers in Hc. apply concat_nil_Forall in Hc.
  by apply Forall_map in Hc.
Qed.

(** A document for which the accumulate-all program prints nothing
    (and so exits with 0) is a mapping with a string [apiVersion]
    equal to "v1", a string [kind] equal to "Pod", a [metadata] mapping
    with a string [name] that is not blank, and a [spec] mapping whose
    [os] block is silent and whose [containers] is a sequence of
    containers that validate silently. *)
Theorem silent_run (root : Node) (f : string) :
  fst (Acc.main f root) = [] ->
  snd (Acc.main f root) = 0
  /\ isMapping (docOf root) = true
  /\ (exists api, Acc.mapify (docOf root) !! "apiVersion" = Some api
                  /\ Acc.isString api = true /\ Value api = "v1")
  /\ (exists kd, Acc.mapify (docOf root) !! "kind" = Some kd
                 /\ Acc.isString kd = true /\ Value kd = "Pod")
  /\ (exists meta nm, Acc.mapify (docOf root) !! "metadata" = Some meta
                      /\ isMapping meta = true
                      /\ Acc.mapify meta !! "name" = Some nm
                      /\ Acc.isString nm = true
                      /\ trimsToEmpty (Value nm) = false)
  /\ (exists spec cn, Acc.mapify (docOf root) !! "spec" = Some spec
                      /\ isMapping spec = true
                      /\ lines (Acc.validateSpec_os (Acc.mapify spec)) f = []
                      /\ Acc.mapify spec !! "containers" = Some cn
                      /\ isSequence cn = true
                      /\ Forall (fun c => lines (Acc.validateContainer c) f = [])
                                (Content cn)).
Proof.
  intros H. split.
  { change (snd (Acc.main f root))
      with (if Acc.errs (Acc.vd (Acc.validateRoot root (start f))) >? 0 then 1 else 0).
    change (fst (Acc.main f root)) with (lines (Acc.validateRoot root) f) in H.
    rewrite errs_count, H. reflexivity. }
  change (lines (Acc.validateRoot root) f = []) in H.
  unfold Acc.validateRoot in H. fold (docOf root) in H.
  destruct (isMapping (docOf root)) eqn:Hm; cbn [negb] in H;
    [|by destruct (lines_fail _ _ _ H)].
  cbv zeta in H. assert (Hsub : sub (docOf root) (docOf root)) by apply sub_refl.
  rewrite (lines_seq (lineIn (docOf root))) in H; [|rp_all|rp_all].
  rewrite (lines_seq (lineIn (docOf root))) in H; [|rp_all|rp_all].
  rewrite (lines_seq (lineIn (docOf root))) in H; [|rp_all|rp_all].
  apply app_eq_nil in H as [Hapi H]. apply app_eq_nil in H as [Hkind H].
  apply app_eq_nil in H as [Hmeta Hspec].
  acc_inv.
  repeat match goal with
         | Hx : negb _ = false |- _ => apply negb_false_iff in Hx
         | Hx : (_ =? _)%string = true |- _ => apply String.eqb_eq in Hx
         end.
  apply silent_metadata in Hmeta as (Hmm & nm & Hnm & Hs & Ht).
  apply silent_spec in Hspec as (Hsm & Hos & cn & Hcn & Hseq & Hall).
  split; [reflexivity|]. split; [eauto|]. split; [eauto|]. split; [eauto 10|].
  eauto 10.
Qed.

Lemma silent_run_witness :
  snd (Acc.main "pod.yaml" emptyContainersPod) = 0
  /\ isMapping (docOf emptyContainersPod) = true
  /\ (exists api, Acc.mapify (docOf emptyContainersPod) !! "apiVersion" = Some api
                  /\ Acc.isString api = true /\ Value api = "v1")
  /\ (exists kd, Acc.mapify (docOf emptyContainersPod) !! "kind" = Some kd
                 /\ Acc.isString kd = true /\ Value kd = "Pod")
  /\ (exists meta nm, Acc.mapify (docOf emptyContainersPod) !! "metadata" = Some meta
                      /\ isMapping meta = true
                      /\ Acc.mapify meta !! "name" = Some nm
                      /\ Acc.isString nm = true
                      /\ trimsToEmpty (Value nm) = false)
  /\ (exists spec cn, Acc.mapify (docOf emptyContainersPod) !! "spec" = Some spec
                      /\ isMapping spec = true
                      /\ lines (Acc.validateSpec_os (Acc.mapify spec)) "pod.yaml" = []
                      /\ Acc.mapify spec !! "containers" = Some cn
                      /\ isSequence cn = true
                      /\ Forall (fun c => lines (Acc.validateContainer c) "pod.yaml" = [])
                                (Content cn)).
Proof. apply silent_run. reflexivity. Defined.

(** * Further properties: the image check of the fail-fast program *)

Lemma len_append (a b : string) : len (a +:+ b) = len a + len b.
Proof. unfold len. rewrite length_append. lia. Qed.

Lemma len_cons (c : ascii) (s : string) : len (String c s) = 1 + len s.
Proof. unfold len. cbn [String.length]. lia. Qed.

Lemma len_nonneg (s : string) : 0 <= len s.
Proof. unfold len. lia. Qed.

Lemma lastIndexFrom_app (c : ascii) (a b : string) (i found : Z) :
  lastIndexFrom c (a +:+ b) i found
  = lastIndexFrom c b (i + len a) (lastIndexFrom c a i found).
Proof.
  revert i found. induction a as [|x a IH]; intros i found.
  - change ("" +:+ b) with b. cbn [lastIndexFrom]. f_equal. unfold len. cbn. lia.
  - rewrite append_cons. cbn [lastIndexFrom]. rewrite IH, len_cons. f_equal. lia.
Qed.

Lemma lastIndexFrom_split (c : ascii) (s : string) (i found : Z) :
  found < i ->
  (allChars (fun x => negb (Ascii.eqb x c)) s = true
   /\ lastIndexFrom c s i found = found)
  \/ (exists a t,
        s = a +:+ String c t
        /\ allChars (fun x => negb (Ascii.eqb x c)) t = true
        /\ lastIndexFrom c s i found = i + len a).
Proof.
  revert i found. induction s as [|x r IH]; intros i found Hlt.
  - left. by split.
  - cbn [lastIndexFrom allChars]. destruct (Ascii.eqb_spec x c) as [->|Hne].
    + right. destruct (IH (i + 1) i ltac:(lia)) as [[Ha Hr]|(a & t & -> & Ht & Hr)].
      * exists "", r. split; [reflexivity|]. split; [exact Ha|].
        rewrite Hr. unfold len. cbn. lia.
      * exists (String c a), t. split; [reflexivity|]. split; [exact Ht|].
        rewrite Hr, len_cons. lia.
    + destruct (IH (i + 1) found ltac:(lia)) as [[Ha Hr]|(a & t & -> & Ht & Hr)].
      * left. by split.
      * right. exists (String x a), t. split; [reflexivity|]. split; [exact Ht|].
        rewrite Hr, len_cons. lia.
Qed.

Lemma lastIndexFrom_range (c : ascii) (s : string) (i found : Z) :
  found < i ->
  lastIndexFrom c s i found = found \/ i <= lastIndexFrom c s i found < i + len s.
Proof.
  intros Hlt. destruct (lastIndexFrom_split c s i found Hlt)
    as [[_ Hr]|(a & t & -> & _ & Hr)]; [by left|right].
  rewrite Hr, len_append, len_cons.
  pose proof (len_nonneg a). pose proof (len_nonneg t). lia.
Qed.

(** The fail-fast image check accepts exactly the values that start
    with "registry.bigbrother.io/" and end in a colon followed by a
    non-empty tag that contains neither a colon nor a slash; nothing
    else is asked of the bytes (white space and an empty repository
    name pass). *)
Theorem validateImage_accepts (node : Node) :
  FF.validateImage node = Ret None
  <-> HasPrefix (Value node) "registry.bigbrother.io/" = true
      /\ exists repo tag,
           Value node = repo +:+ String ":" tag /\ tag <> ""
           /\ allChars (fun x => negb (Ascii.eqb x ":")) tag = true
           /\ allChars (fun x => negb (Ascii.eqb x "/")) tag = true.
Proof.
  unfold FF.validateImage. cbv zeta. unfold LastIndex.
  destruct (HasPrefix (Value node) "registry.bigbrother.io/") eqn:Hp; cbn [negb];
    [|split; [discriminate|intros [H _]; discriminate]].
  set (val := Value node).
  set (colon := lastIndexFrom ":" val 0 (-1)).
  set (slash := lastIndexFrom "/" val 0 (-1)).
  split.
  - intros H. split; [reflexivity|].
    destruct (Z.eqb_spec colon (-1)) as [|Hc1]; [discriminate|].
    destruct (Z.ltb_spec colon (slash + 1)) as [|Hc2]; [discriminate|].
    destruct (Z.eqb_spec colon (len val - 1)) as [|Hc3]; [discriminate|].
    destruct (lastIndexFrom_split ":" val 0 (-1) ltac:(lia))
      as [[_ Hr]|(a & t & Hval & Ht & Hr)]; [by destruct Hc1|].
    exists a, t. split; [exact Hval|].
    assert (Hcolon : colon = len a) by (subst colon; rewrite Hr; lia).
    split; [|split; [exact Ht|]].
    + intros ->. apply Hc3. rewrite Hcolon, Hval, len_append, len_cons.
      unfold len. cbn. lia.
    + assert (Hs : slash
                   = lastIndexFrom "/" t (len a + 1) (lastIndexFrom "/" a 0 (-1))).
      { subst slash. rewrite Hval, lastIndexFrom_app. cbn [lastIndexFrom].
        change (Ascii.eqb ":" "/") with false. cbn. reflexivity. }
      pose proof (len_nonneg a) as Hla.
      assert (Hra : lastIndexFrom "/" a 0 (-1) < len a + 1).
      { destruct (lastIndexFrom_range "/" a 0 (-1) ltac:(lia)); lia. }
      destruct (lastIndexFrom_split "/" t (len a + 1) _ Hra)
        as [[Hno _]|(a' & t' & _ & _ & Hr')]; [exact Hno|].
      pose proof (len_nonneg a'). lia.
  - intros (_ & repo & tag & Hval & Hne & Hnc & Hns).
    pose proof (len_nonneg repo) as Hlr.
    assert (Hcolon : colon = len repo).
    { subst colon. rewrite Hval, lastIndexFrom_app. cbn [lastIndexFrom].
      change (Ascii.eqb ":" ":") with true. cbn beta iota.
      destruct (lastIndexFrom_split ":" tag (0 + len repo + 1) (0 + len repo) ltac:(lia))
        as [[_ Hr]|(a' & t' & -> & _ & _)]; [rewrite Hr; lia|].
      exfalso. clear -Hnc. induction a' as [|x a' IH].
      - change ("" +:+ String ":" t') with (String ":" t') in Hnc. discriminate.
      - rewrite append_cons in Hnc. cbn [allChars] in Hnc.
        apply andb_true_iff in Hnc as [_ Hnc]. by apply IH. }
    assert (Hslash : slash < len repo).
    { subst slash. rewrite Hval, lastIndexFrom_app. cbn [lastIndexFrom].
      change (Ascii.eqb ":" "/") with false. cbn beta iota.
      assert (Hra : lastIndexFrom "/" repo 0 (-1) < 0 + len repo + 1).
      { destruct (lastIndexFrom_range "/" repo 0 (-1) ltac:(lia)); lia. }
      destruct (lastIndexFrom_split "/" tag (0 + len repo + 1) _ Hra)
        as [[_ Hr]|(a' & t' & -> & _ & _)].
      - rewrite Hr. destruct (lastIndexFrom_range "/" repo 0 (-1) ltac:(lia)); lia.
      - exfalso. clear -Hns. induction a' as [|x a' IH].
        + change ("" +:+ String "/" t') with (String "/" t') in Hns. discriminate.
        + rewrite append_cons in Hns. cbn [allChars] in Hns.
          apply andb_true_iff in Hns as [_ Hns]. by apply IH. }
    assert (Hlen : len val = len repo + 1 + len tag)
      by (rewrite Hval, len_append, len_cons; lia).
    assert (Htag : 1 <= len tag).
    { destruct tag; [done|]. rewrite len_cons. pose proof (len_nonneg tag). lia. }
    destruct (Z.eqb_spec colon (-1)); [lia|].
    destruct (Z.ltb_spec colon (slash + 1)); [lia|].
    destruct (Z.eqb_spec colon (len val - 1)); [lia|reflexivity].
Qed.

(** * Further properties: what accepted ports and probes guarantee *)

Lemma in_port_range (v : Z) : portOutOfRange v = false -> 1 <= v <= 65535.
Proof. apply portOutOfRange_false. Qed.

(** A ports item that the fail-fast program accepts has a
    [containerPort] that passes the integer check with a value in
    1..65535 and, when [protocol] is present, a string "TCP" or "UDP";
    a probe that it accepts has an [httpGet] mapping with a string
    [path] starting with "/" and an integer [port] in 1..65535. *)
Theorem accepted_port_and_probe :
  (forall p,
     FF.validateContainerPort p = Ret None ->
     exists cp,
       FF.getMapValue p "containerPort" = Ret (Some cp)
       /\ FF.ensureInt cp "containerPort" = None
       /\ 1 <= fst (Atoi (Value cp)) <= 65535
       /\ (forall proto, FF.getMapValue p "protocol" = Ret (Some proto) ->
             FF.ensureString proto "protocol" = None
             /\ (Value proto = "TCP" \/ Value proto = "UDP")))
  /\ (forall pr,
        FF.validateProbe pr = Ret None ->
        exists hg path port,
          FF.getMapValue pr "httpGet" = Ret (Some hg) /\ isMapping hg = true
          /\ FF.getMapValue hg "path" = Ret (Some path)
          /\ FF.ensureString path "path" = None
          /\ HasPrefix (Value path) "/" = true
          /\ FF.getMapValue hg "port" = Ret (Some port)
          /\ FF.ensureInt port "port" = None
          /\ 1 <= fst (Atoi (Value port)) <= 65535).
Proof.
  split.
  - intros p H. unfold FF.validateContainerPort, FF.validateContainerPort_protocol in H.
    cbv zeta in H. accept_inv;
      (eexists; split; [reflexivity|]; split; [assumption|];
       split; [by apply in_port_range|]);
      intros proto Hp; simplify_eq;
      first [ done
            | split; [assumption|];
              match goal with
              | Hv : negb _ && negb _ = false |- _ =>
                  apply andb_false_iff in Hv as [Hv|Hv];
                  apply negb_false_iff, String.eqb_eq in Hv; tauto
              end ].
  - intros pr H. unfold FF.validateProbe, FF.validateProbe_port in H.
    cbv zeta in H. accept_inv.
    eexists _, _, _. repeat (split; [first [reflexivity|eassumption]|]).
    by apply in_port_range.
Qed.

Lemma accepted_port_and_probe_witness :
  (exists cp,
     FF.getMapValue (portItem "8080") "containerPort" = Ret (Some cp)
     /\ FF.ensureInt cp "containerPort" = None
     /\ 1 <= fst (Atoi (Value cp)) <= 65535
     /\ (forall proto, FF.getMapValue (portItem "8080") "protocol" = Ret (Some proto) ->
           FF.ensureString proto "protocol" = None
           /\ (Value proto = "TCP" \/ Value proto = "UDP")))
  /\ (exists hg path port,
        FF.getMapValue (probeOf "8080") "httpGet" = Ret (Some hg) /\ isMapping hg = true
        /\ FF.getMapValue hg "path" = Ret (Some path)
        /\ FF.ensureString path "path" = None
        /\ HasPrefix (Value path) "/" = true
        /\ FF.getMapValue hg "port" = Ret (Some port)
        /\ FF.ensureInt port "port" = None
        /\ 1 <= fst (Atoi (Value port)) <= 65535).
Proof.
  destruct accepted_port_and_probe as [Hp Hr]. split.
  - apply Hp. reflexivity.
  - apply Hr. reflexivity.
Defined.

Lemma validPro_values (v : string) :
  Acc.index Acc.validPro v = true -> v = "TCP" \/ v = "UDP".
Proof.
  unfold Acc.index, Acc.validPro. rewrite !lookup_insert, lookup_empty.
  repeat case_decide; subst; try tauto. discriminate.
Qed.

(** A ports item for which the accumulate-all program prints nothing
    is a mapping with an integer [containerPort] in 1..65535 and, when
    [protocol] is present, a string "TCP" or "UDP"; a probe for which
    it prints nothing is a mapping with an [httpGet] mapping that has a
    string [path] matching [reAbs] and an integer [port] in 1..65535. *)
Theorem silent_port_and_probe (f : string) :
  (forall p,
     lines (Acc.validatePort p) f = [] ->
     isMapping p = true
     /\ exists cp,
          Acc.mapify p !! "containerPort" = Some cp /\ Acc.isInt cp = true
          /\ 1 <= fst (Atoi (Value cp)) <= 65535
          /\ (forall proto, Acc.mapify p !! "protocol" = Some proto ->
                Acc.isString proto = true
                /\ (Value proto = "TCP" \/ Value proto = "UDP")))
  /\ (forall pr,
        lines (Acc.validateProbe pr) f = [] ->
        isMapping pr = true
        /\ exists hg path port,
             Acc.mapify pr !! "httpGet" = Some hg /\ isMapping hg = true
             /\ Acc.mapify hg !! "path" = Some path /\ Acc.isString path = true
             /\ MatchString Acc.reAbs (Value path) = true
             /\ Acc.mapify hg !! "port" = Some port /\ Acc.isInt port = true
             /\ 1 <= fst (Atoi (Value port)) <= 65535).
Proof.
  split.
  - intros p H. unfold Acc.validatePort in H.
    destruct (isMapping p) eqn:Hm; cbn [negb] in H; [|by destruct (lines_fail _ _ _ H)].
    cbv zeta in H. assert (Hsub : sub p p) by apply sub_refl.
    unfold Acc.validatePort_containerPort, Acc.validatePort_protocol in H.
    rewrite (lines_seq (lineIn p)) in H; [|rp_all|rp_all].
    cbv zeta in H. acc_inv;
      repeat match goal with
             | Hx : negb _ = false |- _ => apply negb_false_iff in Hx
             end;
      (split; [reflexivity|]; eexists; split; [reflexivity|]; split; [assumption|];
       split; [by apply in_port_range|]);
      intros proto Hp; simplify_eq;
      first [done | split; [assumption|by apply validPro_values]].
  - intros pr H. unfold Acc.validateProbe in H.
    destruct (isMapping pr) eqn:Hm; cbn [negb] in H; [|by destruct (lines_fail _ _ _ H)].
    cbv zeta in H. acc_inv.
    assert (Hsub : sub n n) by apply sub_refl.
    unfold Acc.validateProbe_path, Acc.validateProbe_port in H.
    rewrite (lines_seq (lineIn n)) in H; [|rp_all|rp_all].
    cbv zeta in H. acc_inv.
    repeat match goal with
           | Hx : negb _ = false |- _ => apply negb_false_iff in Hx
           end.
    split; [reflexivity|]. eexists _, _, _.
    repeat (split; [first [reflexivity|eassumption]|]).
    by apply in_port_range.
Qed.

Lemma silent_port_and_probe_witness :
  (isMapping (portItem "8080") = true
   /\ exists cp,
        Acc.mapify (portItem "8080") !! "containerPort" = Some cp
        /\ Acc.isInt cp = true
        /\ 1 <= fst (Atoi (Value cp)) <= 65535
        /\ (forall proto, Acc.mapify (portItem "8080") !! "protocol" = Some proto ->
              Acc.isString proto = true
              /\ (Value proto = "TCP" \/ Value proto = "UDP")))
  /\ (isMapping (probeOf "8080") = true
      /\ exists hg path port,
           Acc.mapify (probeOf "8080") !! "httpGet" = Some hg /\ isMapping hg = true
           /\ Acc.mapify hg !! "path" = Some path /\ Acc.isString path = true
           /\ MatchString Acc.reAbs (Value path) = true
           /\ Acc.mapify hg !! "port" = Some port /\ Acc.isInt port = true
           /\ 1 <= fst (Atoi (Value port)) <= 65535).
Proof.
  destruct (silent_port_and_probe "pod.yaml") as [Hp Hr]. split.
  - apply Hp. reflexivity.
  - apply Hr. reflexivity.
Defined.

(** * Further properties: the image pattern of the accumulate-all program *)

(** The image pattern matches exactly the strings made of
    "registry.bigbrother.io/", a non-empty name, a colon and a
    non-empty tag, where neither the name nor the tag contains a colon
    or white space. *)
Theorem reImage_accepts (s : string) :
  MatchString Acc.reImage s = true
  <-> exists name tag,
        s = "registry.bigbrother.io/" +:+ name +:+ String ":" tag
        /\ name <> "" /\ tag <> ""
        /\ allChars notColonSpace name = true
        /\ allChars notColonSpace tag = true.
Proof.
  rewrite MatchString_lang. unfold Acc.reImage. rewrite lang_cat_inv. split.
  - intros (p & rest & -> & Hp & Hrest).
    apply (lang_lit "registry.bigbrother.io/") in Hp as ->.
    apply lang_cat_inv in Hrest as (name & rest' & -> & Hname & Hrest).
    apply lang_cat_inv in Hrest as (col & tag & -> & Hcol & Htag).
    apply lang_class_inv in Hcol as (c & -> & Hc). apply Ascii.eqb_eq in Hc as <-.
    apply lang_plus_class in Hname as [Hn1 Hn2].
    apply lang_plus_class in Htag as [Ht1 Ht2].
    exists name, tag. by repeat split.
  - intros (name & tag & -> & Hn1 & Ht1 & Hn2 & Ht2).
    exists "registry.bigbrother.io/", (name +:+ String ":" tag).
    split; [reflexivity|]. split; [by apply (lang_lit "registry.bigbrother.io/")|].
    constructor; [by apply lang_plus_class|].
    change (String ":" tag) with (String ":" "" +:+ tag).
    constructor; [|by apply lang_plus_class]. constructor. reflexivity.
Qed.

(** * Further properties: what accepted resources guarantee *)

(** A [resources] value that the fail-fast program accepts has, for
    [limits] and for [requests], either no such field or a mapping
    that passes [validateResourceMap]. *)
Theorem accepted_resources (res : Node) :
  FF.validateResources res = Ret None ->
  forall field, field = "limits" \/ field = "requests" ->
  forall m, FF.getMapValue res field = Ret (Some m) ->
    isMapping m = true /\ FF.validateResourceMap m = Ret None.
Proof.
  unfold FF.validateResources. intros H field Hf m Hm.
  accept_inv; destruct Hf as [-> | ->];
    match goal with
    | E : FF.getMapValue res ?k = _ |- _ =>
        rewrite E in Hm; first [discriminate Hm | injection Hm as <-; by split]
    end.
Qed.

Lemma accepted_resources_witness :
  isMapping (mapping 16 [str 16 "cpu"; int 16 "2"; str 17 "memory"; str 17 "512Mi"])
  = true
  /\ FF.validateResourceMap
       (mapping 16 [str 16 "cpu"; int 16 "2"; str 17 "memory"; str 17 "512Mi"])
     = Ret None.
Proof.
  apply (accepted_resources
           (mapping 15 [str 15 "limits";
                        mapping 16 [str 16 "cpu"; int 16 "2";
                                    str 17 "memory"; str 17 "512Mi"]])
           eq_refl "limits"); [by left|reflexivity].
Defined.

(** A [resources] value for which the accumulate-all program prints
    nothing is a mapping whose [limits] and [requests], when present,
    are mappings in which [cpu], when present, passes the integer
    check and [memory], when present, is a string matching [reMem]. *)
Theorem silent_resources (res : Node) (f : string) :
  lines (Acc.validateResources res) f = [] ->
  isMapping res = true
  /\ forall field, field = "limits" \/ field = "requests" ->
     forall m, Acc.mapify res !! field = Some m ->
       isMapping m = true
       /\ (forall cpu, Acc.mapify m !! "cpu" = Some cpu -> Acc.isInt cpu = true)
       /\ (forall mem, Acc.mapify m !! "memory" = Some mem ->
             Acc.isString mem = true /\ MatchString Acc.reMem (Value mem) = true).
Proof.
  assert (Hkv : forall name m,
             lines (Acc.validateResKV name m) f = [] ->
             isMapping m = true
             /\ (forall cpu, Acc.mapify m !! "cpu" = Some cpu -> Acc.isInt cpu = true)
             /\ (forall mem, Acc.mapify m !! "memory" = Some mem ->
                   Acc.isString mem = true
                   /\ MatchString Acc.reMem (Value mem) = true)).
  { intros name m H. unfold Acc.validateResKV in H.
    destruct (isMapping m) eqn:Hm; cbn [negb] in H; [|by destruct (lines_fail _ _ _ H)].
    cbv zeta in H. assert (Hsub : sub m m) by apply sub_refl.
    rewrite (lines_seq (lineIn m)) in H; [|rp_all|rp_all].
    acc_inv;
      repeat match goal with
             | Hx : negb _ = false |- _ => apply negb_false_iff in Hx
             end;
      (split; [reflexivity|]);
      (split; [intros cpu Hc; by simplify_eq|]);
      intros mem Hc; simplify_eq; first [done | by split]. }
  unfold Acc.validateResources. intros H.
  destruct (isMapping res) eqn:Hm; cbn [negb] in H; [|by destruct (lines_fail _ _ _ H)].
  cbv zeta in H. assert (Hsub : sub res res) by apply sub_refl.
  rewrite (lines_seq (lineIn res)) in H;
    [|rp; apply validateResKV_reports; eauto using sub_step
     |rp; apply validateResKV_reports; eauto using sub_step].
  apply app_eq_nil in H as [Hl Hr]. split; [reflexivity|].
  intros field [-> | ->] m Hf.
  - rewrite Hf in Hl. by apply (Hkv "limits").
  - rewrite Hf in Hr. by apply (Hkv "requests").
Qed.

Lemma silent_resources_witness :
  isMapping (mapping 15 [str 15 "limits";
                         mapping 16 [str 16 "cpu"; int 16 "2";
                                     str 17 "memory"; str 17 "512Mi"]]) = true
  /\ forall field, field = "limits" \/ field = "requests" ->
     forall m,
       Acc.mapify (mapping 15 [str 15 "limits";
                               mapping 16 [str 16 "cpu"; int 16 "2";
                                           str 17 "memory"; str 17 "512Mi"]])
         !! field = Some m ->
       isMapping m = true
       /\ (forall cpu, Acc.mapify m !! "cpu" = Some cpu -> Acc.isInt cpu = true)
       /\ (forall mem, Acc.mapify m !! "memory" = Some mem ->
             Acc.isString mem = true /\ MatchString Acc.reMem (Value mem) = true).
Proof. apply (silent_resources _ "pod.yaml"). reflexivity. Defined.

(** * Line numbers of violations: what the two notions refuse

    [absentFF], [absentAcc], [wrongFF] and [wrongAcc] hold of genuine
    violations only.  An absence message is refused for a field that
    is present, whatever its value; a wrong-type message is tied to the
    value of the field it names, not to any other node of the
    document. *)

Lemma append_same_suffix (a b s : string) : a +:+ s = b +:+ s -> a = b.
Proof.
  revert b. induction a as [|c a IH]; intros [|d b] H.
  - reflexivity.
  - exfalso. change ("" +:+ s) with s in H. rewrite append_cons in H.
    apply (f_equal String.length) in H. cbn [String.length] in H.
    rewrite length_append in H. lia.
  - exfalso. change ("" +:+ s) with s in H. rewrite append_cons in H.
    apply (f_equal String.length) in H. cbn [String.length] in H.
    rewrite length_append in H. lia.
  - rewrite !append_cons in H. injection H as -> H. f_equal. by apply IH.
Qed.

Ltac table_cases H :=
  simpl in H;
  repeat match type of H with
         | _ \/ _ => destruct H as [H|H]
         | False => destruct H
         end.

Lemma entityFF_doc (doc p : Node) : entityFF doc EDoc p -> p = doc.
Proof.
  intros H. inversion H as [|pe q f ce c He Ht|pe q f label ce sq c He Ht]; subst.
  - reflexivity.
  - destruct pe; table_cases Ht; discriminate.
  - destruct pe; table_cases Ht; discriminate.
Qed.

Lemma entityAcc_doc (doc p : Node) : entityAcc doc EDoc p -> p = doc.
Proof.
  intros H. inversion H as [|pe q f ce c He Ht|pe q f label ce sq c He Ht]; subst.
  - reflexivity.
  - destruct pe; table_cases Ht; discriminate.
  - destruct pe; table_cases Ht; discriminate.
Qed.

(** For [apiVersion: 5] the fail-fast program reports the wrong type
    at the value's line, and "apiVersion is required" is no absence
    of this document in either reading of the schema. *)
Lemma absence_needs_absent_field :
  FF.run (document apiVersionFive) = FF.atLine (int 1 "5") "apiVersion must be string"
  /\ (forall p, ~ absentFF apiVersionFive p "apiVersion is required")
  /\ (forall p, ~ absentAcc apiVersionFive p "apiVersion is required").
Proof.
  split; [reflexivity|]. split; intros p H.
  - inversion H as [ent q f He Hf Hg Hq Hm]. subst q.
    apply (append_same_suffix _ "apiVersion") in Hm. subst f.
    destruct ent; table_cases Hf; try discriminate.
    apply entityFF_doc in He. subst p. discriminate.
  - inversion H as [ent q f He Hf Hg Hq Hm]. subst q.
    apply (append_same_suffix _ "apiVersion") in Hm. subst f.
    destruct ent; table_cases Hf; try discriminate.
    apply entityAcc_doc in He. subst p. discriminate.
Qed.

Ltac entity_inv H :=
  inversion H as [|?pe ?q ?f ?ce ?c ?He ?Ht ?Hf ?Hm
                  |?pe ?q ?f ?label ?ce ?sq ?c ?He ?Ht ?Hf ?Hs ?Hin ?Hm]; subst;
  try (destruct pe; table_cases Ht; simplify_eq).

Lemma entityFF_metadata (doc p : Node) :
  entityFF doc EMetadata p -> FF.getMapValue doc "metadata" = Ret (Some p).
Proof. intros H. entity_inv H. apply entityFF_doc in He. by subst. Qed.

Lemma entityFF_spec (doc p : Node) :
  entityFF doc ESpec p -> FF.getMapValue doc "spec" = Ret (Some p).
Proof. intros H. entity_inv H. apply entityFF_doc in He. by subst. Qed.

Lemma entityFF_container (doc p : Node) :
  entityFF doc EContainer p -> exists spec, FF.getMapValue doc "spec" = Ret (Some spec).
Proof. intros H. entity_inv H. apply entityFF_spec in He. by exists q. Qed.

Lemma entityAcc_metadata (doc p : Node) :
  entityAcc doc EMetadata p -> Acc.mapify doc !! "metadata" = Some p.
Proof. intros H. entity_inv H. apply entityAcc_doc in He. by subst. Qed.

Lemma entityAcc_spec (doc p : Node) :
  entityAcc doc ESpec p -> Acc.mapify doc !! "spec" = Some p.
Proof. intros H. entity_inv H. apply entityAcc_doc in He. by subst. Qed.

Lemma entityAcc_container (doc p : Node) :
  entityAcc doc EContainer p -> exists spec, Acc.mapify doc !! "spec" = Some spec.
Proof. intros H. entity_inv H. apply entityAcc_spec in He. by exists q. Qed.

Lemma entityAcc_osObject (doc p : Node) :
  entityAcc doc EOsObject p -> exists spec, Acc.mapify doc !! "spec" = Some spec.
Proof. intros H. entity_inv H. apply entityAcc_spec in He. by exists q. Qed.

Ltac fault_cases H :=
  cbn [fault] in H;
  repeat match type of H with
         | context [if ?b then _ else _] => destruct b
         | context [match ?x with _ => _ end] => destruct x
         end;
  try discriminate H; injection H as H; vm_compute in H; try discriminate H.

(** For a [metadata] whose [name] is a number, "name must be string"
    is a violation at the [name] value (line 4) and at no other node,
    the top of the document (line 1) included. *)
Lemma wrong_needs_failing_node :
  In "pod.yaml:4 name must be string" (fst (Acc.main "pod.yaml" (document nameNotString)))
  /\ (forall n, wrongFF nameNotString n "name must be string" -> n = int 4 "7")
  /\ (forall n, wrongAcc nameNotString n "name must be string" -> n = int 4 "7").
Proof.
  split; [vm_compute; tauto|]. split; intros n H.
  - inversion H as [Hm|ent p f label r x m' He Ht Hg Hf
                    |pe p f label ce sq c He Ht Hg Hs Hc Hm
                    |q k v label r m' He Hin Ht Hf]; subst.
    + destruct ent; table_cases Ht; simplify_eq; try (by fault_cases Hf).
      * apply entityFF_metadata in He. vm_compute in He. simplify_eq.
        vm_compute in Hg. by simplify_eq.
      * apply entityFF_container in He as [spec He]. vm_compute in He. discriminate.
    + destruct pe; table_cases Ht; simplify_eq.
    + table_cases Ht; simplify_eq; by fault_cases Hf.
  - inversion H as [Hm|ent p f label r x m' He Ht Hg Hf
                    |pe p f label ce sq c He Ht Hg Hs Hc Hm
                    |lbs k v He Hin Hs|lbs k v He Hin Hs]; subst.
    + destruct ent; table_cases Ht; simplify_eq; try (by fault_cases Hf).
      * apply entityAcc_metadata in He. vm_compute in He. simplify_eq.
        vm_compute in Hg. by simplify_eq.
      * apply entityAcc_osObject in He as [spec He]. vm_compute in He. discriminate.
      * apply entityAcc_container in He as [spec He]. vm_compute in He. discriminate.
    + destruct pe; table_cases Ht; simplify_eq.
Qed.
